(** * The live attendance link of the dashboard (CourseLinkPage.jsx)

    A shallow embedding of the page that shows the scannable attendance
    code of a course, of the location manager of the settings page
    (SettingsPage.jsx), and of the parts of the JavaScript runtime and of
    the document service they call; then of the page that toggles the
    links and navigates to them (Attendance.jsx) and of the theme code
    of the settings page and of App.

    Conventions of the embedding.
    - A JavaScript string is a [string]: a sequence of code units, here
      restricted to the range 0..255.
    - A JavaScript Number is kept in the form on which ECMA-262 defines
      Number::toString: NaN, an infinity, a signed zero, or a sign with
      the decimal digits [s] and the exponent [n] of the shortest decimal
      that denotes the value ([0.d1 d2 ... dk * 10^n]).  Rounding of
      decimals with more than 15 significant digits to a binary double is
      not modelled; the statements that print a number keep to that range
      or to well-formed triples.
    - A document of the service is a record with its [$id], its creation
      time (milliseconds since the epoch) and its attributes.
    - Asynchronous code is a transition system: every [await] and every
      callback is a transition taken when its promise settles or its
      event arrives. *)

From Stdlib Require Import ZArith List String Ascii Bool Lia.
From Stdlib Require Import DecimalString DecimalPos DecimalN.
Import ListNotations.

Local Open Scope string_scope.
Local Open Scope Z_scope.

(** ** Code units and strings *)

Definition dquote : ascii := "034"%char.
Definition backslash : ascii := "\"%char.

Definition code (c : ascii) : Z := Z.of_nat (nat_of_ascii c).

Definition is_digit (c : ascii) : bool := (48 <=? code c) && (code c <=? 57).

Fixpoint all_digits (s : string) : bool :=
  match s with
  | EmptyString => true
  | String c s' => is_digit c && all_digits s'
  end.

Fixpoint repeat_char (c : ascii) (n : nat) : string :=
  match n with
  | O => EmptyString
  | S n' => String c (repeat_char c n')
  end.

Definition zeros (n : nat) : string := repeat_char "0"%char n.

(** [take n s] and [drop n s]: the two parts of [s] around index [n]. *)
Fixpoint take (n : nat) (s : string) : string :=
  match n, s with
  | S n', String c s' => String c (take n' s')
  | _, _ => EmptyString
  end.

Fixpoint drop (n : nat) (s : string) : string :=
  match n, s with
  | S n', String _ s' => drop n' s'
  | _, _ => s
  end.

Fixpoint join (sep : string) (parts : list string) : string :=
  match parts with
  | [] => EmptyString
  | [p] => p
  | p :: ps => p ++ sep ++ join sep ps
  end.

(** ** Numbers *)

Inductive number : Type :=
| NaN
| Infinity (neg : bool)
| Zero (neg : bool)
| Dec (neg : bool) (s : string) (n : Z).

Definition first_char (s : string) : option ascii :=
  match s with
  | EmptyString => None
  | String c _ => Some c
  end.

Fixpoint last_char (s : string) : option ascii :=
  match s with
  | EmptyString => None
  | String c EmptyString => Some c
  | String _ s' => last_char s'
  end.

Definition is_zero_char (c : ascii) : bool := code c =? 48.

Definition nonzero_end (o : option ascii) : bool :=
  match o with
  | Some c => negb (is_zero_char c)
  | None => false
  end.

(** The digits of a finite non-zero number: at least one, decimal, with no
    zero in front and none at the end ([k] is as small as possible). *)
Definition canonical (s : string) : bool :=
  all_digits s && nonzero_end (first_char s) && nonzero_end (last_char s).

Definition wf_number (x : number) : bool :=
  match x with
  | Dec _ s _ => canonical s
  | _ => true
  end.

Definition is_finite (x : number) : bool :=
  match x with
  | NaN | Infinity _ => false
  | _ => true
  end.

(** The number is an integer: its decimal has no digit after the point. *)
Definition is_integer (x : number) : bool :=
  match x with
  | NaN | Infinity _ => false
  | Zero _ => true
  | Dec _ s n => Z.of_nat (length s) <=? n
  end.

(** The decimal numeral of a natural number (the exponent of the
    scientific notation). *)
Definition decimal_of_N (n : N) : string :=
  NilZero.string_of_uint (N.to_uint n).

(** Number::toString with radix 10 (ECMA-262, 6.1.6.1.20), for the
    positive number with the [k] digits [s] and the exponent [n]. *)
Definition digits_toString (s : string) (n : Z) : string :=
  let k := Z.of_nat (length s) in
  if (-5 <=? n) && (n <=? 21) then
    if k <=? n then s ++ zeros (Z.to_nat (n - k))
    else if 0 <? n then take (Z.to_nat n) s ++ "." ++ drop (Z.to_nat n) s
    else "0." ++ zeros (Z.to_nat (- n)) ++ s
  else
    let e := (if n <? 0 then "-" else "+")
               ++ decimal_of_N (Z.to_N (Z.abs (n - 1))) in
    if k =? 1 then s ++ "e" ++ e
    else take 1 s ++ "." ++ drop 1 s ++ "e" ++ e.

Definition Number_toString (x : number) : string :=
  match x with
  | NaN => "NaN"
  | Zero _ => "0"
  | Infinity neg => (if neg then "-" else EmptyString) ++ "Infinity"
  | Dec neg s n => (if neg then "-" else EmptyString) ++ digits_toString s n
  end.

(** *** parseInt *)

(** StrWhiteSpaceChar, for code units below 256. *)
Definition is_whitespace (c : ascii) : bool :=
  let n := code c in
  ((9 <=? n) && (n <=? 13)) || (n =? 32) || (n =? 160).

Fixpoint trim_start (s : string) : string :=
  match s with
  | String c s' => if is_whitespace c then trim_start s' else s
  | EmptyString => EmptyString
  end.

Fixpoint digit_prefix (s : string) : string :=
  match s with
  | String c s' => if is_digit c then String c (digit_prefix s') else EmptyString
  | EmptyString => EmptyString
  end.

Fixpoint strip_leading_zeros (s : string) : string :=
  match s with
  | String c s' => if is_zero_char c then strip_leading_zeros s' else s
  | EmptyString => EmptyString
  end.

Fixpoint strip_trailing_zeros (s : string) : string :=
  match s with
  | EmptyString => EmptyString
  | String c s' =>
      match strip_trailing_zeros s' with
      | EmptyString => if is_zero_char c then EmptyString else String c EmptyString
      | r => String c r
      end
  end.

(** The number denoted by a string of decimal digits, with its sign. *)
Definition number_of_digits (neg : bool) (ds : string) : number :=
  match strip_leading_zeros ds with
  | EmptyString => Zero neg
  | sig => Dec neg (strip_trailing_zeros sig) (Z.of_nat (length sig))
  end.

(** parseInt(string, 10) (ECMA-262, 19.2.5): leading white space is
    dropped, a sign is read, then the longest prefix of decimal digits;
    without a digit the result is NaN.  (The engine rounds an integer of
    more than 15 digits to a double; the embedding keeps its digits.) *)
Definition parseInt (input : string) : number :=
  let s := trim_start input in
  let '(neg, s) :=
    match s with
    | String c s' =>
        if (code c =? 45) then (true, s')
        else if (code c =? 43) then (false, s')
        else (false, s)
    | EmptyString => (false, s)
    end in
  match digit_prefix s with
  | EmptyString => NaN
  | ds => number_of_digits neg ds
  end.

(** ** Values *)

#[warnings="-register-all"]
Inductive value : Type :=
| VUndefined
| VNull
| VBool (b : bool)
| VNum (x : number)
| VStr (s : string)
| VObj (props : list (string * value)).

(** ToBoolean (ECMA-262, 7.1.2). *)
Definition ToBoolean (v : value) : bool :=
  match v with
  | VUndefined | VNull => false
  | VBool b => b
  | VNum NaN | VNum (Zero _) => false
  | VNum _ => true
  | VStr s => negb (s =? EmptyString)%string
  | VObj _ => true
  end.

(** [a && b] of JavaScript: [a] when it is falsy, [b] otherwise. *)
Definition js_and (a b : value) : value := if ToBoolean a then b else a.

(** ** JSON.stringify *)

Definition hex_digit (n : Z) : ascii :=
  ascii_of_nat (Z.to_nat (if n <? 10 then 48 + n else 87 + n)).

(** QuoteJSONString (ECMA-262, 25.5.2.3), one code unit. *)
Definition quote_char (c : ascii) : string :=
  let n := code c in
  if n =? 8 then "\b"
  else if n =? 9 then "\t"
  else if n =? 10 then "\n"
  else if n =? 12 then "\f"
  else if n =? 13 then "\r"
  else if n =? 34 then String backslash (String dquote EmptyString)
  else if n =? 92 then "\\"
  else if n <? 32 then
    "\u00" ++ String (hex_digit (n / 16)) (String (hex_digit (n mod 16)) EmptyString)
  else String c EmptyString.

Fixpoint quote_chars (s : string) : string :=
  match s with
  | EmptyString => EmptyString
  | String c s' => quote_char c ++ quote_chars s'
  end.

Definition QuoteJSONString (s : string) : string :=
  String dquote (quote_chars s ++ String dquote EmptyString).

(** SerializeJSONProperty without replacer and indentation: [None] is the
    [undefined] that makes an object drop the property. *)
Fixpoint SerializeJSONProperty (v : value) : option string :=
  match v with
  | VUndefined => None
  | VNull => Some "null"
  | VBool b => Some (if b then "true" else "false")
  | VNum x => Some (if is_finite x then Number_toString x else "null")
  | VStr s => Some (QuoteJSONString s)
  | VObj props =>
      let fix members (ps : list (string * value)) : list string :=
        match ps with
        | [] => []
        | (k, w) :: ps' =>
            match SerializeJSONProperty w with
            | Some str => (QuoteJSONString k ++ ":" ++ str) :: members ps'
            | None => members ps'
            end
        end in
      Some ("{" ++ join "," (members props) ++ "}")
  end.

Definition JSON_stringify (v : value) : option string := SerializeJSONProperty v.

(** ** Date.prototype.toISOString *)

Definition msPerDay : Z := 86400000.

(** Year of the era, month and day of the day [doe] of an era of 400
    years (146097 days) that starts on a first of March. *)
Definition date_in_era (doe : Z) : Z * Z * Z :=
  let yoe := (doe - doe / 1460 + doe / 36524 - doe / 146096) / 365 in
  let doy := doe - (365 * yoe + yoe / 4 - yoe / 100) in
  let mp := (5 * doy + 2) / 153 in
  let d := doy - (153 * mp + 2) / 5 + 1 in
  let m := if mp <? 10 then mp + 3 else mp - 9 in
  (yoe + (if m <=? 2 then 1 else 0), m, d).

(** Year, month and day of a day number counted from 1970-01-01 in the
    proleptic Gregorian calendar (YearFromTime, MonthFromTime and
    DateFromTime of ECMA-262, 21.4.1). *)
Definition civil_from_days (days : Z) : Z * Z * Z :=
  let z := days + 719468 in
  let era := z / 146097 in
  let '(y, m, d) := date_in_era (z - era * 146097) in
  (y + era * 400, m, d).

(** A non-negative integer in decimal, filled with zeros on the left up
    to [width] characters. *)
Definition pad (width : nat) (n : Z) : string :=
  let s := decimal_of_N (Z.to_N n) in
  zeros (width - length s) ++ s.

Definition iso_year (y : Z) : string :=
  if (0 <=? y) && (y <=? 9999) then pad 4 y
  else (if y <? 0 then "-" else "+") ++ pad 6 (Z.abs y).

(** [toISOString] of the Date whose time value is [t] milliseconds since
    the epoch: YYYY-MM-DDTHH:mm:ss.sssZ, in UTC. *)
Definition toISOString (t : Z) : string :=
  let '(y, m, d) := civil_from_days (t / msPerDay) in
  let ms := t mod msPerDay in
  iso_year y ++ "-" ++ pad 2 m ++ "-" ++ pad 2 d ++ "T"
    ++ pad 2 (ms / 3600000) ++ ":" ++ pad 2 (ms / 60000 mod 60) ++ ":"
    ++ pad 2 (ms / 1000 mod 60) ++ "." ++ pad 3 (ms mod 1000) ++ "Z".

(** ** Documents of the service *)

Record document : Type := {
  doc_id : string;                     (* $id *)
  doc_createdAt : Z;                   (* $createdAt *)
  doc_attrs : list (string * value)
}.

Fixpoint lookup (k : string) (ps : list (string * value)) : option value :=
  match ps with
  | [] => None
  | (k', v) :: ps' => if (k =? k')%string then Some v else lookup k ps'
  end.

(** Reading a property of a document: [undefined] when it has none. *)
Definition attr (d : document) (k : string) : value :=
  match lookup k (doc_attrs d) with
  | Some v => v
  | None => VUndefined
  end.

(** [v === 'Active'] *)
Definition is_Active (v : value) : bool :=
  match v with
  | VStr s => (s =? "Active")%string
  | _ => false
  end.

(** ** The state of the page (CourseLinkPage) *)

Record Location : Type := { latitude : value; longitude : value }.

Record page : Type := {
  course : option document;
  location : Location;
  loading : bool;
  error : option string;
  currentTime : string
}.

(** The state the component starts with; [clock] is the formatted time of
    the first render. *)
Definition initial_page (clock : string) : page :=
  {| course := None;
     location := {| latitude := VNull; longitude := VNull |};
     loading := true;
     error := None;
     currentTime := clock |}.

Definition setCourse (c : document) (st : page) : page :=
  {| course := Some c; location := location st; loading := loading st;
     error := error st; currentTime := currentTime st |}.

Definition setLocation (l : Location) (st : page) : page :=
  {| course := course st; location := l; loading := loading st;
     error := error st; currentTime := currentTime st |}.

Definition setLoading (b : bool) (st : page) : page :=
  {| course := course st; location := location st; loading := b;
     error := error st; currentTime := currentTime st |}.

Definition setError (msg : string) (st : page) : page :=
  {| course := course st; location := location st; loading := loading st;
     error := Some msg; currentTime := currentTime st |}.

Definition setCurrentTime (clock : string) (st : page) : page :=
  {| course := course st; location := location st; loading := loading st;
     error := error st; currentTime := clock |}.

(** *** The payload of the code *)

(** The object the page serializes: [semester] is the route parameter and
    [now] the time value of [new Date()]. *)
Definition token (c : document) (l : Location) (semester : string) (now : Z) : value :=
  VObj [ ("courseId", VStr (doc_id c));
         ("semester", VNum (parseInt semester));
         ("dateTime", VStr (toISOString now));
         ("location",
           if ToBoolean (js_and (latitude l) (longitude l))
           then VObj [("latitude", latitude l); ("longitude", longitude l)]
           else VNull) ].

Definition qrValue (st : page) (semester : string) (now : Z) : string :=
  match course st with
  | Some c =>
      if is_Active (attr c "LinkStatus") then
        match JSON_stringify (token c (location st) semester now) with
        | Some s => s
        | None => EmptyString      (* JSON.stringify of an object is a string *)
        end
      else EmptyString
  | None => EmptyString
  end.

(** *** What the page renders *)

Inductive view : Type :=
| LoadingView                         (* spinner, "Loading Course..." *)
| ErrorView (message : string)        (* the card headed "Error" *)
| Blank                               (* return null *)
| LinkView (programme : value) (semester : string)
           (code : option string)     (* the value given to QRCode *)
           (placeholder : bool)       (* "Link is Inactive" *)
           (status : string) (clock : string).

Definition truthy_error (e : option string) : bool :=
  match e with
  | Some msg => negb (msg =? EmptyString)%string
  | None => false
  end.

Definition render (st : page) (semester : string) (now : Z) : view :=
  if loading st then LoadingView
  else if truthy_error (error st) then
    ErrorView (match error st with Some msg => msg | None => EmptyString end)
  else match course st with
       | None => Blank
       | Some c =>
           let isLinkActive := is_Active (attr c "LinkStatus") in
           LinkView (attr c "Programme") semester
             (if isLinkActive then Some (qrValue st semester now) else None)
             (negb isLinkActive)
             (if isLinkActive then "Active" else "Inactive")
             (currentTime st)
       end.

(** The code a view shows, if it shows one. *)
Definition shown_code (v : view) : option string :=
  match v with
  | LinkView _ _ code _ _ _ => code
  | _ => None
  end.

(** ** The document service *)

(** A promise that has settled. *)
Inductive settled (A : Type) : Type :=
| Fulfilled (a : A)
| Rejected.
Arguments Fulfilled {A} a.
Arguments Rejected {A}.

(** The queries the page sends: [Query.orderDesc('$createdAt')] and
    [Query.limit(n)]. *)
Inductive query : Type :=
| orderDesc_createdAt
| limit (n : nat).

Fixpoint insert_desc (d : document) (l : list document) : list document :=
  match l with
  | [] => [d]
  | x :: l' =>
      if doc_createdAt x <? doc_createdAt d then d :: l
      else x :: insert_desc d l'
  end.

Definition apply_query (docs : list document) (q : query) : list document :=
  match q with
  | orderDesc_createdAt => fold_right insert_desc [] docs
  | limit n => firstn n docs
  end.

(** [listDocuments] on a collection: the queries are applied in turn. *)
Definition listDocuments (collection : list document) (queries : list query)
  : list document :=
  fold_left apply_query queries collection.

(** What [fetchLatestLocation] resolves to when the service answers from
    the collection [collection]: the first document of the answer, or
    [null]. *)
Definition fetchLatestLocation (collection : list document) : option document :=
  match listDocuments collection [orderDesc_createdAt; limit 1] with
  | d :: _ => Some d
  | [] => None
  end.

(** ** The realtime client *)

Inductive handler : Type :=
| onCourse (id : string)     (* the callback that closes over foundCourse.$id *)
| onLocation.

Record subscription : Type := {
  sub_id : nat;
  sub_channel : string;
  sub_handler : handler
}.

Record message : Type := {
  msg_channels : list string;
  msg_events : list string;
  msg_payload : document
}.

Definition includes (l : list string) (x : string) : bool :=
  existsb (fun y => (y =? x)%string) l.

(** ** A viewer session *)

(** The two messages the page can show in its error card. *)
Definition not_found_message : string :=
  "The requested course could not be found.".

Definition failure_message : string :=
  "Failed to load course data. Please try again later.".

Inductive stage : Type :=
| AwaitCourses       (* suspended at [await fetchCourses()] *)
| AwaitLocation      (* suspended at [await fetchLatestLocation()] *)
| Finished.          (* initializeData has returned *)

Record world : Type := {
  ui : page;
  pc : stage;
  unsubscribeCourse : option nat;
  unsubscribeLocation : option nat;
  timeInterval : bool;                  (* the minute timer is set *)
  subscriptions : list subscription;    (* held by the client *)
  next_sub : nat;
  requeries : list (option document);   (* fetchLatestLocation().then(...) in flight *)
  store : list document                 (* the location collection *)
}.

Inductive event : Type :=
| CoursesSettled (r : settled (list document))      (* fetchCourses() settles *)
| LocationSettled (r : settled (option document))   (* the awaited fetchLatestLocation() settles *)
| Realtime (m : message)                            (* the client receives a message *)
| RequerySettled (i : nat)                          (* the re-query number [i] is answered *)
| RequeryFailed (i : nat)                           (* the re-query number [i] is rejected *)
| Publish (d : document)                            (* a sample is added to the collection *)
| Tick (clock : string)                             (* a minute has passed *)
| Cleanup.                                          (* the effect is torn down *)

Definition with_ui (f : page -> page) (w : world) : world :=
  {| ui := f (ui w); pc := pc w;
     unsubscribeCourse := unsubscribeCourse w;
     unsubscribeLocation := unsubscribeLocation w;
     timeInterval := timeInterval w; subscriptions := subscriptions w;
     next_sub := next_sub w; requeries := requeries w; store := store w |}.

Definition with_pc (p : stage) (w : world) : world :=
  {| ui := ui w; pc := p;
     unsubscribeCourse := unsubscribeCourse w;
     unsubscribeLocation := unsubscribeLocation w;
     timeInterval := timeInterval w; subscriptions := subscriptions w;
     next_sub := next_sub w; requeries := requeries w; store := store w |}.

Definition with_requeries (r : list (option document)) (w : world) : world :=
  {| ui := ui w; pc := pc w;
     unsubscribeCourse := unsubscribeCourse w;
     unsubscribeLocation := unsubscribeLocation w;
     timeInterval := timeInterval w; subscriptions := subscriptions w;
     next_sub := next_sub w; requeries := r; store := store w |}.

Definition with_store (s : list document) (w : world) : world :=
  {| ui := ui w; pc := pc w;
     unsubscribeCourse := unsubscribeCourse w;
     unsubscribeLocation := unsubscribeLocation w;
     timeInterval := timeInterval w; subscriptions := subscriptions w;
     next_sub := next_sub w; requeries := requeries w; store := s |}.

(** [client.subscribe(channel, callback)]: the new subscription and the
    handle that releases it. *)
Definition subscribe (channel : string) (h : handler) (w : world) : nat * world :=
  let id := next_sub w in
  (id,
   {| ui := ui w; pc := pc w;
      unsubscribeCourse := unsubscribeCourse w;
      unsubscribeLocation := unsubscribeLocation w;
      timeInterval := timeInterval w;
      subscriptions := subscriptions w ++
        [{| sub_id := id; sub_channel := channel; sub_handler := h |}];
      next_sub := S id; requeries := requeries w; store := store w |}).

Definition unsubscribe (handle : option nat) (subs : list subscription)
  : list subscription :=
  match handle with
  | Some id => filter (fun s => negb (Nat.eqb (sub_id s) id)) subs
  | None => subs
  end.

Fixpoint remove_nth {A : Type} (i : nat) (l : list A) : list A :=
  match i, l with
  | O, _ :: l' => l'
  | S i', x :: l' => x :: remove_nth i' l'
  | _, [] => []
  end.

Definition location_of (d : document) : Location :=
  {| latitude := attr d "Latitude"; longitude := attr d "Longitude" |}.

(** What the page takes from its surroundings: the identifiers read from
    the environment of the build, and two functions of the engine,
    [decodeURIComponent], which throws on a malformed escape ([None]), and
    [String.prototype.toLowerCase]. *)
Record environment : Type := {
  DATABASE_ID : string;
  COURSE_COLLECTION_ID : string;
  LOCATION_COLLECTION_ID : string;
  decodeURIComponent : string -> option string;
  toLowerCase : string -> string
}.

Section Session.

Variable env : environment.

(** The route parameter [programme]. *)
Variable programme : string.

Definition course_channel (id : string) : string :=
  "databases." ++ DATABASE_ID env ++ ".collections."
    ++ COURSE_COLLECTION_ID env ++ ".documents." ++ id.

Definition course_update_event (id : string) : string :=
  course_channel id ++ ".update".

Definition location_channel : string :=
  "databases." ++ DATABASE_ID env ++ ".collections."
    ++ LOCATION_COLLECTION_ID env ++ ".documents".

Definition location_create_event : string :=
  location_channel ++ ".*.create".

(** [courses.find(c => c.Programme.toLowerCase() === decodedProgramme)]:
    [None] when the test throws a TypeError, on a course whose
    [Programme] is not a string, before a match is found. *)
Fixpoint find_course (decodedProgramme : string) (courses : list document)
  : option (option document) :=
  match courses with
  | [] => Some None
  | c :: cs =>
      match attr c "Programme" with
      | VStr p =>
          if (toLowerCase env p =? decodedProgramme)%string then Some (Some c)
          else find_course decodedProgramme cs
      | _ => None
      end
  end.

(** The [catch] and [finally] blocks of initializeData. *)
Definition failed (w : world) : world :=
  with_pc Finished
    (with_ui (fun st =>
       setLoading false (setError failure_message st)) w).

(** The effect, with initializeData up to its first [await]: the state
    after mounting. *)
Definition mount (clock : string) (locations : list document) : world :=
  {| ui := setLoading true (initial_page clock);
     pc := AwaitCourses;
     unsubscribeCourse := None;
     unsubscribeLocation := None;
     timeInterval := true;
     subscriptions := [];
     next_sub := O;
     requeries := [];
     store := locations |}.

(** initializeData from [await fetchCourses()] to
    [await fetchLatestLocation()]. *)
Definition after_courses (r : settled (list document)) (w : world) : world :=
  match r with
  | Rejected => failed w
  | Fulfilled courses =>
      match decodeURIComponent env programme with
      | None => failed w
      | Some decoded =>
          match find_course (toLowerCase env decoded) courses with
          | None => failed w
          | Some (Some foundCourse) =>
              let w1 := with_ui (setCourse foundCourse) w in
              let '(handle, w2) :=
                subscribe (course_channel (doc_id foundCourse))
                          (onCourse (doc_id foundCourse)) w1 in
              {| ui := ui w2; pc := AwaitLocation;
                 unsubscribeCourse := Some handle;
                 unsubscribeLocation := unsubscribeLocation w2;
                 timeInterval := timeInterval w2; subscriptions := subscriptions w2;
                 next_sub := next_sub w2; requeries := requeries w2;
                 store := store w2 |}
          | Some None =>
              with_pc AwaitLocation
                (with_ui (setError not_found_message) w)
          end
      end
  end.

(** initializeData from [await fetchLatestLocation()] to its end. *)
Definition after_location (r : settled (option document)) (w : world) : world :=
  match r with
  | Rejected => failed w
  | Fulfilled latestLocation =>
      let w1 :=
        match latestLocation with
        | Some d => with_ui (setLocation (location_of d)) w
        | None => w
        end in
      let '(handle, w2) := subscribe location_channel onLocation w1 in
      {| ui := setLoading false (ui w2); pc := Finished;
         unsubscribeCourse := unsubscribeCourse w2;
         unsubscribeLocation := Some handle;
         timeInterval := timeInterval w2; subscriptions := subscriptions w2;
         next_sub := next_sub w2; requeries := requeries w2;
         store := store w2 |}
  end.

(** The two callbacks given to [client.subscribe].  A re-query is answered
    from what the store holds when it is sent; its answer waits in
    [requeries] until the promise settles. *)
Definition call (h : handler) (m : message) (w : world) : world :=
  match h with
  | onCourse id =>
      if includes (msg_events m) (course_update_event id)
      then with_ui (setCourse (msg_payload m)) w
      else w
  | onLocation =>
      if includes (msg_events m) location_create_event
      then with_requeries (requeries w ++ [fetchLatestLocation (store w)]) w
      else w
  end.

(** The subscriptions a message is delivered to: those on one of its
    channels, each called once. *)
Definition receivers (m : message) (subs : list subscription) : list subscription :=
  filter (fun s => includes (msg_channels m) (sub_channel s)) subs.

Definition deliver (m : message) (w : world) : world :=
  fold_left (fun w' s => call (sub_handler s) m w') (receivers m (subscriptions w)) w.

(** [.then(newLocation => { if (newLocation) setLocation(...) })] *)
Definition requery_settled (i : nat) (w : world) : world :=
  match nth_error (requeries w) i with
  | Some r =>
      let w1 := with_requeries (remove_nth i (requeries w)) w in
      match r with
      | Some d => with_ui (setLocation (location_of d)) w1
      | None => w1
      end
  | None => w
  end.

(** The function the effect returns. *)
Definition cleanup (w : world) : world :=
  {| ui := ui w; pc := pc w;
     unsubscribeCourse := unsubscribeCourse w;
     unsubscribeLocation := unsubscribeLocation w;
     timeInterval := false;
     subscriptions :=
       unsubscribe (unsubscribeLocation w)
         (unsubscribe (unsubscribeCourse w) (subscriptions w));
     next_sub := next_sub w; requeries := requeries w; store := store w |}.

Definition step (w : world) (e : event) : world :=
  match e with
  | CoursesSettled r =>
      match pc w with AwaitCourses => after_courses r w | _ => w end
  | LocationSettled r =>
      match pc w with AwaitLocation => after_location r w | _ => w end
  | Realtime m => deliver m w
  | RequerySettled i => requery_settled i w
  | RequeryFailed i => with_requeries (remove_nth i (requeries w)) w
  | Publish d => with_store (store w ++ [d]) w
  | Tick clock => if timeInterval w then with_ui (setCurrentTime clock) w else w
  | Cleanup => cleanup w
  end.

Definition run (w : world) (trace : list event) : world :=
  fold_left step trace w.

(** The message the service sends when a document of the location
    collection has been created. *)
Definition location_created (d : document) : message :=
  {| msg_channels := [location_channel];
     msg_events := [location_create_event];
     msg_payload := d |}.

(** The message the service sends when the course [c] has been updated. *)
Definition course_updated (c : document) : message :=
  {| msg_channels := [course_channel (doc_id c)];
     msg_events := [course_update_event (doc_id c)];
     msg_payload := c |}.

(** A message that announces a new document of the location
    collection. *)
Definition announces_location (m : message) : bool :=
  includes (msg_channels m) location_channel
  && includes (msg_events m) location_create_event.

(** A burst of publications: each sample is stored, then the message
    that announces it arrives. *)
Definition burst_trace (burst : list (document * message)) : list event :=
  flat_map (fun dm => [Publish (fst dm); Realtime (snd dm)]) burst.

(** The [n] oldest re-queries settle, in the order they were sent. *)
Definition settle_in_order (n : nat) : list event :=
  repeat (RequerySettled 0) n.

End Session.

(** ** A reference decoder for JSON texts

    The reader used to state what a payload decodes to.  It follows the
    grammar of ECMA-404 (objects, strings, numbers and the three
    literals; the page produces no array) and reads a number as the
    decimal it denotes. *)

Definition is_json_ws (c : ascii) : bool :=
  let n := code c in
  (n =? 32) || (n =? 9) || (n =? 10) || (n =? 13).

Fixpoint skip_ws (s : string) : string :=
  match s with
  | String c s' => if is_json_ws c then skip_ws s' else s
  | EmptyString => EmptyString
  end.

Definition hex_value (c : ascii) : option Z :=
  let n := code c in
  if (48 <=? n) && (n <=? 57) then Some (n - 48)
  else if (97 <=? n) && (n <=? 102) then Some (n - 87)
  else if (65 <=? n) && (n <=? 70) then Some (n - 55)
  else None.

Definition hex4 (a b c d : ascii) : option Z :=
  match hex_value a, hex_value b, hex_value c, hex_value d with
  | Some x, Some y, Some z, Some t => Some (((x * 16 + y) * 16 + z) * 16 + t)
  | _, _, _, _ => None
  end.

Definition unescape (e : ascii) : option ascii :=
  let n := code e in
  if n =? 34 then Some dquote
  else if n =? 92 then Some backslash
  else if n =? 47 then Some "/"%char
  else if n =? 98 then Some (ascii_of_nat 8)
  else if n =? 102 then Some (ascii_of_nat 12)
  else if n =? 110 then Some (ascii_of_nat 10)
  else if n =? 114 then Some (ascii_of_nat 13)
  else if n =? 116 then Some (ascii_of_nat 9)
  else None.

Definition cons_char (c : ascii) (r : option (string * string))
  : option (string * string) :=
  match r with
  | Some (s, rest) => Some (String c s, rest)
  | None => None
  end.

(** The characters of a string literal after its opening quote, and what
    follows the closing quote. *)
Fixpoint parse_chars (s : string) : option (string * string) :=
  match s with
  | EmptyString => None
  | String c s' =>
      if code c =? 34 then Some (EmptyString, s')
      else if code c =? 92 then
        match s' with
        | String e s'' =>
            if code e =? 117 then
              match s'' with
              | String h1 (String h2 (String h3 (String h4 s3))) =>
                  match hex4 h1 h2 h3 h4 with
                  | Some n =>
                      if n <? 256 then cons_char (ascii_of_nat (Z.to_nat n)) (parse_chars s3)
                      else None
                  | None => None
                  end
              | _ => None
              end
            else
              match unescape e with
              | Some c' => cons_char c' (parse_chars s'')
              | None => None
              end
        | EmptyString => None
        end
      else if code c <? 32 then None
      else cons_char c (parse_chars s')
  end.

Fixpoint span_digits (s : string) : string * string :=
  match s with
  | String c s' =>
      if is_digit c then let '(ds, rest) := span_digits s' in (String c ds, rest)
      else (EmptyString, s)
  | EmptyString => (EmptyString, EmptyString)
  end.

(** The number [int.frac * 10^exp]. *)
Definition number_of_decimal (neg : bool) (int frac : string) (exp : Z) : number :=
  match strip_leading_zeros (int ++ frac) with
  | EmptyString => Zero neg
  | sig =>
      Dec neg (strip_trailing_zeros sig)
          (Z.of_nat (length sig) - Z.of_nat (length frac) + exp)
  end.

Definition N_of_decimal (ds : string) : option N :=
  option_map N.of_uint (NilZero.uint_of_string ds).

(** The fraction of a number, if it has one: ["." digits]. *)
Definition parse_fraction (s : string) : option (string * string) :=
  match s with
  | String c s' =>
      if code c =? 46 then
        match span_digits s' with
        | (EmptyString, _) => None
        | (frac, rest) => Some (frac, rest)
        end
      else Some (EmptyString, s)
  | EmptyString => Some (EmptyString, s)
  end.

(** The exponent of a number, if it has one: ["e" sign digits]. *)
Definition parse_exponent (s : string) : option (Z * string) :=
  match s with
  | String c s' =>
      if (code c =? 101) || (code c =? 69) then
        let '(negative, s1) :=
          match s' with
          | String g s'' =>
              if code g =? 45 then (true, s'')
              else if code g =? 43 then (false, s'')
              else (false, s')
          | EmptyString => (false, s')
          end in
        let '(ds, rest) := span_digits s1 in
        match N_of_decimal ds with
        | Some e => Some (if negative then - Z.of_N e else Z.of_N e, rest)
        | None => None
        end
      else Some (0, s)
  | EmptyString => Some (0, s)
  end.

(** A number without its sign: the integer part (no superfluous zero in
    front), the fraction and the exponent. *)
Definition parse_unsigned (neg : bool) (s : string) : option (number * string) :=
  match span_digits s with
  | (EmptyString, _) => None
  | (String d ds as int, s2) =>
      if is_zero_char d && negb (ds =? EmptyString)%string then None
      else
        match parse_fraction s2 with
        | Some (frac, s3) =>
            match parse_exponent s3 with
            | Some (exp, s4) => Some (number_of_decimal neg int frac exp, s4)
            | None => None
            end
        | None => None
        end
  end.

Definition parse_number (s : string) : option (number * string) :=
  match s with
  | String c s' =>
      if code c =? 45 then parse_unsigned true s' else parse_unsigned false s
  | EmptyString => None
  end.

(** [s] starts with [lit]: what follows it. *)
Fixpoint after_prefix (lit s : string) : option string :=
  match lit, s with
  | EmptyString, _ => Some s
  | String a lit', String b s' =>
      if Ascii.eqb a b then after_prefix lit' s' else None
  | String _ _, EmptyString => None
  end.

Definition parse_literal (s : string) : option (value * string) :=
  match after_prefix "null" s with
  | Some rest => Some (VNull, rest)
  | None =>
      match after_prefix "true" s with
      | Some rest => Some (VBool true, rest)
      | None =>
          match after_prefix "false" s with
          | Some rest => Some (VBool false, rest)
          | None => None
          end
      end
  end.

(** One value at the head of [s], and the members of an object after its
    opening brace; [fuel] bounds the number of values read. *)
Fixpoint parse_value (fuel : nat) (s : string) : option (value * string) :=
  match fuel with
  | O => None
  | S fuel' =>
      match skip_ws s with
      | EmptyString => None
      | String c s' =>
          if code c =? 123 then
            match skip_ws s' with
            | String c2 s2 =>
                if code c2 =? 125 then Some (VObj [], s2)
                else
                  match parse_members fuel' (String c2 s2) with
                  | Some (ps, rest) => Some (VObj ps, rest)
                  | None => None
                  end
            | EmptyString => None
            end
          else if code c =? 34 then
            match parse_chars s' with
            | Some (str, rest) => Some (VStr str, rest)
            | None => None
            end
          else if is_digit c || (code c =? 45) then
            match parse_number (String c s') with
            | Some (x, rest) => Some (VNum x, rest)
            | None => None
            end
          else parse_literal (String c s')
      end
  end
with parse_members (fuel : nat) (s : string)
  : option (list (string * value) * string) :=
  match fuel with
  | O => None
  | S fuel' =>
      match s with
      | String c s1 =>
          if code c =? 34 then
            match parse_chars s1 with
            | Some (k, r1) =>
                match skip_ws r1 with
                | String c2 r2 =>
                    if code c2 =? 58 then
                      match parse_value fuel' r2 with
                      | Some (v, r3) =>
                          match skip_ws r3 with
                          | String c3 r4 =>
                              if code c3 =? 44 then
                                match parse_members fuel' (skip_ws r4) with
                                | Some (ps, r5) => Some ((k, v) :: ps, r5)
                                | None => None
                                end
                              else if code c3 =? 125 then Some ([(k, v)], r4)
                              else None
                          | EmptyString => None
                          end
                      | None => None
                      end
                    else None
                | EmptyString => None
                end
            | None => None
            end
          else None
      | EmptyString => None
      end
  end.

(** The value a JSON text denotes. *)
Definition decode (text : string) : option value :=
  match parse_value (S (length text)) text with
  | Some (v, rest) =>
      match skip_ws rest with
      | EmptyString => Some v
      | String _ _ => None
      end
  | None => None
  end.

(** Reading a member of a decoded object. *)
Definition member (k : string) (v : value) : option value :=
  match v with
  | VObj ps => lookup k ps
  | _ => None
  end.

Definition keys (v : value) : list string :=
  match v with
  | VObj ps => map fst ps
  | _ => []
  end.

(** ** The location manager of the settings page (SettingsPage.jsx) *)

Record form : Type := { Latitude : string; Longitude : string }.

Record manager : Type := {
  locations : list document;
  formData : form;
  editingLocationId : option string
}.

(** The calls the manager makes to the location service. *)
Inductive service_call : Type :=
| addLocation (data : list (string * value))
| updateLocation (id : string) (data : list (string * value))
| deleteLocation (id : string).

Definition empty_form : form := {| Latitude := EmptyString; Longitude := EmptyString |}.

(** [v.toString()]: a TypeError ([None]) on [null] and [undefined]. *)
Definition toString (v : value) : option string :=
  match v with
  | VNum x => Some (Number_toString x)
  | VStr s => Some s
  | VBool b => Some (if b then "true" else "false")
  | VObj _ => Some "[object Object]"
  | VUndefined | VNull => None
  end.

(** parseFloat (ECMA-262, 19.2.4): leading white space is dropped, then
    the longest prefix that is a decimal literal is read: a sign,
    [Infinity] or digits with an optional fraction and exponent. *)
Definition parseFloat (input : string) : number :=
  let s := trim_start input in
  let '(neg, s) :=
    match s with
    | String c s' =>
        if code c =? 45 then (true, s')
        else if code c =? 43 then (false, s')
        else (false, s)
    | EmptyString => (false, s)
    end in
  match after_prefix "Infinity" s with
  | Some _ => Infinity neg
  | None =>
      let '(int, s1) := span_digits s in
      let '(frac, s2) :=
        match s1 with
        | String c s' => if code c =? 46 then span_digits s' else (EmptyString, s1)
        | EmptyString => (EmptyString, s1)
        end in
      match (int ++ frac)%string with
      | EmptyString => NaN
      | _ =>
          let exp := match parse_exponent s2 with
                     | Some (e, _) => e
                     | None => 0
                     end in
          number_of_decimal neg int frac exp
      end
  end.

Definition locationData (f : form) : list (string * value) :=
  [ ("Latitude", VNum (parseFloat (Latitude f)));
    ("Longitude", VNum (parseFloat (Longitude f))) ].

(** handleSubmit: the call it makes, and the state once the service has
    answered with [response]. *)
Definition handleSubmit (m : manager) (response : settled document)
  : list service_call * manager :=
  match editingLocationId m with
  | Some id =>
      ([updateLocation id (locationData (formData m))],
       match response with
       | Fulfilled updated =>
           {| locations :=
                map (fun loc => if (doc_id loc =? id)%string then updated else loc)
                    (locations m);
              formData := empty_form;
              editingLocationId := None |}
       | Rejected => m
       end)
  | None =>
      ([addLocation (locationData (formData m))],
       match response with
       | Fulfilled newLocation =>
           {| locations := newLocation :: locations m;
              formData := empty_form;
              editingLocationId := None |}
       | Rejected => m
       end)
  end.

Definition handleEdit (loc : document) (m : manager) : manager :=
  let m1 := {| locations := locations m; formData := formData m;
               editingLocationId := Some (doc_id loc) |} in
  match toString (attr loc "Latitude"), toString (attr loc "Longitude") with
  | Some lat, Some lon =>
      {| locations := locations m1;
         formData := {| Latitude := lat; Longitude := lon |};
         editingLocationId := editingLocationId m1 |}
  | _, _ => m1
  end.

(** handleDelete: [confirmed] is the answer to [window.confirm]. *)
Definition handleDelete (locationId : string) (confirmed : bool)
    (response : settled unit) (m : manager) : list service_call * manager :=
  if confirmed then
    ([deleteLocation locationId],
     match response with
     | Fulfilled _ =>
         {| locations :=
              filter (fun loc => negb (doc_id loc =? locationId)%string) (locations m);
            formData := formData m;
            editingLocationId := editingLocationId m |}
     | Rejected => m
     end)
  else ([], m).

(** The calls that only add to the log of locations. *)
Definition only_adds (calls : list service_call) : bool :=
  forallb (fun c => match c with addLocation _ => true | _ => false end) calls.

(** ** Instances of the engine functions on ASCII text

    Used to run the model on examples. *)

Definition lower_char (c : ascii) : ascii :=
  let n := code c in
  if (65 <=? n) && (n <=? 90) then ascii_of_nat (Z.to_nat (n + 32)) else c.

Fixpoint ascii_toLowerCase (s : string) : string :=
  match s with
  | EmptyString => EmptyString
  | String c s' => String (lower_char c) (ascii_toLowerCase s')
  end.

(** Percent-decoding of a text whose escapes denote ASCII characters; a
    truncated or non-hexadecimal escape is the URIError. *)
Fixpoint ascii_decodeURIComponent (s : string) : option string :=
  match s with
  | EmptyString => Some EmptyString
  | String c s' =>
      if code c =? 37 then
        match s' with
        | String h1 (String h2 s'') =>
            match hex_value h1, hex_value h2 with
            | Some x, Some y =>
                if x <? 8 then
                  option_map (String (ascii_of_nat (Z.to_nat (x * 16 + y))))
                             (ascii_decodeURIComponent s'')
                else None
            | _, _ => None
            end
        | _ => None
        end
      else option_map (String c) (ascii_decodeURIComponent s')
  end.

(** ** The shape of an ISO-8601 instant: YYYY-MM-DDTHH:mm:ss.sssZ *)

Definition iso8601 (s : string) : bool :=
  (length s =? 24)%nat
  && all_digits (take 4 s)
  && (take 1 (drop 4 s) =? "-")%string
  && all_digits (take 2 (drop 5 s))
  && (take 1 (drop 7 s) =? "-")%string
  && all_digits (take 2 (drop 8 s))
  && (take 1 (drop 10 s) =? "T")%string
  && all_digits (take 2 (drop 11 s))
  && (take 1 (drop 13 s) =? ":")%string
  && all_digits (take 2 (drop 14 s))
  && (take 1 (drop 16 s) =? ":")%string
  && all_digits (take 2 (drop 17 s))
  && (take 1 (drop 19 s) =? ".")%string
  && all_digits (take 3 (drop 20 s))
  && (drop 23 s =? "Z")%string.

(** ** Vocabulary of the statements

    *** Reading back the text of a value *)

(** What may follow the text of a number. *)
Definition no_digit_head (s : string) : bool :=
  match s with
  | String c _ => negb (is_digit c)
  | EmptyString => true
  end.

Definition ends_number (s : string) : bool :=
  match s with
  | String c _ =>
      negb (is_digit c || (code c =? 46) || (code c =? 101) || (code c =? 69))
  | EmptyString => true
  end.

(** A zero loses its sign in a JSON text. *)
Definition unsigned_zero (x : number) : number :=
  match x with
  | Zero _ => Zero false
  | _ => x
  end.

(** The members [SerializeJSONProperty] writes for the properties of an
    object. *)
Fixpoint serialize_members (ps : list (string * value)) : list string :=
  match ps with
  | [] => []
  | (k, w) :: ps' =>
      match SerializeJSONProperty w with
      | Some str => (QuoteJSONString k ++ ":" ++ str) :: serialize_members ps'
      | None => serialize_members ps'
      end
  end.

(** The numbers in a value are in the form the embedding keeps them in. *)
Fixpoint wf_value (v : value) : bool :=
  match v with
  | VNum x => wf_number x
  | VObj ps =>
      (fix all (ps : list (string * value)) : bool :=
         match ps with
         | [] => true
         | (_, w) :: ps' => wf_value w && all ps'
         end) ps
  | _ => true
  end.

Fixpoint wf_members (ps : list (string * value)) : bool :=
  match ps with
  | [] => true
  | (_, w) :: ps' => wf_value w && wf_members ps'
  end.

(** The value a JSON text of [v] denotes: without the properties that are
    [undefined], with [null] for a number that is not finite, and without
    the sign of a zero. *)
Fixpoint as_json (v : value) : value :=
  match v with
  | VNum x => if is_finite x then VNum (unsigned_zero x) else VNull
  | VObj ps =>
      VObj ((fix go (ps : list (string * value)) : list (string * value) :=
               match ps with
               | [] => []
               | (k, w) :: ps' =>
                   match w with
                   | VUndefined => go ps'
                   | _ => (k, as_json w) :: go ps'
                   end
               end) ps)
  | _ => v
  end.

Fixpoint members_as_json (ps : list (string * value)) : list (string * value) :=
  match ps with
  | [] => []
  | (k, w) :: ps' =>
      match w with
      | VUndefined => members_as_json ps'
      | _ => (k, as_json w) :: members_as_json ps'
      end
  end.

(** [v] reads back: the parser finds [as_json v] at the head of any text
    that starts with the text of [v]. *)
Definition reads_back (v : value) : Prop :=
  forall text fuel rest,
    SerializeJSONProperty v = Some text -> wf_value v = true ->
    (length text < fuel)%nat -> ends_number rest = true ->
    parse_value fuel (text ++ rest) = Some (as_json v, rest).

(** *** Checks on dates and on padded numbers *)

(** The date of a day of an era is a date, and the last year of an era is
    reached only by its last days. *)
Definition in_era_ok (doe : Z) : bool :=
  let '(y, m, d) := date_in_era doe in
  (0 <=? y) && (y <=? 400) && (1 <=? m) && (m <=? 12) && (1 <=? d) && (d <=? 31)
  && ((146036 <? doe) || (y <=? 399)).

(** [f] holds on the [n] integers from [i] on. *)
Fixpoint all_from (f : Z -> bool) (n : nat) (i : Z) : bool :=
  match n with
  | O => true
  | S n' => f i && all_from f n' (i + 1)
  end.

(** [pad w n] has [w] characters, all of them digits. *)
Definition pad_ok (w : nat) (n : Z) : bool :=
  let s := pad w n in
  (length s =? w)%nat && all_digits s.

(** *** Payloads *)

(** A finite number other than zero. *)
Definition nonzero_finite (x : number) : bool :=
  match x with
  | Dec _ s _ => canonical s
  | _ => false
  end.

(** An integer of at most 15 digits: a double holds it exactly. *)
Definition safe_integer (x : number) : bool :=
  match x with
  | Zero _ => true
  | Dec _ s n => (Z.of_nat (length s) <=? n) && (n <=? 15)
  | _ => false
  end.

(** The payload decodes to an object with exactly the identifier of the
    course, an integer semester, an ISO-8601 timestamp and the two
    coordinates of the location. *)
Definition decodes_to_full_token (payload : string) (c : document) (l : Location)
  : Prop :=
  exists n iso,
    decode payload
    = Some (VObj [ ("courseId", VStr (doc_id c));
                   ("semester", VNum n);
                   ("dateTime", VStr iso);
                   ("location", VObj [ ("latitude", latitude l);
                                       ("longitude", longitude l) ]) ])
    /\ is_integer n = true /\ iso8601 iso = true.

(** The text of a member of an object. *)
Definition member_text (k text : string) : string :=
  QuoteJSONString k ++ ":" ++ text.

(** *** Sessions and the service *)

(** The first document of a list is at least as recent as the others. *)
Definition newest_first (l : list document) : Prop :=
  match l with
  | [] => True
  | x :: _ => Forall (fun y => doc_createdAt y <= doc_createdAt x) l
  end.

(** The page shows an error that no later state removes. *)
Definition in_error (st : page) : Prop :=
  error st = Some not_found_message \/ error st = Some failure_message.

Definition is_onLocation (h : handler) : bool :=
  match h with
  | onLocation => true
  | onCourse _ => false
  end.

(** The callbacks of the location stream that a message reaches. *)
Definition location_listeners (m : message) (subs : list subscription) : nat :=
  List.length (filter (fun s => is_onLocation (sub_handler s)) (receivers m subs)).

(** After a burst, with every re-query settled, the page shows the most
    recently created sample. *)
Definition newest_sample_shown (w : world) : Prop :=
  requeries w = []
  /\ forall d, fetchLatestLocation (store w) = Some d ->
               location (ui w) = location_of d.

(** Every message that announces a sample reaches exactly one callback
    of the location stream. *)
Definition one_listener (env : environment) (w : world) : Prop :=
  forall m, announces_location env m = true ->
            location_listeners m (subscriptions w) = 1%nat.

(** Every subscription the client holds can be released through a handle
    that the effect has kept. *)
Definition owned (w : world) : Prop :=
  (pc w = AwaitCourses -> subscriptions w = [])
  /\ (pc w = AwaitLocation ->
      forall s, In s (subscriptions w) -> unsubscribeCourse w = Some (sub_id s))
  /\ (forall s, In s (subscriptions w) ->
        unsubscribeCourse w = Some (sub_id s)
        \/ unsubscribeLocation w = Some (sub_id s)).

(** Nothing of the session is left: no subscription, no timer, no re-query
    in flight, and initializeData has returned. *)
Definition released (w : world) : Prop :=
  subscriptions w = [] /\ timeInterval w = false /\ requeries w = []
  /\ pc w = Finished.

(** ** Examples *)

Definition example_course : document :=
  {| doc_id := "66f1c0a2003b1e5d7a10";
     doc_createdAt := 1700000000000;
     doc_attrs := [ ("Programme", VStr "B.Sc IT"); ("LinkStatus", VStr "Active") ] |}.

Definition inactive_course : document :=
  {| doc_id := "66f1c0a2003b1e5d7a10";
     doc_createdAt := 1700000000000;
     doc_attrs := [ ("Programme", VStr "B.Sc IT"); ("LinkStatus", VStr "Inactive") ] |}.

(** 26.1445 N, 91.7362 E *)
Definition example_location : Location :=
  {| latitude := VNum (Dec false "261445" 2);
     longitude := VNum (Dec false "917362" 2) |}.

Definition example_page : page :=
  {| course := Some example_course;
     location := example_location;
     loading := false;
     error := None;
     currentTime := "10:15 am" |}.

Definition example_now : Z := 1700000000000.

Definition zero_latitude_page : page :=
  setLocation {| latitude := VNum (Zero false);
                 longitude := VNum (Dec false "917362" 2) |} example_page.

Definition example_env : environment :=
  {| DATABASE_ID := "attendance";
     COURSE_COLLECTION_ID := "courses";
     LOCATION_COLLECTION_ID := "locations";
     decodeURIComponent := ascii_decodeURIComponent;
     toLowerCase := ascii_toLowerCase |}.

Definition older_sample : document :=
  {| doc_id := "loc-1"; doc_createdAt := 1700000000000;
     doc_attrs := [ ("Latitude", VNum (Dec false "261445" 2));
                    ("Longitude", VNum (Dec false "917362" 2)) ] |}.

Definition newer_sample : document :=
  {| doc_id := "loc-2"; doc_createdAt := 1700000060000;
     doc_attrs := [ ("Latitude", VNum (Dec false "2615" 2));
                    ("Longitude", VNum (Dec false "9174" 2)) ] |}.

(** Two samples are published; the answer to the second re-query arrives
    before the answer to the first. *)
Definition out_of_order_trace : list event :=
  [ CoursesSettled (Fulfilled [example_course]);
    LocationSettled (Fulfilled None);
    Publish older_sample;
    Realtime (location_created example_env older_sample);
    Publish newer_sample;
    Realtime (location_created example_env newer_sample);
    RequerySettled 1;
    RequerySettled 0 ].

(** The same two samples, with the answers in the order of the
    re-queries. *)
Definition in_order_run : world :=
  run example_env "B.Sc%20IT" (mount "10:15 am" [])
    (CoursesSettled (Fulfilled [example_course])
       :: LocationSettled (Fulfilled None)
       :: burst_trace
            [ (older_sample, location_created example_env older_sample);
              (newer_sample, location_created example_env newer_sample) ]
          ++ settle_in_order 2).

(** The viewer leaves while the list of courses is being fetched; the
    answers arrive afterwards. *)
Definition teardown_during_load : list event :=
  [ Cleanup;
    CoursesSettled (Fulfilled [example_course]);
    LocationSettled (Fulfilled None) ].

Definition after_early_teardown : world :=
  run example_env "B.Sc%20IT" (mount "10:15 am" []) teardown_during_load.

(** The manager with one saved sample, after "edit" on that sample and a
    new latitude typed into the form. *)
Definition listing_manager : manager :=
  {| locations := [older_sample]; formData := empty_form;
     editingLocationId := None |}.

Definition editing_manager : manager :=
  let m := handleEdit older_sample listing_manager in
  {| locations := locations m;
     formData := {| Latitude := "26.15"; Longitude := Longitude (formData m) |};
     editingLocationId := editingLocationId m |}.

Definition moved_sample : document :=
  {| doc_id := "loc-1"; doc_createdAt := 1700000000000;
     doc_attrs := [ ("Latitude", VNum (Dec false "2615" 2));
                    ("Longitude", VNum (Dec false "917362" 2)) ] |}.

(** ** More of the engine: ToString, substrings and URI components *)

(** ToString (ECMA-262, 7.1.17): what a template literal and
    [encodeURIComponent] make of their argument. *)
Definition ToString (v : value) : string :=
  match v with
  | VUndefined => "undefined"
  | VNull => "null"
  | VBool b => if b then "true" else "false"
  | VNum x => Number_toString x
  | VStr s => s
  | VObj _ => "[object Object]"
  end.

(** [s.includes(searchString)]: [searchString] occurs in [s]. *)
Fixpoint String_includes (s searchString : string) : bool :=
  match after_prefix searchString s with
  | Some _ => true
  | None =>
      match s with
      | String _ s' => String_includes s' searchString
      | EmptyString => false
      end
  end.

(** The code units [encodeURIComponent] leaves as they are: letters,
    digits and [- _ . ! ~ * ' ( )]. *)
Definition is_uriUnescaped (c : ascii) : bool :=
  let n := code c in
  ((65 <=? n) && (n <=? 90)) || ((97 <=? n) && (n <=? 122)) || is_digit c
  || (n =? 45) || (n =? 95) || (n =? 46) || (n =? 33) || (n =? 126)
  || (n =? 42) || (n =? 39) || (n =? 40) || (n =? 41).

Definition upper_hex_digit (n : Z) : ascii :=
  ascii_of_nat (Z.to_nat (if n <? 10 then 48 + n else 55 + n)).

(** One octet of the UTF-8 form, escaped. *)
Definition percent_octet (b : Z) : string :=
  String "%" (String (upper_hex_digit (b / 16))
                     (String (upper_hex_digit (b mod 16)) EmptyString)).

(** Encode (ECMA-262, 19.2.6.5) on one code unit below 256: one octet
    below 128, two octets from there on. *)
Definition encode_unit (c : ascii) : string :=
  let n := code c in
  if is_uriUnescaped c then String c EmptyString
  else if n <? 128 then percent_octet n
  else percent_octet (192 + n / 64) ++ percent_octet (128 + n mod 64).

Fixpoint encodeURIComponent (s : string) : string :=
  match s with
  | EmptyString => EmptyString
  | String c s' => encode_unit c ++ encodeURIComponent s'
  end.

(** ** Object spread *)

(** [{ ...props, [k]: v }]: the value of an own property is replaced
    where the property stands, a new property goes to the end. *)
Fixpoint set_prop (k : string) (v : value) (props : list (string * value))
  : list (string * value) :=
  match props with
  | [] => [(k, v)]
  | (k', v') :: props' =>
      if (k =? k')%string then (k, v) :: props'
      else (k', v') :: set_prop k v props'
  end.

(** [{ ...a, ...b }] *)
Definition spread (a b : list (string * value)) : list (string * value) :=
  fold_left (fun acc kv => set_prop (fst kv) (snd kv) acc) b a.

(** [{ ...c, ...updated }] for two documents: [$id] and [$createdAt] are
    properties of both, so those of [updated] stay. *)
Definition spread_document (c updated : document) : document :=
  {| doc_id := doc_id updated;
     doc_createdAt := doc_createdAt updated;
     doc_attrs := spread (doc_attrs c) (doc_attrs updated) |}.

(** ** The attendance links page (Attendance.jsx) *)

(** The call the page makes to the course service. *)
Inductive course_call : Type :=
| updateCourse (id : string) (data : document).

(** [course.LinkStatus === 'Active' ? 'Inactive' : 'Active'] *)
Definition newStatus (course : document) : string :=
  if is_Active (attr course "LinkStatus") then "Inactive" else "Active".

(** [{ ...course, ...{ LinkStatus: newStatus } }] *)
Definition fullCourseData (course : document) : document :=
  {| doc_id := doc_id course;
     doc_createdAt := doc_createdAt course;
     doc_attrs := spread (doc_attrs course)
                         [("LinkStatus", VStr (newStatus course))] |}.

(** handleToggleLinkStatus: the call it makes, and the list of courses
    once the service has answered with [response]. *)
Definition handleToggleLinkStatus (course : document) (response : settled document)
    (courses : list document) : list course_call * list document :=
  ([updateCourse (doc_id course) (fullCourseData course)],
   match response with
   | Fulfilled updated =>
       map (fun c => if (doc_id c =? doc_id course)%string
                     then spread_document c updated else c) courses
   | Rejected => courses
   end).

(** The label of the button of a card. *)
Definition toggle_label (course : document) : string :=
  if is_Active (attr course "LinkStatus") then "Deactivate" else "Activate".

(** [courses.filter(course => course.Programme.toLowerCase()
    .includes(searchTerm.toLowerCase()))]: [None] when the test throws a
    TypeError, on a course whose [Programme] is not a string. *)
Fixpoint filter_by_programme (env : environment) (term : string)
    (courses : list document) : option (list document) :=
  match courses with
  | [] => Some []
  | c :: cs =>
      match attr c "Programme" with
      | VStr p =>
          match filter_by_programme env term cs with
          | Some rest =>
              Some (if String_includes (toLowerCase env p) (toLowerCase env term)
                    then c :: rest else rest)
          | None => None
          end
      | _ => None
      end
  end.

Definition filteredCourses (env : environment) (courses : list document)
    (searchTerm : string) : option (list document) :=
  if (searchTerm =? EmptyString)%string then Some courses
  else filter_by_programme env searchTerm courses.

(** The state of the semester dialog. *)
Record semester_modal : Type := {
  isModalOpen : bool;
  selectedCourse : option document;
  selectedSemester : string
}.

Definition handleOpenSemesterModal (course : document) (m : semester_modal)
  : semester_modal :=
  {| isModalOpen := true; selectedCourse := Some course;
     selectedSemester := EmptyString |}.

(** What handleConfirmSemester does besides changing the state. *)
Inductive confirm_effect : Type :=
| toast_error (message : string)
| navigate (path : string)
| confirm_TypeError.               (* [selectedCourse] is null *)

(** The segment of the path that names the course. *)
Definition programme_segment (c : document) : string :=
  encodeURIComponent (ToString (attr c "Programme")).

Definition handleConfirmSemester (m : semester_modal)
  : confirm_effect * semester_modal :=
  if (selectedSemester m =? EmptyString)%string
  then (toast_error "Please select a semester.", m)
  else
    match selectedCourse m with
    | Some c =>
        (navigate ("/link/" ++ programme_segment c ++ "/" ++ selectedSemester m),
         {| isModalOpen := false; selectedCourse := selectedCourse m;
            selectedSemester := selectedSemester m |})
    | None => (confirm_TypeError, m)
    end.

(** What [useParams] gives for a parameter of the matched path: the
    router decodes the segment of the path, and keeps the segment as it
    is when decoding throws. *)
Definition useParams_programme (env : environment) (segment : string) : string :=
  match decodeURIComponent env segment with
  | Some decoded => decoded
  | None => segment
  end.

(** ** More of the location manager (SettingsPage.jsx) *)

(** handleInputChange, [{ ...prev, [name]: value }]: the two inputs of
    the form are named [Latitude] and [Longitude]; a property of another
    name is read nowhere and is not kept. *)
Definition handleInputChange (name value : string) (m : manager) : manager :=
  {| locations := locations m;
     formData :=
       if (name =? "Latitude")%string
       then {| Latitude := value; Longitude := Longitude (formData m) |}
       else if (name =? "Longitude")%string
       then {| Latitude := Latitude (formData m); Longitude := value |}
       else formData m;
     editingLocationId := editingLocationId m |}.

Definition handleCancelEdit (m : manager) : manager :=
  {| locations := locations m;
     formData := empty_form;
     editingLocationId := None |}.

(** What is typed into the form, one change after the other. *)
Definition typed (inputs : list (string * string)) (m : manager) : manager :=
  fold_left (fun m' nv => handleInputChange (fst nv) (snd nv) m') inputs m.

(** ** The theme (AppearanceSettings of SettingsPage.jsx, and App) *)

(** What the theme code reads and writes in the browser: the item
    [theme] of localStorage, the class list of the root element and the
    colour scheme the system prefers. *)
Record browser : Type := {
  theme_item : option string;
  classList : list string;
  prefers_dark : bool
}.

(** DOMTokenList: [add], [remove] and [toggle(token, force)] on an
    ordered set of tokens. *)
Definition classList_add (token : string) (l : list string) : list string :=
  if includes l token then l else (l ++ [token])%list.

Definition classList_remove (token : string) (l : list string) : list string :=
  filter (fun t => negb (t =? token)%string) l.

Definition classList_toggle (token : string) (force : bool) (l : list string)
  : list string :=
  if force then classList_add token l else classList_remove token l.

(** handleThemeChange: the theme the component keeps, and the browser. *)
Definition handleThemeChange (newTheme : string) (b : browser) : string * browser :=
  (newTheme,
   if (newTheme =? "system")%string then
     {| theme_item := None;
        classList := classList_toggle "dark" (prefers_dark b) (classList b);
        prefers_dark := prefers_dark b |}
   else
     {| theme_item := Some newTheme;
        classList := classList_toggle "dark" (newTheme =? "dark")%string (classList b);
        prefers_dark := prefers_dark b |}).

(** [localStorage.getItem('theme') || 'system'] *)
Definition initial_theme (b : browser) : string :=
  match theme_item b with
  | Some t => if (t =? EmptyString)%string then "system" else t
  | None => "system"
  end.

(** The effect of AppearanceSettings when it mounts. *)
Definition mount_appearance (b : browser) : string * browser :=
  handleThemeChange (initial_theme b) b.

(** handleChange, the listener of the colour scheme of the system:
    [matches] is the scheme after the change. *)
Definition handleChange (matches : bool) (b : browser) : browser :=
  let follows :=
    match theme_item b with
    | Some t => (t =? "system")%string || (t =? EmptyString)%string
    | None => true
    end in
  {| theme_item := theme_item b;
     classList := if follows then classList_toggle "dark" matches (classList b)
                  else classList b;
     prefers_dark := matches |}.

(** A token with ASCII white space makes [classList.add] throw. *)
Definition is_ascii_whitespace (c : ascii) : bool :=
  let n := code c in
  (n =? 9) || (n =? 10) || (n =? 12) || (n =? 13) || (n =? 32).

Fixpoint has_whitespace (s : string) : bool :=
  match s with
  | EmptyString => false
  | String c s' => is_ascii_whitespace c || has_whitespace s'
  end.

(** The effect of App when the application loads: [None] when
    [classList.add] throws. *)
Definition App_effect (b : browser) : option browser :=
  match theme_item b with
  | Some t =>
      if (t =? EmptyString)%string then
        Some {| theme_item := theme_item b;
                classList := classList_add "light" (classList b);
                prefers_dark := prefers_dark b |}
      else if has_whitespace t then None
      else Some {| theme_item := theme_item b;
                   classList := classList_add t (classList b);
                   prefers_dark := prefers_dark b |}
  | None =>
      Some {| theme_item := theme_item b;
              classList := classList_add "light" (classList b);
              prefers_dark := prefers_dark b |}
  end.

(** The document a browser loads anew: the storage is kept, the classes
    of the root element are those of the markup, and the system prefers
    the scheme [prefers]. *)
Definition reloaded (item : option string) (markup : list string) (prefers : bool)
  : browser :=
  {| theme_item := item; classList := markup; prefers_dark := prefers |}.

(** ** Vocabulary of the further statements *)

(** The page and its token show the sample [shown] while the newest
    sample of the store is another one, [latest], and no re-query is in
    flight that could still bring it. *)
Definition shows_stale_sample (w : world) (shown latest : document) : Prop :=
  requeries w = []
  /\ fetchLatestLocation (store w) = Some latest
  /\ location (ui w) = location_of shown
  /\ location_of shown <> location_of latest
  /\ forall c semester now,
       member "location" (token c (location (ui w)) semester now)
       = Some (VObj [ ("latitude", attr shown "Latitude");
                      ("longitude", attr shown "Longitude") ]).

(** A code unit of an encoded URI component: unescaped, or part of an
    escape. *)
Definition is_uri_component_char (c : ascii) : bool :=
  is_uriUnescaped c || (code c =? 37).

Fixpoint all_chars (f : ascii -> bool) (s : string) : bool :=
  match s with
  | EmptyString => true
  | String c s' => f c && all_chars f s'
  end.

(** The samples an event brings to the page or to the store: the answer
    to the first fetch and the samples that are published. *)
Definition samples_of (e : event) : list document :=
  match e with
  | LocationSettled (Fulfilled (Some d)) => [d]
  | Publish d => [d]
  | _ => []
  end.

(** The coordinates the page shows are those it started with or those of
    one of the samples [known]. *)
Definition shows_sample_of (known : list document) (st : page) : Prop :=
  location st = {| latitude := VNull; longitude := VNull |}
  \/ exists d, In d known /\ location st = location_of d.

(** The spinner is shown exactly while initializeData has not returned. *)
Definition loading_matches_stage (w : world) : Prop :=
  loading (ui w) = match pc w with Finished => false | _ => true end.

(** The [Programme] of the course is a string that, in lower case,
    contains the term in lower case. *)
Definition programme_contains (env : environment) (c : document) (term : string)
  : Prop :=
  exists p a b,
    attr c "Programme" = VStr p
    /\ toLowerCase env p = a ++ toLowerCase env term ++ b.

(** What a session keeps of the samples [known]: the coordinates it
    shows, the answers that wait in the re-queries, and the store. *)
Definition fed_by (known : list document) (w : world) : Prop :=
  shows_sample_of known (ui w)
  /\ (forall d, In (Some d) (requeries w) -> In d known)
  /\ (forall d, In d (store w) -> In d known).

(** The subscriptions and the timer are released, and initializeData
    has returned. *)
Definition torn_down (w : world) : Prop :=
  subscriptions w = [] /\ timeInterval w = false /\ pc w = Finished.

(** Two states of the page that differ at most in the location. *)
Definition same_but_location (a b : page) : Prop :=
  course a = course b /\ error a = error b /\ loading a = loading b
  /\ currentTime a = currentTime b.

(** ** Further examples *)

Definition semester_dialog : semester_modal :=
  {| isModalOpen := true; selectedCourse := Some example_course;
     selectedSemester := "3" |}.

Definition fresh_browser : browser :=
  {| theme_item := None; classList := []; prefers_dark := true |}.

Definition other_course : document :=
  {| doc_id := "66f1c0a2003b1e5d7a11";
     doc_createdAt := 1700000000000;
     doc_attrs := [ ("Programme", VStr "B.Com"); ("LinkStatus", VStr "Active") ] |}.

(** A session on a course whose link is not active, and the same session
    after the message that announces its activation. *)
Definition inactive_session : world :=
  run example_env "B.Sc%20IT" (mount "10:15 am" [])
    [ CoursesSettled (Fulfilled [inactive_course]);
      LocationSettled (Fulfilled (Some older_sample)) ].


(** A sample is published and announced; the viewer leaves before the
    re-query is answered, and the answer, an update of the course and a
    tick arrive afterwards. *)
Definition requery_in_flight : list event :=
  [ CoursesSettled (Fulfilled [example_course]);
    LocationSettled (Fulfilled None);
    Publish older_sample;
    Realtime (location_created example_env older_sample) ].

Definition events_after_teardown : list event :=
  [ Realtime (course_updated example_env inactive_course);
    Tick "10:16 am";
    Realtime (location_created example_env newer_sample);
    RequerySettled 0 ].

Definition before_late_teardown : world :=
  run example_env "B.Sc%20IT" (mount "10:15 am" []) requery_in_flight.

Definition after_late_teardown : world :=
  run example_env "B.Sc%20IT" (cleanup before_late_teardown) events_after_teardown.


(** The sample that is being edited is deleted. *)
Definition deleted_while_editing : manager :=
  snd (handleDelete (doc_id older_sample) true (Fulfilled tt)
         (handleEdit older_sample listing_manager)).

(** A course that has no name, listed before the course of the link. *)
Definition nameless_course : document :=
  {| doc_id := "66f1c0a2003b1e5d7a12";
     doc_createdAt := 1700000000000;
     doc_attrs := [ ("LinkStatus", VStr "Inactive") ] |}.

(** Two samples are published; the first re-query is answered, the
    second is rejected. *)
Definition rejected_requery_trace : list event :=
  [ CoursesSettled (Fulfilled [example_course]);
    LocationSettled (Fulfilled None);
    Publish older_sample;
    Realtime (location_created example_env older_sample);
    Publish newer_sample;
    Realtime (location_created example_env newer_sample);
    RequerySettled 0;
    RequeryFailed 0 ].

(** A sample is published while the first fetch of the location is
    under way: the answer was read before, the subscription is made
    after. *)
Definition published_during_load : list event :=
  [ CoursesSettled (Fulfilled [example_course]);
    Publish newer_sample;
    Realtime (location_created example_env newer_sample);
    LocationSettled (Fulfilled (Some older_sample)) ].

(** A course whose name has a percent sign. *)
Definition percent_course : document :=
  {| doc_id := "66f1c0a2003b1e5d7a13";
     doc_createdAt := 1700000000000;
     doc_attrs := [ ("Programme", VStr "100% Online"); ("LinkStatus", VStr "Active") ] |}.

(** * Properties *)

(** ** Strings of digits *)

Lemma app_string_assoc (a b c : string) : (a ++ b) ++ c = a ++ (b ++ c).
Proof. induction a as [|x a IH]; simpl; [reflexivity | now rewrite IH]. Qed.

Lemma app_string_nil (a : string) : a ++ EmptyString = a.
Proof. induction a as [|x a IH]; simpl; [reflexivity | now rewrite IH]. Qed.

Lemma length_append (a b : string) : length (a ++ b) = (length a + length b)%nat.
Proof. induction a as [|x a IH]; simpl; [reflexivity | now rewrite IH]. Qed.

Lemma length_zeros (m : nat) : length (zeros m) = m.
Proof. unfold zeros; induction m as [|m IH]; simpl; [reflexivity | now f_equal]. Qed.

Lemma take_drop (n : nat) (s : string) : take n s ++ drop n s = s.
Proof.
  revert s; induction n as [|n IH]; intros [|c s]; simpl; try reflexivity.
  now rewrite IH.
Qed.

Lemma length_drop (n : nat) (s : string) : length (drop n s) = (length s - n)%nat.
Proof.
  revert s; induction n as [|n IH]; intros [|c s]; simpl; try reflexivity.
  apply IH.
Qed.

Lemma ends_number_no_digit s : ends_number s = true -> no_digit_head s = true.
Proof.
  destruct s as [|c s]; simpl; [reflexivity|].
  rewrite negb_true_iff, !orb_false_iff. intros [[[H _] _] _]. now rewrite H.
Qed.

Lemma all_digits_app a b : all_digits (a ++ b) = all_digits a && all_digits b.
Proof.
  induction a as [|c a IH]; simpl; [reflexivity|]. now rewrite IH, andb_assoc.
Qed.

Lemma all_digits_zeros m : all_digits (zeros m) = true.
Proof. unfold zeros; induction m as [|m IH]; simpl; [reflexivity | exact IH]. Qed.

Lemma all_digits_take n s : all_digits s = true -> all_digits (take n s) = true.
Proof.
  revert s; induction n as [|n IH]; intros [|c s]; simpl; try reflexivity.
  rewrite !andb_true_iff. intros [H1 H2]. split; [assumption | now apply IH].
Qed.

Lemma all_digits_drop n s : all_digits s = true -> all_digits (drop n s) = true.
Proof.
  revert s; induction n as [|n IH]; intros [|c s]; simpl; try reflexivity; try easy.
  rewrite !andb_true_iff. intros [H1 H2]. now apply IH.
Qed.

Lemma span_digits_app ds rest :
  all_digits ds = true -> no_digit_head rest = true ->
  span_digits (ds ++ rest) = (ds, rest).
Proof.
  intros Hd Hr. induction ds as [|c ds IH]; simpl in *.
  - destruct rest as [|c r]; simpl in *; [reflexivity|].
    apply negb_true_iff in Hr. now rewrite Hr.
  - apply andb_true_iff in Hd as [Hc Hd]. rewrite Hc, (IH Hd). reflexivity.
Qed.

Lemma strip_leading_zeros_app m s :
  strip_leading_zeros (zeros m ++ s) = strip_leading_zeros s.
Proof. unfold zeros; induction m as [|m IH]; simpl; [reflexivity | exact IH]. Qed.

Lemma strip_leading_nonzero s :
  nonzero_end (first_char s) = true -> strip_leading_zeros s = s.
Proof.
  destruct s as [|c s]; simpl; [discriminate|].
  intros H. apply negb_true_iff in H. now rewrite H.
Qed.

Lemma strip_trailing_zeros_zeros m : strip_trailing_zeros (zeros m) = EmptyString.
Proof. unfold zeros; induction m as [|m IH]; simpl; [reflexivity | now rewrite IH]. Qed.

Lemma strip_trailing_nonzero s :
  nonzero_end (last_char s) = true -> strip_trailing_zeros s = s.
Proof.
  induction s as [|c s IH]; simpl; [discriminate|].
  destruct s as [|c' s].
  - simpl. intros H. apply negb_true_iff in H. now rewrite H.
  - intros H. rewrite (IH H). simpl in *.
    destruct (strip_trailing_zeros s); [destruct (is_zero_char c')|]; reflexivity.
Qed.

Lemma strip_trailing_app_zeros s m :
  nonzero_end (last_char s) = true -> strip_trailing_zeros (s ++ zeros m) = s.
Proof.
  induction s as [|c s IH]; simpl; [discriminate|].
  destruct s as [|c' s].
  - simpl. intros H. apply negb_true_iff in H.
    rewrite strip_trailing_zeros_zeros. now rewrite H.
  - intros H. rewrite (IH H). reflexivity.
Qed.

Lemma all_digits_string_of_uint d : all_digits (NilEmpty.string_of_uint d) = true.
Proof. induction d; simpl; auto. Qed.

Lemma all_digits_decimal_of_N m : all_digits (decimal_of_N m) = true.
Proof.
  unfold decimal_of_N, NilZero.string_of_uint.
  destruct (N.to_uint m); try reflexivity; apply all_digits_string_of_uint.
Qed.

Lemma N_to_uint_nonnil m : N.to_uint m <> Decimal.Nil.
Proof.
  destruct m as [|p]; simpl; [discriminate | apply DecimalPos.Unsigned.to_uint_nonnil].
Qed.

Lemma N_of_decimal_of_N m : N_of_decimal (decimal_of_N m) = Some m.
Proof.
  unfold N_of_decimal, decimal_of_N.
  rewrite NilZero.usu by apply N_to_uint_nonnil.
  simpl. now rewrite DecimalN.Unsigned.of_to.
Qed.

(** ** Reading a number back *)

Lemma canonical_inv s :
  canonical s = true ->
  exists c s0, s = String c s0 /\ is_digit c = true /\ is_zero_char c = false
               /\ all_digits s0 = true.
Proof.
  unfold canonical. rewrite !andb_true_iff. intros [[Ha Hf] _].
  destruct s as [|c s0]; simpl in *; [discriminate|].
  apply andb_true_iff in Ha as [Hc Hs]. apply negb_true_iff in Hf.
  now exists c, s0.
Qed.

Lemma canonical_parts s :
  canonical s = true ->
  all_digits s = true /\ nonzero_end (first_char s) = true
  /\ nonzero_end (last_char s) = true.
Proof. unfold canonical. rewrite !andb_true_iff. tauto. Qed.

Lemma parse_fraction_none rest :
  ends_number rest = true -> parse_fraction rest = Some (EmptyString, rest).
Proof.
  destruct rest as [|c r]; simpl; [reflexivity|].
  rewrite negb_true_iff, !orb_false_iff. intros [[[_ H] _] _]. now rewrite H.
Qed.

Lemma parse_exponent_none rest :
  ends_number rest = true -> parse_exponent rest = Some (0, rest).
Proof.
  destruct rest as [|c r]; simpl; [reflexivity|].
  rewrite negb_true_iff, !orb_false_iff. intros [[[_ _] H1] H2]. now rewrite H1, H2.
Qed.

Lemma parse_fraction_digits ds rest :
  all_digits ds = true -> ds <> EmptyString -> no_digit_head rest = true ->
  parse_fraction ("." ++ ds ++ rest) = Some (ds, rest).
Proof.
  intros Hd Hn Hr. simpl. rewrite (span_digits_app _ _ Hd Hr).
  destruct ds; [contradiction | reflexivity].
Qed.

Lemma parse_exponent_scientific n rest :
  no_digit_head rest = true ->
  parse_exponent ("e" ++ (if n <? 0 then "-" else "+")
                    ++ decimal_of_N (Z.to_N (Z.abs (n - 1))) ++ rest)
  = Some (if n <? 0 then - Z.abs (n - 1) else Z.abs (n - 1), rest).
Proof.
  intros Hr.
  assert (H : forall sgn : bool,
    parse_exponent ("e" ++ (if sgn then "-" else "+")
                    ++ decimal_of_N (Z.to_N (Z.abs (n - 1))) ++ rest)
    = Some (if sgn then - Z.abs (n - 1) else Z.abs (n - 1), rest)).
  { intros sgn.
    destruct sgn; simpl;
      rewrite (span_digits_app _ _ (all_digits_decimal_of_N _) Hr),
        N_of_decimal_of_N, Z2N.id by lia; reflexivity. }
  destruct (n <? 0); [apply (H true) | apply (H false)].
Qed.

Lemma parse_unsigned_parts neg d ds tail frac s3 exp s4 :
  all_digits (String d ds) = true ->
  is_zero_char d && negb (ds =? EmptyString)%string = false ->
  no_digit_head tail = true ->
  parse_fraction tail = Some (frac, s3) ->
  parse_exponent s3 = Some (exp, s4) ->
  parse_unsigned neg (String d ds ++ tail)
  = Some (number_of_decimal neg (String d ds) frac exp, s4).
Proof.
  intros Hd Hz Ht Hf He. unfold parse_unsigned.
  rewrite (span_digits_app _ _ Hd Ht). cbv iota beta.
  rewrite Hz, Hf, He. reflexivity.
Qed.

Lemma number_of_decimal_digits neg int frac exp z s t :
  int ++ frac = zeros z ++ s ++ zeros t ->
  canonical s = true ->
  number_of_decimal neg int frac exp
  = Dec neg s (Z.of_nat (length s) + Z.of_nat t - Z.of_nat (length frac) + exp).
Proof.
  intros E Hc. destruct (canonical_parts _ Hc) as (_ & Hfirst & Hlast).
  unfold number_of_decimal. rewrite E, strip_leading_zeros_app.
  destruct s as [|c s0]; [discriminate|].
  rewrite strip_leading_nonzero by exact Hfirst.
  change ((String c s0 ++ zeros t)%string) with (String c (s0 ++ zeros t)).
  cbv iota.
  change (String c (s0 ++ zeros t)) with ((String c s0 ++ zeros t)%string).
  rewrite (strip_trailing_app_zeros _ _ Hlast), length_append, length_zeros.
  f_equal. lia.
Qed.

Lemma leading_digit_ok c ds :
  is_zero_char c = false -> is_zero_char c && negb (ds =? EmptyString)%string = false.
Proof. now intros ->. Qed.

(** The text of a positive number reads back as the number. *)
Lemma parse_unsigned_digits neg s n rest :
  canonical s = true -> ends_number rest = true ->
  parse_unsigned neg (digits_toString s n ++ rest) = Some (Dec neg s n, rest).
Proof.
  intros Hc Hr.
  destruct (canonical_parts _ Hc) as (Hall & Hfirst & Hlast).
  destruct (canonical_inv _ Hc) as (c & s0 & Es & Hd & Hz & Hs0).
  pose proof (ends_number_no_digit _ Hr) as Hnd.
  assert (Hlen : Z.of_nat (length s) = 1 + Z.of_nat (length s0))
    by (subst s; cbn [length]; lia).
  unfold digits_toString.
  destruct ((-5 <=? n) && (n <=? 21)) eqn:Hrange.
  - apply andb_true_iff in Hrange as [Hlo Hhi].
    apply Z.leb_le in Hlo, Hhi.
    destruct (Z.leb_spec (Z.of_nat (length s)) n) as [Hk|Hk].
    + (* the digits, then zeros *)
      set (m := Z.to_nat (n - Z.of_nat (length s))).
      assert (Ei : s ++ zeros m = String c (s0 ++ zeros m)) by (now subst s).
      rewrite Ei.
      change (String c (s0 ++ zeros m) ++ rest)
        with (String c (s0 ++ zeros m) ++ rest)%string.
      rewrite (parse_unsigned_parts neg c (s0 ++ zeros m) rest EmptyString rest 0 rest);
        [ | rewrite <- Ei, all_digits_app, Hall, all_digits_zeros; reflexivity
          | now apply leading_digit_ok | assumption
          | now apply parse_fraction_none | now apply parse_exponent_none ].
      rewrite <- Ei.
      rewrite (number_of_decimal_digits neg _ EmptyString 0 O s m);
        [ | now rewrite app_string_nil | assumption ].
      do 3 f_equal. try subst m. cbn [length]. lia.
    + destruct (Z.ltb_spec 0 n) as [Hpos|Hneg].
      * (* a point inside the digits *)
        assert (Hn : exists m, Z.to_nat n = S m) by (exists (Z.to_nat n - 1)%nat; lia).
        destruct Hn as [m Hm]. rewrite Hm.
        assert (Ei : take (S m) s = String c (take m s0)) by (now subst s).
        assert (Hne : drop (S m) s <> EmptyString).
        { intros E. apply (f_equal length) in E. rewrite length_drop in E.
          cbn [length] in E. lia. }
        rewrite !app_string_assoc, Ei.
        rewrite (parse_unsigned_parts neg c (take m s0) _ (drop (S m) s) rest 0 rest);
          [ | rewrite <- Ei; now apply all_digits_take
            | now apply leading_digit_ok | reflexivity
            | apply parse_fraction_digits; [now apply all_digits_drop | assumption | assumption]
            | now apply parse_exponent_none ].
        rewrite <- Ei.
        rewrite (number_of_decimal_digits neg _ _ 0 O s O);
          [ | now rewrite take_drop, app_string_nil | assumption ].
        do 3 f_equal. rewrite length_drop. cbn [length]. lia.
      * (* zeros after the point *)
        set (m := Z.to_nat (- n)).
        assert (Hne : zeros m ++ s <> EmptyString).
        { intros E. apply (f_equal length) in E. rewrite length_append in E.
          cbn [length] in E. lia. }
        replace (("0." ++ zeros m ++ s) ++ rest)
          with (String "0" EmptyString ++ ("." ++ (zeros m ++ s) ++ rest))
          by (cbn [append]; now rewrite app_string_assoc).
        rewrite (parse_unsigned_parts neg "0"%char EmptyString _ (zeros m ++ s) rest 0 rest);
          [ | reflexivity | reflexivity | reflexivity
            | apply parse_fraction_digits;
              [rewrite all_digits_app, all_digits_zeros; assumption | assumption | assumption]
            | now apply parse_exponent_none ].
        rewrite (number_of_decimal_digits neg _ _ 0 (S m) s O);
          [ | now rewrite app_string_nil | assumption ].
        do 3 f_equal. rewrite length_append, length_zeros. subst m. lia.
  - (* scientific notation *)
    assert (Hexp : (if n <? 0 then - Z.abs (n - 1) else Z.abs (n - 1)) = n - 1).
    { apply andb_false_iff in Hrange.
      destruct (Z.ltb_spec n 0) as [Hn|Hn]; [lia|].
      destruct Hrange as [Hr'|Hr']; apply Z.leb_gt in Hr'; lia. }
    set (e := (if n <? 0 then "-" else "+") ++ decimal_of_N (Z.to_N (Z.abs (n - 1)))).
    assert (He : parse_exponent ("e" ++ e ++ rest) = Some (n - 1, rest)).
    { subst e. rewrite app_string_assoc, parse_exponent_scientific by assumption.
      now rewrite Hexp. }
    destruct (Z.eqb_spec (Z.of_nat (length s)) 1) as [Hk|Hk].
    + assert (E0 : s0 = EmptyString) by (destruct s0; [reflexivity | cbn [length] in Hlen; lia]).
      subst s0. rewrite Es, !app_string_assoc.
      rewrite (parse_unsigned_parts neg c EmptyString _ EmptyString ("e" ++ e ++ rest) (n - 1) rest);
        [ | rewrite <- Es; assumption | now apply leading_digit_ok | reflexivity
          | reflexivity | assumption ].
      rewrite <- Es.
      rewrite (number_of_decimal_digits neg _ _ _ O s O);
        [ | now rewrite !app_string_nil | assumption ].
      do 3 f_equal. try subst m. cbn [length]. lia.
    + assert (Hs0' : s0 <> EmptyString) by (intros ->; cbn [length] in Hlen; lia).
      assert (Et : take 1 s = String c EmptyString) by (now subst s).
      assert (Edr : drop 1 s = s0) by (now subst s).
      rewrite Et, Edr, !app_string_assoc.
      rewrite (parse_unsigned_parts neg c EmptyString _ s0 ("e" ++ e ++ rest) (n - 1) rest);
        [ | simpl; now rewrite Hd | now apply leading_digit_ok | reflexivity
          | apply parse_fraction_digits; [assumption | assumption | reflexivity]
          | assumption ].
      rewrite (number_of_decimal_digits neg _ _ _ O s O);
        [ | now rewrite app_string_nil, Es | assumption ].
      do 3 f_equal. lia.
Qed.

(** ** Reading a value back *)

Lemma serialize_object ps :
  SerializeJSONProperty (VObj ps)
  = Some ("{" ++ join "," (serialize_members ps) ++ "}").
Proof. reflexivity. Qed.

Lemma wf_object ps : wf_value (VObj ps) = wf_members ps.
Proof. reflexivity. Qed.

Lemma as_json_object ps : as_json (VObj ps) = VObj (members_as_json ps).
Proof. reflexivity. Qed.

Lemma value_nested_ind (P : value -> Prop) :
  P VUndefined -> P VNull -> (forall b, P (VBool b)) -> (forall x, P (VNum x)) ->
  (forall s, P (VStr s)) ->
  (forall ps, Forall (fun kv => P (snd kv)) ps -> P (VObj ps)) ->
  forall v, P v.
Proof.
  intros Hu Hn Hb Hx Hs Ho. fix IH 1. intros [| |b|x|s|ps]; [exact Hu | exact Hn | apply Hb | apply Hx | apply Hs | ].
  apply Ho. induction ps as [|[k w] ps IHps]; constructor; [apply IH | exact IHps].
Qed.

Lemma digit_code c : is_digit c = true -> 48 <= code c <= 57.
Proof. unfold is_digit. rewrite andb_true_iff, !Z.leb_le. tauto. Qed.

(** The text of a positive number starts with a digit. *)
Lemma digits_toString_head s n :
  canonical s = true ->
  exists d tl, digits_toString s n = String d tl /\ is_digit d = true.
Proof.
  intros Hc. destruct (canonical_inv _ Hc) as (c & s0 & -> & Hd & Hz & Hs0).
  unfold digits_toString.
  destruct ((-5 <=? n) && (n <=? 21)).
  - destruct (Z.of_nat (length (String c s0)) <=? n).
    + now exists c, (s0 ++ zeros (Z.to_nat (n - Z.of_nat (length (String c s0))))).
    + destruct (Z.ltb_spec 0 n) as [Hpos|Hneg].
      * assert (Hn : exists m, Z.to_nat n = S m) by (exists (Z.to_nat n - 1)%nat; lia).
        destruct Hn as [m ->]. cbn [take append]. eauto.
      * cbn [append]. eexists _, _. split; reflexivity.
  - destruct (Z.of_nat (length (String c s0)) =? 1); cbn [take append]; eauto.
Qed.

Lemma parse_value_digit fuel d tl :
  is_digit d = true ->
  parse_value (S fuel) (String d tl)
  = match parse_unsigned false (String d tl) with
    | Some (x, rest) => Some (VNum x, rest)
    | None => None
    end.
Proof.
  intros Hd. pose proof (digit_code _ Hd) as Hc.
  cbn [parse_value skip_ws]. unfold is_json_ws, parse_number.
  repeat (match goal with
          | |- context [code d =? ?k] =>
              destruct (Z.eqb_spec (code d) k); [lia|]
          end; cbn [orb]; cbv iota; rewrite ?Hd).
  reflexivity.
Qed.

(** The text of a finite number reads back as the number. *)
Lemma parse_value_number fuel x rest :
  is_finite x = true -> wf_number x = true -> ends_number rest = true ->
  parse_value (S fuel) (Number_toString x ++ rest)
  = Some (VNum (unsigned_zero x), rest).
Proof.
  intros Hf Hw Hr. destruct x as [|neg|neg|neg s n]; try discriminate.
  - cbn [Number_toString]. change ("0" ++ rest) with (String "0" rest).
    rewrite parse_value_digit by reflexivity.
    change (String "0" rest) with (String "0" EmptyString ++ rest).
    rewrite (parse_unsigned_parts false "0"%char EmptyString rest EmptyString rest 0 rest);
      [ reflexivity | reflexivity | reflexivity | now apply ends_number_no_digit
      | now apply parse_fraction_none | now apply parse_exponent_none ].
  - cbn [Number_toString wf_number] in *.
    destruct neg.
    + change (("-" ++ digits_toString s n) ++ rest)
        with (String "-" (digits_toString s n ++ rest)).
      cbn [parse_value skip_ws]. change (is_json_ws "-") with false. cbv iota.
      change (code "-" =? 123) with false. change (code "-" =? 34) with false.
      cbv iota. change (is_digit "-" || (code "-" =? 45)) with true. cbv iota.
      unfold parse_number. change (code "-" =? 45) with true. cbv iota.
      now rewrite parse_unsigned_digits.
    + change ((EmptyString ++ digits_toString s n) ++ rest) with (digits_toString s n ++ rest).
      destruct (digits_toString_head s n Hw) as (d & tl & E & Hd).
      pose proof (parse_unsigned_digits false s n rest Hw Hr) as Hp.
      rewrite E in *. change (String d tl ++ rest) with (String d (tl ++ rest)) in *.
      rewrite parse_value_digit by assumption. now rewrite Hp.
Qed.
Lemma parse_chars_quote_char (c : ascii) (tail : string) :
  parse_chars (quote_char c ++ tail) = cons_char c (parse_chars tail).
Proof.
  destruct c as [[] [] [] [] [] [] [] []]; reflexivity.
Qed.

Lemma parse_chars_quote (s rest : string) :
  parse_chars (quote_chars s ++ String dquote rest) = Some (s, rest).
Proof.
  induction s as [|c s IH]; simpl.
  - reflexivity.
  - rewrite app_string_assoc, parse_chars_quote_char, IH. reflexivity.
Qed.

Lemma quoted_app k tail :
  QuoteJSONString k ++ tail = String dquote (quote_chars k ++ String dquote tail).
Proof.
  unfold QuoteJSONString. cbn [append]. now rewrite app_string_assoc.
Qed.

Lemma parse_members_step fuel k str v tail :
  parse_value fuel (str ++ tail) = Some (v, tail) ->
  parse_members (S fuel) ((QuoteJSONString k ++ ":" ++ str) ++ tail)
  = match skip_ws tail with
    | String c3 r4 =>
        if code c3 =? 44 then
          match parse_members fuel (skip_ws r4) with
          | Some (ps, r5) => Some ((k, v) :: ps, r5)
          | None => None
          end
        else if code c3 =? 125 then Some ([(k, v)], r4)
        else None
    | EmptyString => None
    end.
Proof.
  intros Hv. rewrite app_string_assoc, quoted_app.
  cbn [parse_members]. change (code dquote =? 34) with true. cbv iota.
  rewrite parse_chars_quote. rewrite app_string_assoc.
  cbn [append skip_ws]. change (is_json_ws ":") with false. cbv iota.
  change (code ":" =? 58) with true. cbv iota.
  now rewrite Hv.
Qed.

Lemma serialize_none v : SerializeJSONProperty v = None -> v = VUndefined.
Proof. destruct v; simpl; intros H; try discriminate; reflexivity. Qed.

Lemma serialize_members_nil ps :
  serialize_members ps = [] -> members_as_json ps = [].
Proof.
  induction ps as [|[k w] ps IH]; cbn [serialize_members members_as_json];
    [reflexivity|].
  destruct (SerializeJSONProperty w) eqn:E; [discriminate|].
  rewrite (serialize_none _ E). exact IH.
Qed.

Lemma member_head k str L tail :
  exists tl, join "," ((QuoteJSONString k ++ ":" ++ str) :: L) ++ tail
             = String dquote tl.
Proof.
  destruct L; cbn [join]; rewrite ?app_string_assoc, quoted_app; eauto.
Qed.

Lemma cons_append c a b : String c a ++ b = String c (a ++ b).
Proof. reflexivity. Qed.

Lemma join_single sep p : join sep [p] = p.
Proof. reflexivity. Qed.

Lemma join_cons sep p q l : join sep (p :: q :: l) = p ++ sep ++ join sep (q :: l).
Proof. reflexivity. Qed.

Lemma parse_serialized_members ps :
    Forall (fun kv => reads_back (snd kv)) ps ->
    wf_members ps = true ->
    forall fuel rest m L,
      serialize_members ps = m :: L ->
      (length (join "," (m :: L)) < fuel)%nat ->
      parse_members fuel (join "," (m :: L) ++ "}" ++ rest)
      = Some (members_as_json ps, rest).
  Proof.
    induction 1 as [|[k w] ps Hw _ IH]; intros Hwf fuel rest m L Hm Hlen;
      [discriminate|].
    cbn [serialize_members members_as_json wf_members snd] in *.
    apply andb_true_iff in Hwf as [Hwfw Hwfps].
    destruct (SerializeJSONProperty w) as [str|] eqn:Es.
    - assert (Em : m = QuoteJSONString k ++ ":" ++ str) by congruence.
      assert (HL : serialize_members ps = L) by congruence.
      clear Hm. subst m.
      assert (Hnu : match w with VUndefined => False | _ => True end)
        by (destruct w; try exact I; discriminate).
      assert (Ej : members_as_json
                     ((k, w) :: ps) = (k, as_json w) :: members_as_json ps)
        by (destruct w; try reflexivity; contradiction).
      cbn [members_as_json] in Ej. rewrite Ej. clear Ej.
      destruct fuel as [|fuel]; [lia|].
      destruct L as [|m' L'].
      + rewrite join_single in *.
        rewrite parse_members_step with (v := as_json w).
        * cbn [append skip_ws]. change (is_json_ws "}") with false. cbv iota.
          change (code "}" =? 44) with false. change (code "}" =? 125) with true.
          cbv iota. now rewrite (serialize_members_nil ps).
        * apply (Hw str fuel _ Es Hwfw); [|reflexivity].
          rewrite !length_append in Hlen. cbn [length] in Hlen. lia.
      + rewrite join_cons in *. rewrite app_string_assoc.
        rewrite !length_append in Hlen. cbn [length] in Hlen.
        rewrite parse_members_step with (v := as_json w).
        * rewrite app_string_assoc.
          cbn [append skip_ws]. change (is_json_ws ",") with false. cbv iota.
          change (code "," =? 44) with true. cbv iota.
          assert (Hhd : exists k' str', m' = QuoteJSONString k' ++ ":" ++ str').
          { clear - HL. induction ps as [|[k' w'] ps IHps]; [discriminate|].
            cbn [serialize_members] in HL.
            destruct (SerializeJSONProperty w') as [t|];
              [exists k', t; congruence | auto]. }
          destruct Hhd as (k' & str' & ->).
          destruct (member_head k' str' L' ("}" ++ rest)) as [tl Etl].
          change (String "}" rest) with ("}" ++ rest).
          rewrite Etl. cbn [skip_ws]. change (is_json_ws dquote) with false. cbv iota.
          rewrite <- Etl.
          rewrite (IH Hwfps fuel rest _ _ HL); [reflexivity|]. lia.
        * apply (Hw str fuel _ Es Hwfw); [lia | reflexivity].
    - rewrite (serialize_none _ Es). apply IH; assumption.
  Qed.

(** Reading back the text of a value. *)
Lemma parse_serialized v : reads_back v.
Proof.
  induction v as [| |b|x|s|ps IH] using value_nested_ind;
    intros text fuel rest Ht Hwf Hlen Hr;
    (destruct fuel as [|fuel]; [lia|]).
  - discriminate.
  - injection Ht as <-. reflexivity.
  - injection Ht as <-. destruct b; reflexivity.
  - cbn [SerializeJSONProperty] in Ht. injection Ht as <-. cbn [as_json]. destruct (is_finite x) eqn:Hf.
    + now apply parse_value_number.
    + reflexivity.
  - cbn [SerializeJSONProperty] in Ht. injection Ht as <-. rewrite quoted_app.
    cbn [parse_value skip_ws]. change (is_json_ws dquote) with false. cbv iota.
    change (code dquote =? 123) with false. change (code dquote =? 34) with true.
    cbv iota. now rewrite parse_chars_quote.
  - rewrite serialize_object in Ht. injection Ht as <-.
    rewrite as_json_object. rewrite wf_object in Hwf.
    destruct (serialize_members ps) as [|m L] eqn:Em.
    + rewrite (serialize_members_nil _ Em). reflexivity.
    + assert (Hhd : exists k' str', m = QuoteJSONString k' ++ ":" ++ str').
      { clear - Em. induction ps as [|[k' w'] ps IHps]; [discriminate|].
        cbn [serialize_members] in Em.
        destruct (SerializeJSONProperty w') as [t|];
          [exists k', t; congruence | auto]. }
      destruct Hhd as (k' & str' & ->).
      rewrite cons_append, app_string_assoc.
      destruct (member_head k' str' L ("}" ++ rest)) as [tl Etl].
      rewrite Etl.
      cbn [parse_value skip_ws]. change (is_json_ws "{") with false. cbv iota.
      change (code "{" =? 123) with true. cbv iota.
      cbn [skip_ws]. change (is_json_ws dquote) with false. cbv iota.
      change (code dquote =? 125) with false. cbv iota.
      rewrite <- Etl.
      rewrite (parse_serialized_members ps IH Hwf fuel rest _ _ Em); [reflexivity|].
      cbn [length] in Hlen. rewrite !length_append in Hlen. cbn [length] in Hlen. lia.
Qed.

(** The text [JSON.stringify] gives for a value decodes to the value:
    without the properties that are [undefined], with [null] for a number
    that is not finite, and without the sign of a zero. *)
Theorem decode_stringify v text :
  JSON_stringify v = Some text -> wf_value v = true ->
  decode text = Some (as_json v).
Proof.
  intros Ht Hwf. unfold decode.
  pose proof (parse_serialized v text (S (length text)) EmptyString Ht Hwf
                (Nat.lt_succ_diag_r _) eq_refl) as H.
  rewrite app_string_nil in H. now rewrite H.
Qed.

(** ** parseInt *)

Lemma all_digits_digit_prefix s : all_digits (digit_prefix s) = true.
Proof.
  induction s as [|c s IH]; simpl; [reflexivity|].
  destruct (is_digit c) eqn:E; simpl; [now rewrite E | reflexivity].
Qed.

Lemma all_digits_strip_leading s :
  all_digits s = true -> all_digits (strip_leading_zeros s) = true.
Proof.
  induction s as [|c s IH]; simpl; [reflexivity|].
  intros H. destruct (is_zero_char c); [|exact H].
  apply andb_true_iff in H as [_ H]. now apply IH.
Qed.

Lemma all_digits_strip_trailing s :
  all_digits s = true -> all_digits (strip_trailing_zeros s) = true.
Proof.
  induction s as [|c s IH]; simpl; [reflexivity|].
  intros H. apply andb_true_iff in H as [Hc H]. specialize (IH H).
  destruct (strip_trailing_zeros s).
  - destruct (is_zero_char c); simpl; [reflexivity | now rewrite Hc].
  - simpl in *. now rewrite Hc.
Qed.

Lemma strip_leading_head s :
  nonzero_end (first_char (strip_leading_zeros s)) = true
  \/ strip_leading_zeros s = EmptyString.
Proof.
  induction s as [|c s IH]; simpl; [now right|].
  destruct (is_zero_char c) eqn:E; [exact IH|]. left. simpl. now rewrite E.
Qed.

Lemma strip_trailing_head s :
  nonzero_end (first_char s) = true ->
  first_char (strip_trailing_zeros s) = first_char s.
Proof.
  destruct s as [|c s]; simpl; [reflexivity|].
  intros H. apply negb_true_iff in H.
  destruct (strip_trailing_zeros s); [now rewrite H | reflexivity].
Qed.

Lemma strip_trailing_last s :
  nonzero_end (last_char (strip_trailing_zeros s)) = true
  \/ strip_trailing_zeros s = EmptyString.
Proof.
  induction s as [|c s IH]; simpl; [now right|].
  destruct (strip_trailing_zeros s) as [|c' r] eqn:E.
  - destruct (is_zero_char c) eqn:Ec; [now right|]. left. simpl. now rewrite Ec.
  - left. destruct IH as [IH|IH]; [exact IH | discriminate].
Qed.

Lemma length_strip_trailing s :
  (length (strip_trailing_zeros s) <= length s)%nat.
Proof.
  induction s as [|c s IH]; simpl; [lia|].
  destruct (strip_trailing_zeros s); [destruct (is_zero_char c)|]; simpl in *; lia.
Qed.

Lemma number_of_digits_wf neg ds :
  all_digits ds = true -> wf_number (number_of_digits neg ds) = true.
Proof.
  intros H. unfold number_of_digits.
  pose proof (all_digits_strip_leading _ H) as Ha.
  destruct (strip_leading_head ds) as [Hh|Hh]; [|now rewrite Hh].
  destruct (strip_leading_zeros ds) as [|c sig] eqn:E; [reflexivity|].
  cbn [wf_number]. unfold canonical.
  rewrite (all_digits_strip_trailing _ Ha), (strip_trailing_head _ Hh), Hh.
  destruct (strip_trailing_last (String c sig)) as [Hl|Hl]; [now rewrite Hl|].
  pose proof (strip_trailing_head _ Hh) as Hf. rewrite Hl in Hf. discriminate.
Qed.

Lemma number_of_digits_integer neg ds :
  is_integer (number_of_digits neg ds) = true.
Proof.
  unfold number_of_digits.
  destruct (strip_leading_zeros ds) as [|c sig]; [reflexivity|].
  cbn [is_integer]. apply Z.leb_le.
  pose proof (length_strip_trailing (String c sig)). lia.
Qed.

(** What [parseInt] returns is NaN or an integer, in the form the
    embedding keeps numbers in. *)
Lemma parseInt_wf input : wf_number (parseInt input) = true.
Proof.
  unfold parseInt.
  destruct (match trim_start input with
            | EmptyString => (false, trim_start input)
            | String c s' =>
                if code c =? 45 then (true, s')
                else if code c =? 43 then (false, s') else (false, trim_start input)
            end) as [neg s].
  pose proof (all_digits_digit_prefix s) as H.
  destruct (digit_prefix s); [reflexivity | now apply number_of_digits_wf].
Qed.

Lemma parseInt_integer input :
  parseInt input = NaN \/ is_integer (parseInt input) = true.
Proof.
  unfold parseInt.
  destruct (match trim_start input with
            | EmptyString => (false, trim_start input)
            | String c s' =>
                if code c =? 45 then (true, s')
                else if code c =? 43 then (false, s') else (false, trim_start input)
            end) as [neg s].
  destruct (digit_prefix s); [now left | right; apply number_of_digits_integer].
Qed.

(** ** The timestamp *)

Lemma all_from_spec f n : forall i j,
  all_from f n i = true -> i <= j < i + Z.of_nat n -> f j = true.
Proof.
  induction n as [|n IH]; intros i j H Hj; [lia|].
  cbn [all_from] in H. apply andb_true_iff in H as [H0 H1].
  destruct (Z.eq_dec j i) as [->|Hne]; [assumption|].
  apply (IH (i + 1)); [assumption | lia].
Qed.

Lemma all_from_range f k j :
  all_from f (Z.to_nat k) 0 = true -> 0 <= j < k -> f j = true.
Proof.
  intros H Hj. apply (all_from_spec f (Z.to_nat k) 0 j H). lia.
Qed.

Lemma date_in_era_checked : all_from in_era_ok (Z.to_nat 146097) 0 = true.
Proof. vm_compute. reflexivity. Qed.

Lemma date_in_era_bounds doe :
  0 <= doe < 146097 -> in_era_ok doe = true.
Proof. apply all_from_range, date_in_era_checked. Qed.

Lemma pad_checked_2 : all_from (pad_ok 2) (Z.to_nat 100) 0 = true.
Proof. vm_compute. reflexivity. Qed.

Lemma pad_checked_3 : all_from (pad_ok 3) (Z.to_nat 1000) 0 = true.
Proof. vm_compute. reflexivity. Qed.

Lemma pad_checked_4 : all_from (pad_ok 4) (Z.to_nat 10000) 0 = true.
Proof. vm_compute. reflexivity. Qed.

Lemma pad_shape w k n :
  all_from (pad_ok w) (Z.to_nat k) 0 = true ->
  0 <= n < k ->
  length (pad w n) = w /\ all_digits (pad w n) = true.
Proof.
  intros A H. pose proof (all_from_range _ _ _ A H) as B.
  unfold pad_ok in B. apply andb_true_iff in B as [B1 B2].
  apply Nat.eqb_eq in B1. now split.
Qed.

Lemma iso8601_fields Y M D h mi sec ms :
  length Y = 4%nat -> all_digits Y = true ->
  length M = 2%nat -> all_digits M = true ->
  length D = 2%nat -> all_digits D = true ->
  length h = 2%nat -> all_digits h = true ->
  length mi = 2%nat -> all_digits mi = true ->
  length sec = 2%nat -> all_digits sec = true ->
  length ms = 3%nat -> all_digits ms = true ->
  iso8601 (Y ++ "-" ++ M ++ "-" ++ D ++ "T" ++ h ++ ":" ++ mi ++ ":" ++ sec
             ++ "." ++ ms ++ "Z") = true.
Proof.
  intros LY HY LM HM LD HD Lh Hh Lmi Hmi Ls Hs Lms Hms.
  destruct Y as [|y1 [|y2 [|y3 [|y4 [|? ?]]]]]; try discriminate.
  destruct M as [|m1 [|m2 [|? ?]]]; try discriminate.
  destruct D as [|d1 [|d2 [|? ?]]]; try discriminate.
  destruct h as [|h1 [|h2 [|? ?]]]; try discriminate.
  destruct mi as [|i1 [|i2 [|? ?]]]; try discriminate.
  destruct sec as [|s1 [|s2 [|? ?]]]; try discriminate.
  destruct ms as [|t1 [|t2 [|t3 [|? ?]]]]; try discriminate.
  unfold iso8601. cbn [append length take drop Nat.eqb].
  cbn [all_digits] in *.
  rewrite !andb_true_r in *.
  repeat match goal with
         | H : _ && _ = true |- _ => apply andb_true_iff in H as [? ?]
         end.
  repeat match goal with
         | H : is_digit _ = true |- _ => rewrite H; clear H
         end.
  reflexivity.
Qed.

Lemma era_of_day days :
  0 <= days < 2932897 ->
  let z := days + 719468 in
  4 <= z / 146097 <= 24 /\ 0 <= z - z / 146097 * 146097 < 146097
  /\ (z / 146097 = 24 -> z - z / 146097 * 146097 <= 146036).
Proof.
  intros H z. subst z.
  pose proof (Z.div_mod (days + 719468) 146097 ltac:(lia)) as E.
  pose proof (Z.mod_pos_bound (days + 719468) 146097 ltac:(lia)) as B.
  repeat split; lia.
Qed.

(** Year, month and day of a day from 1970 to 9999. *)
Lemma civil_from_days_bounds days :
  0 <= days < 2932897 ->
  let '(y, m, d) := civil_from_days days in
  0 <= y <= 9999 /\ 1 <= m <= 12 /\ 1 <= d <= 31.
Proof.
  intros H. unfold civil_from_days.
  destruct (era_of_day days H) as (He & Hd & Hlast).
  set (era := (days + 719468) / 146097) in *.
  set (doe := days + 719468 - era * 146097) in *.
  pose proof (date_in_era_bounds doe Hd) as B. unfold in_era_ok in B.
  destruct (date_in_era doe) as [[y m] d].
  rewrite !andb_true_iff, orb_true_iff, !Z.leb_le, Z.ltb_lt in B.
  destruct B as ((((((B1 & B2) & B3) & B4) & B5) & B6) & B7).
  repeat split; lia.
Qed.

(** The timestamp of a time from 1970 to the end of the year 9999 has the
    shape YYYY-MM-DDTHH:mm:ss.sssZ. *)
Lemma toISOString_shape now :
  0 <= now < 253402300800000 -> iso8601 (toISOString now) = true.
Proof.
  intros H. unfold toISOString, msPerDay.
  assert (Hdays : 0 <= now / 86400000 < 2932897).
  { split; [apply Z.div_pos; lia | apply Z.div_lt_upper_bound; lia]. }
  pose proof (civil_from_days_bounds _ Hdays) as B.
  destruct (civil_from_days (now / 86400000)) as [[y m] d].
  destruct B as (By & Bm & Bd).
  pose proof (Z.mod_pos_bound now 86400000 ltac:(lia)) as Bms.
  set (ms := now mod 86400000) in *.
  unfold iso_year.
  replace ((0 <=? y) && (y <=? 9999)) with true
    by (symmetry; apply andb_true_iff; split; apply Z.leb_le; lia).
  assert (B1 : 0 <= ms / 3600000 < 100).
  { split; [apply Z.div_pos; lia | apply Z.div_lt_upper_bound; lia]. }
  pose proof (Z.mod_pos_bound (ms / 60000) 60 ltac:(lia)).
  pose proof (Z.mod_pos_bound (ms / 1000) 60 ltac:(lia)).
  pose proof (Z.mod_pos_bound ms 1000 ltac:(lia)).
  apply iso8601_fields;
    first [ apply (pad_shape 4 10000 _ pad_checked_4); lia
          | apply (pad_shape 2 100 _ pad_checked_2); lia
          | apply (pad_shape 3 1000 _ pad_checked_3); lia ].
Qed.

(** ** The payload of the page *)

Lemma qrValue_active st semester now c :
  course st = Some c -> is_Active (attr c "LinkStatus") = true ->
  JSON_stringify (token c (location st) semester now)
  = Some (qrValue st semester now).
Proof.
  intros Hc Ha. unfold qrValue. rewrite Hc, Ha.
  unfold JSON_stringify, token. now rewrite serialize_object.
Qed.

Lemma active_payload_nonempty st semester now c :
  course st = Some c -> is_Active (attr c "LinkStatus") = true ->
  qrValue st semester now <> EmptyString.
Proof.
  intros Hc Ha E. pose proof (qrValue_active st semester now c Hc Ha) as H.
  unfold JSON_stringify, token in H. rewrite serialize_object in H.
  rewrite E in H. discriminate.
Qed.

Lemma token_null_location c l semester now :
  ToBoolean (latitude l) = false \/ ToBoolean (longitude l) = false ->
  token c l semester now
  = VObj [ ("courseId", VStr (doc_id c));
           ("semester", VNum (parseInt semester));
           ("dateTime", VStr (toISOString now));
           ("location", VNull) ].
Proof.
  intros H. unfold token, js_and.
  destruct (ToBoolean (latitude l)) eqn:E1.
  - destruct H as [H|H]; [discriminate | now rewrite H].
  - now rewrite E1.
Qed.

Lemma token_location c l semester now :
  ToBoolean (latitude l) = true -> ToBoolean (longitude l) = true ->
  token c l semester now
  = VObj [ ("courseId", VStr (doc_id c));
           ("semester", VNum (parseInt semester));
           ("dateTime", VStr (toISOString now));
           ("location", VObj [ ("latitude", latitude l);
                               ("longitude", longitude l) ]) ].
Proof. intros H1 H2. unfold token, js_and. now rewrite H1, H2. Qed.

(** C1. For every course whose link-activation flag is not Active
    ([LinkStatus !== 'Active']), in every state of the page (loading,
    error or loaded), the generated payload is the empty string and the
    page shows no code. *)
Theorem inactive_link_has_no_token st semester now c :
  course st = Some c -> is_Active (attr c "LinkStatus") = false ->
  qrValue st semester now = EmptyString
  /\ shown_code (render st semester now) = None.
Proof.
  intros Hc Ha. split.
  - unfold qrValue. now rewrite Hc, Ha.
  - unfold render. destruct (loading st); [reflexivity|].
    destruct (truthy_error (error st)); [reflexivity|].
    rewrite Hc. cbn [shown_code]. now rewrite Ha.
Qed.

Lemma inactive_link_has_no_token_witness :
  qrValue (setCourse inactive_course example_page) "3" example_now = EmptyString
  /\ shown_code (render (setCourse inactive_course example_page) "3" example_now) = None.
Proof.
  apply (inactive_link_has_no_token _ "3" example_now inactive_course);
    reflexivity.
Defined.

(** C9. For every Active course, if the latitude or the longitude of the
    location state is falsy (0, null, undefined), the payload is not
    empty and decodes to an object with the four members courseId,
    semester, dateTime and location, whose location member is null. *)
Theorem falsy_coordinate_gives_null_location st semester now c :
  course st = Some c -> is_Active (attr c "LinkStatus") = true ->
  ToBoolean (latitude (location st)) = false
    \/ ToBoolean (longitude (location st)) = false ->
  qrValue st semester now <> EmptyString
  /\ exists j, decode (qrValue st semester now) = Some j
               /\ keys j = ["courseId"; "semester"; "dateTime"; "location"]
               /\ member "location" j = Some VNull.
Proof.
  intros Hc Ha Hl. split; [now apply (active_payload_nonempty _ _ _ c)|].
  pose proof (qrValue_active st semester now c Hc Ha) as Ht.
  rewrite (token_null_location _ _ _ _ Hl) in Ht.
  apply decode_stringify in Ht.
  - rewrite Ht. eexists. split; [reflexivity|].
    rewrite as_json_object. cbn [members_as_json as_json].
    destruct (is_finite (parseInt semester)); split; reflexivity.
  - rewrite wf_object. cbn [wf_members wf_value].
    now rewrite parseInt_wf.
Qed.

Lemma falsy_coordinate_gives_null_location_witness :
  qrValue zero_latitude_page "3" example_now <> EmptyString
  /\ exists j, decode (qrValue zero_latitude_page "3" example_now) = Some j
               /\ keys j = ["courseId"; "semester"; "dateTime"; "location"]
               /\ member "location" j = Some VNull.
Proof.
  apply (falsy_coordinate_gives_null_location _ "3" example_now example_course);
    [reflexivity | reflexivity | left; reflexivity].
Defined.

(** C2 fails as stated: for an Active course and a present location, with
    the route parameter [abc] as semester, the payload does not decode to
    an object with an integer semester. *)
Lemma payload_without_integer_semester :
  ~ decodes_to_full_token (qrValue example_page "abc" example_now)
      example_course example_location.
Proof.
  intros (n & iso & H & _). vm_compute in H. discriminate H.
Qed.

(** C2, amended. For every Active course, a location whose latitude and
    longitude are finite non-zero numbers, a semester parameter that
    parseInt reads as an integer of at most 15 digits, and a clock between
    1970 and the end of the year 9999, the payload decodes to an object
    with exactly the members courseId (the identifier of the course),
    semester (an integer), dateTime (an ISO-8601 instant) and location
    (the latitude and the longitude of the sample). *)
Theorem payload_decodes_to_token st semester now c lat lon :
  course st = Some c -> is_Active (attr c "LinkStatus") = true ->
  location st = {| latitude := VNum lat; longitude := VNum lon |} ->
  nonzero_finite lat = true -> nonzero_finite lon = true ->
  safe_integer (parseInt semester) = true ->
  0 <= now < 253402300800000 ->
  decode (qrValue st semester now)
  = Some (VObj [ ("courseId", VStr (doc_id c));
                 ("semester", VNum (unsigned_zero (parseInt semester)));
                 ("dateTime", VStr (toISOString now));
                 ("location", VObj [ ("latitude", VNum lat);
                                     ("longitude", VNum lon) ]) ])
  /\ decodes_to_full_token (qrValue st semester now) c (location st).
Proof.
  intros Hc Ha Hl Hlat Hlon Hs Hnow.
  pose proof (qrValue_active st semester now c Hc Ha) as Ht.
  assert (Tlat : ToBoolean (VNum lat) = true)
    by (destruct lat; try discriminate; reflexivity).
  assert (Tlon : ToBoolean (VNum lon) = true)
    by (destruct lon; try discriminate; reflexivity).
  rewrite Hl in *.
  rewrite (token_location c {| latitude := VNum lat; longitude := VNum lon |}
             semester now Tlat Tlon) in Ht.
  cbn [latitude longitude] in *.
  apply decode_stringify in Ht.
  - rewrite !as_json_object in Ht. cbn [members_as_json as_json] in Ht.
    assert (Hf : is_finite (parseInt semester) = true)
      by (destruct (parseInt semester); try discriminate; reflexivity).
    rewrite Hf in Ht.
    replace (is_finite lat) with true in Ht
      by (destruct lat; try discriminate; reflexivity).
    replace (is_finite lon) with true in Ht
      by (destruct lon; try discriminate; reflexivity).
    replace (unsigned_zero lat) with lat in Ht
      by (destruct lat; try discriminate; reflexivity).
    replace (unsigned_zero lon) with lon in Ht
      by (destruct lon; try discriminate; reflexivity).
    split; [exact Ht|].
    exists (unsigned_zero (parseInt semester)), (toISOString now).
    split; [exact Ht|]. split; [|now apply toISOString_shape].
    destruct (parseInt_integer semester) as [E|E];
      [rewrite E in Hs; discriminate|].
    destruct (parseInt semester); try discriminate; [reflexivity | exact E].
  - rewrite !wf_object. cbn [wf_members wf_value].
    rewrite parseInt_wf.
    replace (wf_number lat) with true
      by (destruct lat; try discriminate; symmetry; exact Hlat).
    replace (wf_number lon) with true
      by (destruct lon; try discriminate; symmetry; exact Hlon).
    reflexivity.
Qed.

Lemma payload_decodes_to_token_witness :
  decode (qrValue example_page "3" example_now)
  = Some (VObj [ ("courseId", VStr (doc_id example_course));
                 ("semester", VNum (Dec false "3" 1));
                 ("dateTime", VStr "2023-11-14T22:13:20.000Z");
                 ("location", VObj [ ("latitude", VNum (Dec false "261445" 2));
                                     ("longitude", VNum (Dec false "917362" 2)) ]) ])
  /\ decodes_to_full_token (qrValue example_page "3" example_now)
       example_course (location example_page).
Proof.
  apply (payload_decodes_to_token example_page "3" example_now example_course
           (Dec false "261445" 2) (Dec false "917362" 2));
    try reflexivity.
  unfold example_now. lia.
Defined.

Lemma some_eq {A : Type} (a b : A) : Some a = Some b -> a = b.
Proof. congruence. Qed.

(** C10. For every Active course, if parseInt of the semester parameter
    is NaN, the payload is still generated and is not empty, its semester
    member is serialized as [null], and a page that has loaded without
    error shows the link view with that payload: no error state is
    entered. *)
Theorem unparsable_semester_serializes_null st semester now c :
  course st = Some c -> is_Active (attr c "LinkStatus") = true ->
  parseInt semester = NaN ->
  loading st = false -> error st = None ->
  qrValue st semester now <> EmptyString
  /\ (exists rest,
        qrValue st semester now
        = "{" ++ member_text "courseId" (QuoteJSONString (doc_id c)) ++ ","
              ++ member_text "semester" "null" ++ "," ++ rest)
  /\ render st semester now
     = LinkView (attr c "Programme") semester (Some (qrValue st semester now))
                false "Active" (currentTime st).
Proof.
  intros Hc Ha Hn Hload Herr.
  split; [now apply (active_payload_nonempty _ _ _ c)|]. split.
  - pose proof (qrValue_active st semester now c Hc Ha) as Ht.
    unfold JSON_stringify, token in Ht. rewrite serialize_object in Ht.
    apply some_eq in Ht. rewrite <- Ht.
    cbn [serialize_members]. rewrite Hn.
    cbn [SerializeJSONProperty is_finite].
    match goal with
    | |- context [SerializeJSONProperty ?loc] =>
        destruct (SerializeJSONProperty loc) as [ltext|]
    end.
    + exists (member_text "dateTime" (QuoteJSONString (toISOString now)) ++ ","
              ++ member_text "location" ltext ++ "}").
      unfold member_text. rewrite !join_cons, join_single.
      now rewrite !app_string_assoc.
    + exists (member_text "dateTime" (QuoteJSONString (toISOString now)) ++ "}").
      unfold member_text. rewrite !join_cons, join_single.
      now rewrite !app_string_assoc.
  - unfold render. rewrite Hload, Herr, Hc, Ha. reflexivity.
Qed.

Lemma unparsable_semester_serializes_null_witness :
  qrValue example_page "third" example_now <> EmptyString
  /\ (exists rest,
        qrValue example_page "third" example_now
        = "{" ++ member_text "courseId" (QuoteJSONString (doc_id example_course)) ++ ","
              ++ member_text "semester" "null" ++ "," ++ rest)
  /\ render example_page "third" example_now
     = LinkView (attr example_course "Programme") "third"
                (Some (qrValue example_page "third" example_now))
                false "Active" (currentTime example_page).
Proof.
  apply (unparsable_semester_serializes_null example_page "third" example_now
           example_course); reflexivity.
Defined.

(** ** The latest sample *)

Lemma in_insert_desc d l x : In x (insert_desc d l) <-> x = d \/ In x l.
Proof.
  induction l as [|y l IH]; simpl.
  - intuition.
  - destruct (doc_createdAt y <? doc_createdAt d); simpl; [intuition|].
    rewrite IH. intuition.
Qed.

Lemma in_orderDesc l x : In x (fold_right insert_desc [] l) <-> In x l.
Proof.
  induction l as [|y l IH]; simpl; [tauto|].
  rewrite in_insert_desc, IH. intuition.
Qed.

Lemma newest_first_insert d l : newest_first l -> newest_first (insert_desc d l).
Proof.
  destruct l as [|x l]; simpl.
  - intros _. constructor; [lia | constructor].
  - intros H. destruct (Z.ltb_spec (doc_createdAt x) (doc_createdAt d)) as [Hlt|Hge].
    + simpl. constructor; [lia|].
      eapply Forall_impl; [|exact H]. simpl. intros; lia.
    + simpl. apply Forall_forall. intros y [<-|Hy]; [lia|].
      apply in_insert_desc in Hy as [->|Hy]; [lia|].
      rewrite Forall_forall in H. apply H. now right.
Qed.

Lemma newest_first_orderDesc l : newest_first (fold_right insert_desc [] l).
Proof.
  induction l as [|x l IH]; simpl; [exact I | now apply newest_first_insert].
Qed.

(** C5. fetchLatestLocation (order by creation time, descending, limit
    1) returns a sample of the collection whose creation time is the
    greatest of all, and returns none only when the collection is
    empty. *)
Theorem fetchLatestLocation_newest collection :
  match fetchLatestLocation collection with
  | None => collection = []
  | Some d =>
      In d collection
      /\ Forall (fun d' => doc_createdAt d' <= doc_createdAt d) collection
  end.
Proof.
  unfold fetchLatestLocation, listDocuments. cbn [fold_left apply_query].
  pose proof (newest_first_orderDesc collection) as Hn.
  pose proof (in_orderDesc collection) as Hin.
  destruct (fold_right insert_desc [] collection) as [|d sorted]; cbn [firstn].
  - destruct collection as [|x l]; [reflexivity|].
    exfalso. apply (Hin x). now left.
  - split.
    + apply Hin. now left.
    + apply Forall_forall. intros y Hy. apply Hin in Hy.
      cbn [newest_first] in Hn. rewrite Forall_forall in Hn. now apply Hn.
Qed.

(** ** Sessions: the error state *)

Section SessionFacts.

Variable env : environment.
Variable programme : string.

Lemma run_app w t1 t2 : run env programme w (t1 ++ t2) = run env programme (run env programme w t1) t2.
Proof. apply fold_left_app. Qed.

Lemma run_cons w e t : run env programme w (e :: t) = run env programme (step env programme w e) t.
Proof. reflexivity. Qed.

(** *** The error and the end of loading are kept *)

Lemma call_keeps h m w :
  error (ui (call env h m w)) = error (ui w)
  /\ loading (ui (call env h m w)) = loading (ui w).
Proof.
  destruct h as [id|]; cbn [call].
  - destruct (includes _ _); split; reflexivity.
  - destruct (includes _ _); split; reflexivity.
Qed.

Lemma deliver_keeps m w :
  error (ui (deliver env m w)) = error (ui w)
  /\ loading (ui (deliver env m w)) = loading (ui w).
Proof.
  unfold deliver.
  generalize (receivers m (subscriptions w)). intros l. revert w.
  induction l as [|s l IH]; intros w; cbn [fold_left]; [split; reflexivity|].
  destruct (IH (call env (sub_handler s) m w)) as [E1 E2].
  destruct (call_keeps (sub_handler s) m w) as [E3 E4].
  split; congruence.
Qed.

Lemma step_keeps w e :
  (in_error (ui w) -> in_error (ui (step env programme w e)))
  /\ (pc w = Finished -> loading (ui w) = false ->
      pc (step env programme w e) = Finished /\ loading (ui (step env programme w e)) = false).
Proof.
  destruct e as [r|r|m|i|i|d|clock|]; cbn [step].
  - destruct (pc w) eqn:Epc; try (split; [tauto | intros; try discriminate; tauto]).
    split; [|discriminate]. intros He.
    unfold after_courses, in_error.
    destruct r as [courses|]; [|right; reflexivity].
    destruct (decodeURIComponent env programme) as [decoded|]; [|right; reflexivity].
    destruct (find_course env _ courses) as [[found|]|];
      [exact He | left; reflexivity | right; reflexivity].
  - destruct (pc w) eqn:Epc; try (split; [tauto | intros; try discriminate; tauto]).
    split; [|discriminate]. intros He.
    unfold after_location, in_error.
    destruct r as [[d|]|]; [exact He | exact He | right; reflexivity].
  - destruct (deliver_keeps m w) as [E1 E2]. unfold in_error.
    split; [rewrite E1; tauto|]. intros Hpc Hl. rewrite E2. split; [|exact Hl].
    clear E1 E2 Hl. unfold deliver.
    generalize (receivers m (subscriptions w)). intros l. revert w Hpc.
    induction l as [|s l IH]; intros w Hpc; cbn [fold_left]; [exact Hpc|].
    apply IH.
    destruct (sub_handler s); cbn [call];
      destruct (includes _ _); exact Hpc.
  - unfold requery_settled. destruct (nth_error (requeries w) i) as [[d|]|];
      split; cbn; tauto.
  - split; cbn; tauto.
  - split; cbn; tauto.
  - destruct (timeInterval w); split; cbn; tauto.
  - split; cbn; tauto.
Qed.

Lemma run_keeps_error t : forall w, in_error (ui w) -> in_error (ui (run env programme w t)).
Proof.
  induction t as [|e t IH]; intros w H; [exact H|].
  rewrite run_cons. apply IH. now apply step_keeps.
Qed.

Lemma run_keeps_loaded t : forall w,
  pc w = Finished -> loading (ui w) = false ->
  pc (run env programme w t) = Finished /\ loading (ui (run env programme w t)) = false.
Proof.
  induction t as [|e t IH]; intros w H1 H2; [now split|].
  rewrite run_cons. destruct (step_keeps w e) as [_ K].
  destruct (K H1 H2). now apply IH.
Qed.

Lemma error_view st semester now :
  in_error st -> loading st = false ->
  exists msg, error st = Some msg /\ render st semester now = ErrorView msg.
Proof.
  intros [E|E] Hl; unfold render; rewrite Hl, E; eexists; split; reflexivity.
Qed.

Lemma error_hides_code st semester now :
  in_error st -> shown_code (render st semester now) = None.
Proof.
  intros [E|E]; unfold render; destruct (loading st); try reflexivity;
    rewrite E; reflexivity.
Qed.

(** *** No course matches *)

Lemma find_course_no_match decoded courses :
  (forall c p, In c courses -> attr c "Programme" = VStr p ->
               toLowerCase env p <> decoded) ->
  find_course env decoded courses = Some None \/ find_course env decoded courses = None.
Proof.
  induction courses as [|c cs IH]; intros H; cbn [find_course];
    [now left|].
  destruct (attr c "Programme") as [| | | |p|] eqn:E; try (now right).
  destruct (String.eqb_spec (toLowerCase env p) decoded) as [Heq|Hne].
  - exfalso. apply (H c p); [now left | exact E | exact Heq].
  - apply IH. intros c' p' Hin. apply H. now right.
Qed.

Lemma settles_location w r :
  in_error (ui w) -> (pc w = AwaitLocation \/ (pc w = Finished /\ loading (ui w) = false)) ->
  let w' := step env programme w (LocationSettled r) in
  in_error (ui w') /\ pc w' = Finished /\ loading (ui w') = false.
Proof.
  intros He Hpc w'. subst w'. split; [now apply step_keeps|].
  cbn [step]. destruct Hpc as [Hpc|[Hpc Hl]]; rewrite Hpc.
  - unfold after_location. destruct r as [[d|]|]; cbn; tauto.
  - tauto.
Qed.

(** C6. If no course of the fetched list has a Programme that equals the
    decoded route parameter up to case, then once the two fetches of the
    initial load have settled the page shows the Error card, whatever
    happens later, and from the answer to the course fetch on it never
    shows a code. *)
Theorem unknown_programme_ends_in_error courses clock locs :
  (forall decoded c p,
      decodeURIComponent env programme = Some decoded ->
      In c courses -> attr c "Programme" = VStr p ->
      toLowerCase env p <> toLowerCase env decoded) ->
  forall r later semester now,
    (exists msg,
        render (ui (run env programme (mount clock locs)
                        (CoursesSettled (Fulfilled courses)
                           :: LocationSettled r :: later)))
               semester now = ErrorView msg)
    /\ shown_code
         (render (ui (run env programme (mount clock locs)
                          (CoursesSettled (Fulfilled courses) :: later)))
                 semester now) = None.
Proof.
  intros Hno r later semester now.
  set (w1 := step env programme (mount clock locs) (CoursesSettled (Fulfilled courses))).
  assert (H1 : in_error (ui w1)
               /\ (pc w1 = AwaitLocation
                   \/ (pc w1 = Finished /\ loading (ui w1) = false))).
  { subst w1. cbn [step mount pc]. unfold after_courses, in_error.
    destruct (decodeURIComponent env programme) as [decoded|] eqn:Ed;
      [|cbn; tauto].
    destruct (find_course_no_match (toLowerCase env decoded) courses) as [E|E];
      [ intros c p; apply (Hno decoded c p eq_refl) | | ]; rewrite E; cbn; tauto. }
  destruct H1 as [He Hpc]. split.
  - rewrite !run_cons. fold w1.
    destruct (settles_location w1 r He Hpc) as (He2 & Hpc2 & Hl2).
    destruct (run_keeps_loaded later _ Hpc2 Hl2) as [_ Hl3].
    destruct (error_view _ semester now (run_keeps_error later _ He2) Hl3)
      as (msg & _ & Hv).
    now exists msg.
  - rewrite run_cons. fold w1. apply error_hides_code. now apply run_keeps_error.
Qed.

Lemma finished_keeps_error w e :
  pc w = Finished -> error (ui (step env programme w e)) = error (ui w).
Proof.
  intros Hpc. destruct e as [r|r|m|i|i|d|clock|]; cbn [step];
    rewrite ?Hpc; try reflexivity.
  - apply deliver_keeps.
  - unfold requery_settled.
    destruct (nth_error (requeries w) i) as [[d|]|]; reflexivity.
  - destruct (timeInterval w); reflexivity.
Qed.

Lemma run_finished_keeps_error t : forall w,
  pc w = Finished -> loading (ui w) = false ->
  error (ui (run env programme w t)) = error (ui w).
Proof.
  induction t as [|e t IH]; intros w Hpc Hl; [reflexivity|].
  rewrite run_cons. destruct (step_keeps w e) as [_ K].
  destruct (K Hpc Hl) as [Hpc' Hl'].
  rewrite (IH _ Hpc' Hl'). now apply finished_keeps_error.
Qed.

Lemma error_view_kept w later semester now msg :
  pc w = Finished -> loading (ui w) = false ->
  error (ui w) = Some msg -> truthy_error (Some msg) = true ->
  render (ui (run env programme w later)) semester now = ErrorView msg.
Proof.
  intros Hpc Hl He Ht. unfold render.
  destruct (run_keeps_loaded later w Hpc Hl) as [_ Hl'].
  now rewrite Hl', (run_finished_keeps_error later w Hpc Hl), He, Ht.
Qed.

Lemma failed_view w later semester now :
  pc w = Finished -> loading (ui w) = false ->
  error (ui w) = Some failure_message ->
  render (ui (run env programme w later)) semester now = ErrorView failure_message.
Proof. intros Hpc Hl He. now apply error_view_kept. Qed.

(** C7, amended. A failure of the course fetch, or of the location fetch,
    during the initial load ends in the Error card with the message
    "Failed to load course data. Please try again later.", whatever
    happens later; a course that is not found, with the location
    fetched, ends in the same card with the message "The requested
    course could not be found."; the two messages differ. *)
Theorem fetch_failure_ends_in_error clock locs courses latest later semester now :
  render (ui (run env programme (mount clock locs)
                  (CoursesSettled Rejected :: later)))
         semester now = ErrorView failure_message
  /\ render (ui (run env programme (mount clock locs)
                     (CoursesSettled (Fulfilled courses)
                        :: LocationSettled Rejected :: later)))
            semester now = ErrorView failure_message
  /\ (forall decoded,
        decodeURIComponent env programme = Some decoded ->
        find_course env (toLowerCase env decoded) courses = Some None ->
        render (ui (run env programme (mount clock locs)
                        (CoursesSettled (Fulfilled courses)
                           :: LocationSettled (Fulfilled latest) :: later)))
               semester now = ErrorView not_found_message)
  /\ not_found_message <> failure_message.
Proof.
  split; [|split; [|split]].
  - rewrite run_cons. apply failed_view; reflexivity.
  - rewrite !run_cons.
    set (w1 := step env programme (mount clock locs)
                    (CoursesSettled (Fulfilled courses))).
    assert (H : pc w1 = AwaitLocation
                \/ (pc w1 = Finished /\ loading (ui w1) = false
                    /\ error (ui w1) = Some failure_message)).
    { subst w1. cbn [step mount pc]. unfold after_courses.
      destruct (decodeURIComponent env programme) as [decoded|]; [|cbn; tauto].
      destruct (find_course env _ courses) as [[found|]|]; cbn; tauto. }
    destruct H as [H|(H1 & H2 & H3)]; apply failed_view; cbn [step];
      rewrite ?H, ?H1; try assumption; reflexivity.
  - intros decoded Hd Hf. rewrite !run_cons.
    assert (E : step env programme (mount clock locs)
                     (CoursesSettled (Fulfilled courses))
                = with_pc AwaitLocation
                    (with_ui (setError not_found_message) (mount clock locs))).
    { cbn [step mount pc]. unfold after_courses. now rewrite Hd, Hf. }
    rewrite E. apply error_view_kept; destruct latest as [d|]; reflexivity.
  - discriminate.
Qed.

End SessionFacts.

(** C7 fails as stated: the page after a failed fetch and the page after
    a course that was not found are not the same view, the messages
    differ. *)
Lemma failure_and_not_found_differ :
  render (ui (run example_env "Physics" (mount "10:15 am" [])
                  [CoursesSettled Rejected]))
         "3" example_now
  <> render (ui (run example_env "Physics" (mount "10:15 am" [])
                     [CoursesSettled (Fulfilled [example_course]);
                      LocationSettled (Fulfilled None)]))
            "3" example_now.
Proof. vm_compute. discriminate. Qed.

Lemma fetch_failure_ends_in_error_witness :
  render (ui (run example_env "Physics" (mount "10:15 am" [])
                  [CoursesSettled Rejected]))
         "3" example_now = ErrorView failure_message
  /\ render (ui (run example_env "Physics" (mount "10:15 am" [])
                     [CoursesSettled (Fulfilled [example_course]);
                      LocationSettled (Fulfilled None)]))
            "3" example_now = ErrorView not_found_message.
Proof.
  destruct (fetch_failure_ends_in_error example_env "Physics" "10:15 am" []
              [example_course] None [] "3" example_now) as (A & _ & C & _).
  split; [exact A | apply (C "Physics"); reflexivity].
Defined.

Lemma unknown_programme_ends_in_error_witness :
  (exists msg,
      render (ui (run example_env "Physics" (mount "10:15 am" [])
                      [CoursesSettled (Fulfilled [example_course]);
                       LocationSettled (Fulfilled None)]))
             "3" example_now = ErrorView msg)
  /\ shown_code
       (render (ui (run example_env "Physics" (mount "10:15 am" [])
                        [CoursesSettled (Fulfilled [example_course])]))
               "3" example_now) = None.
Proof.
  apply (unknown_programme_ends_in_error example_env "Physics"
           [example_course] "10:15 am" [] ).
  intros decoded c p Hd [<-|[]] Hp.
  injection Hd as <-. injection Hp as <-. vm_compute. discriminate.
Defined.

(** ** Sessions: bursts of publications *)

Local Open Scope list_scope.

Section Bursts.

Variable env : environment.
Variable programme : string.

Lemma call_effect m h w :
  includes (msg_events m) (location_create_event env) = true ->
  store (call env h m w) = store w
  /\ subscriptions (call env h m w) = subscriptions w
  /\ location (ui (call env h m w)) = location (ui w)
  /\ requeries (call env h m w)
     = requeries w
         ++ (if is_onLocation h then [fetchLatestLocation (store w)] else []).
Proof.
  intros Hev. destruct h as [id|]; cbn [call is_onLocation].
  - destruct (includes (msg_events m) (course_update_event env id));
      cbn; rewrite app_nil_r; repeat split; reflexivity.
  - rewrite Hev. cbn. repeat split; reflexivity.
Qed.

Lemma calls_effect m l :
  includes (msg_events m) (location_create_event env) = true ->
  forall w,
    let w' := fold_left (fun w' s => call env (sub_handler s) m w') l w in
    store w' = store w /\ subscriptions w' = subscriptions w
    /\ location (ui w') = location (ui w)
    /\ requeries w'
       = requeries w
           ++ repeat (fetchLatestLocation (store w))
                     (List.length (filter (fun s => is_onLocation (sub_handler s)) l)).
Proof.
  intros Hev. induction l as [|s l IH]; intros w; cbn [fold_left].
  - cbn. rewrite app_nil_r. repeat split; reflexivity.
  - destruct (IH (call env (sub_handler s) m w)) as (E1 & E2 & E3 & E4).
    destruct (call_effect m (sub_handler s) w Hev) as (C1 & C2 & C3 & C4).
    cbn zeta in *. rewrite E1, E2, E3, E4, C1, C2, C3, C4. cbn [filter].
    repeat split; try reflexivity.
    destruct (is_onLocation (sub_handler s)); cbn [List.length repeat].
    + rewrite <- app_assoc. reflexivity.
    + now rewrite app_nil_r.
Qed.

Lemma deliver_announced m w :
  one_listener env w -> announces_location env m = true ->
  store (deliver env m w) = store w
  /\ subscriptions (deliver env m w) = subscriptions w
  /\ location (ui (deliver env m w)) = location (ui w)
  /\ requeries (deliver env m w)
     = requeries w ++ [fetchLatestLocation (store w)].
Proof.
  intros H1 Ha. pose proof (H1 m Ha) as Hn.
  unfold announces_location in Ha. apply andb_true_iff in Ha as [_ Hev].
  unfold location_listeners in Hn.
  destruct (calls_effect m (receivers m (subscriptions w)) Hev w)
    as (E1 & E2 & E3 & E4).
  unfold deliver. rewrite E1, E2, E3, E4, Hn. auto.
Qed.

Lemma run_burst burst : forall w,
  one_listener env w ->
  Forall (fun dm => announces_location env (snd dm) = true) burst ->
  let w' := run env programme w (burst_trace burst) in
  one_listener env w'
  /\ store w' = store w ++ map fst burst
  /\ location (ui w') = location (ui w)
  /\ exists sent,
       requeries w' = requeries w ++ sent
       /\ List.length sent = List.length burst
       /\ (burst <> [] -> last sent None = fetchLatestLocation (store w')).
Proof.
  induction burst as [|[d m] burst IH]; intros w H1 Hall.
  - cbn. rewrite app_nil_r. repeat split; auto.
    exists []. rewrite app_nil_r. repeat split; auto. congruence.
  - inversion Hall as [|? ? Hm Hrest]; subst. cbn [snd] in Hm.
    cbn [burst_trace flat_map fst snd app]. rewrite !run_cons.
    cbn [step].
    set (wp := with_store (store w ++ [d]) w).
    assert (H1p : one_listener env wp) by exact H1.
    destruct (deliver_announced m wp H1p Hm) as (E1 & E2 & E3 & E4).
    set (wd := deliver env m wp) in *.
    assert (H1d : one_listener env wd) by (unfold one_listener; now rewrite E2).
    destruct (IH wd H1d Hrest) as (K1 & K2 & K3 & sent & K4 & K5 & K6).
    fold (burst_trace burst).
    split; [exact K1|]. split.
    { rewrite K2, E1. cbn [map fst]. subst wp. cbn [store with_store].
      now rewrite <- app_assoc. }
    split; [now rewrite K3, E3|].
    exists (fetchLatestLocation (store wp) :: sent).
    split; [rewrite K4, E4; now rewrite <- app_assoc|].
    split; [cbn; now rewrite K5|].
    intros _. destruct burst as [|dm burst'].
    + destruct sent; [|discriminate]. cbn [last].
      change (run env programme wd (burst_trace [])) with wd.
      now rewrite E1.
    + rewrite <- K6 by discriminate.
      destruct sent; [discriminate | reflexivity].
Qed.

Lemma run_settle sent : forall w,
  requeries w = sent ->
  let w' := run env programme w (settle_in_order (List.length sent)) in
  requeries w' = []
  /\ store w' = store w
  /\ forall d, last sent None = Some d -> location (ui w') = location_of d.
Proof.
  induction sent as [|r sent IH]; intros w Hr.
  - cbn. repeat split; auto. discriminate.
  - cbn [List.length settle_in_order repeat]. rewrite run_cons.
    cbn [step]. unfold requery_settled. rewrite Hr. cbn [nth_error remove_nth].
    set (w1 := match r with
               | Some d => with_ui (setLocation (location_of d))
                             (with_requeries sent w)
               | None => with_requeries sent w
               end).
    assert (Hr1 : requeries w1 = sent) by (subst w1; destruct r; reflexivity).
    assert (Hs1 : store w1 = store w) by (subst w1; destruct r; reflexivity).
    destruct (IH w1 Hr1) as (K1 & K2 & K3).
    fold (settle_in_order (List.length sent)).
    split; [exact K1|]. split; [now rewrite K2|].
    intros d Hd. destruct sent as [|r' sent'].
    + cbn in Hd. subst r. reflexivity.
    + apply K3. exact Hd.
Qed.

(** Once both fetches of initializeData have succeeded, one callback
    listens to the location stream and no re-query is in flight. *)
Lemma initialised_listens clock locs courses decoded found l0 :
  decodeURIComponent env programme = Some decoded ->
  find_course env (toLowerCase env decoded) courses = Some found ->
  let w := run env programme (mount clock locs)
             [CoursesSettled (Fulfilled courses);
              LocationSettled (Fulfilled l0)] in
  one_listener env w /\ requeries w = [] /\ store w = locs.
Proof.
  intros Hd Hf w.
  assert (Hs : subscriptions w
               = match found with
                 | Some c =>
                     [ {| sub_id := 0; sub_channel := course_channel env (doc_id c);
                          sub_handler := onCourse (doc_id c) |};
                       {| sub_id := 1; sub_channel := location_channel env;
                          sub_handler := onLocation |} ]
                 | None =>
                     [ {| sub_id := 0; sub_channel := location_channel env;
                          sub_handler := onLocation |} ]
                 end
               /\ requeries w = [] /\ store w = locs).
  { subst w. cbn [run fold_left step mount pc]. unfold after_courses.
    rewrite Hd, Hf. destruct found as [c|], l0 as [d|]; repeat split; reflexivity. }
  destruct Hs as (Hs & Hr & Hst). split; [|now split].
  intros m Ha. unfold announces_location in Ha.
  apply andb_true_iff in Ha as [Hc _].
  unfold location_listeners, receivers. rewrite Hs.
  destruct found as [c|]; cbn [filter sub_channel sub_handler is_onLocation];
    rewrite Hc; [destruct (includes (msg_channels m) (course_channel env (doc_id c)))|];
    reflexivity.
Qed.

(** What the re-query achieves when nothing goes wrong.  In a session
    whose initial load has succeeded, after a burst of publications,
    each announced by a creation event with any payload, and once the
    re-queries have settled in the order in which they were sent, the
    location of the page is that of the most recently created sample of
    the store, not of an event payload; and when both coordinates of
    that sample are truthy, the location member of the token is that
    pair. *)
Theorem burst_last_wins clock locs courses decoded found l0 burst newest :
  decodeURIComponent env programme = Some decoded ->
  find_course env (toLowerCase env decoded) courses = Some found ->
  burst <> [] ->
  Forall (fun dm => announces_location env (snd dm) = true) burst ->
  fetchLatestLocation (locs ++ map fst burst) = Some newest ->
  let w := run env programme (mount clock locs)
             (CoursesSettled (Fulfilled courses)
                :: LocationSettled (Fulfilled l0)
                :: burst_trace burst ++ settle_in_order (List.length burst)) in
  newest_sample_shown w
  /\ location (ui w) = location_of newest
  /\ (ToBoolean (attr newest "Latitude") = true ->
      ToBoolean (attr newest "Longitude") = true ->
      forall c semester now,
        member "location" (token c (location (ui w)) semester now)
        = Some (VObj [ ("latitude", attr newest "Latitude");
                       ("longitude", attr newest "Longitude") ])).
Proof.
  intros Hd Hf Hne Hall Hnew w.
  destruct (initialised_listens clock locs courses decoded found l0 Hd Hf)
    as (H1 & H2 & H3).
  set (w0 := run env programme (mount clock locs)
               [CoursesSettled (Fulfilled courses);
                LocationSettled (Fulfilled l0)]) in *.
  assert (Ew : w = run env programme
                     (run env programme w0 (burst_trace burst))
                     (settle_in_order (List.length burst))).
  { subst w w0. rewrite <- run_app. reflexivity. }
  destruct (run_burst burst w0 H1 Hall) as (K1 & K2 & K3 & sent & K4 & K5 & K6).
  set (w1 := run env programme w0 (burst_trace burst)) in *.
  rewrite H2 in K4. cbn [app] in K4. rewrite <- K5 in Ew.
  destruct (run_settle sent w1 K4) as (S1 & S2 & S3).
  rewrite <- Ew in S1, S2, S3.
  assert (Hstore : store w = locs ++ map fst burst) by (now rewrite S2, K2, H3).
  assert (Hloc : location (ui w) = location_of newest).
  { apply S3. rewrite (K6 Hne), K2, H3. exact Hnew. }
  split; [|split].
  - split; [exact S1|]. intros d Hd'. rewrite Hstore, Hnew in Hd'.
    injection Hd' as <-. exact Hloc.
  - exact Hloc.
  - intros Hlat Hlon c semester now. rewrite Hloc. unfold token, js_and.
    cbn [location_of latitude longitude]. rewrite Hlat, Hlon. reflexivity.
Qed.

End Bursts.

Lemma stale_at (w : world) (shown latest : document) :
  requeries w = [] ->
  fetchLatestLocation (store w) = Some latest ->
  location (ui w) = location_of shown ->
  location_of shown <> location_of latest ->
  ToBoolean (attr shown "Latitude") = true ->
  ToBoolean (attr shown "Longitude") = true ->
  shows_stale_sample w shown latest.
Proof.
  intros H1 H2 H3 H4 H5 H6. repeat split; try assumption.
  intros c semester now. rewrite H3. unfold token, js_and.
  cbn [location_of latitude longitude]. now rewrite H5, H6.
Qed.

(** C3, at the failing input.  Two samples are published, each is
    announced, and the answer to the first re-query arrives after the
    answer to the second: every re-query has been answered, the newest
    sample of the store is the second one, and the page and the location
    member of its token keep the first one.  The same stale state is
    reached when the last re-query is rejected (the promise has no
    [catch]), and when a sample is published between the answer to the
    first fetch and the subscription that is made after it. *)
Theorem late_answer_keeps_the_older_sample :
  shows_stale_sample
    (run example_env "B.Sc%20IT" (mount "10:15 am" []) out_of_order_trace)
    older_sample newer_sample
  /\ ~ newest_sample_shown
         (run example_env "B.Sc%20IT" (mount "10:15 am" []) out_of_order_trace)
  /\ shows_stale_sample
       (run example_env "B.Sc%20IT" (mount "10:15 am" []) rejected_requery_trace)
       older_sample newer_sample
  /\ shows_stale_sample
       (run example_env "B.Sc%20IT" (mount "10:15 am" [older_sample])
            published_during_load)
       older_sample newer_sample.
Proof.
  split; [|split; [|split]].
  - apply stale_at; try reflexivity. discriminate.
  - intros [_ H]. specialize (H newer_sample eq_refl).
    vm_compute in H. discriminate H.
  - apply stale_at; try reflexivity. discriminate.
  - apply stale_at; try reflexivity. discriminate.
Qed.

Lemma burst_last_wins_witness :
  newest_sample_shown in_order_run
  /\ location (ui in_order_run) = location_of newer_sample
  /\ (ToBoolean (attr newer_sample "Latitude") = true ->
      ToBoolean (attr newer_sample "Longitude") = true ->
      forall c semester now,
        member "location" (token c (location (ui in_order_run)) semester now)
        = Some (VObj [ ("latitude", attr newer_sample "Latitude");
                       ("longitude", attr newer_sample "Longitude") ])).
Proof.
  apply (burst_last_wins example_env "B.Sc%20IT" "10:15 am" [] [example_course]
           "B.Sc IT" (Some example_course) None
           [ (older_sample, location_created example_env older_sample);
             (newer_sample, location_created example_env newer_sample) ]
           newer_sample);
    try reflexivity; try discriminate.
  repeat constructor.
Defined.

(** ** Sessions: teardown *)

Section Teardown.

Variable env : environment.
Variable programme : string.

Lemma fold_call_keeps m l : forall w,
  let w' := fold_left (fun w' s => call env (sub_handler s) m w') l w in
  pc w' = pc w /\ subscriptions w' = subscriptions w
  /\ unsubscribeCourse w' = unsubscribeCourse w
  /\ unsubscribeLocation w' = unsubscribeLocation w
  /\ timeInterval w' = timeInterval w.
Proof.
  induction l as [|s l IH]; intros w; cbn [fold_left]; [repeat split; reflexivity|].
  destruct (IH (call env (sub_handler s) m w)) as (E1 & E2 & E3 & E4 & E5).
  cbn zeta in *. rewrite E1, E2, E3, E4, E5.
  destruct (sub_handler s) as [id|]; cbn [call].
  - destruct (includes (msg_events m) (course_update_event env id));
      repeat split; reflexivity.
  - destruct (includes (msg_events m) (location_create_event env));
      repeat split; reflexivity.
Qed.

Lemma in_filter_sub {A} (f : A -> bool) l x : In x (filter f l) -> In x l.
Proof. intros H. now apply filter_In in H. Qed.

Lemma failed_owned w : owned w -> owned (failed w).
Proof.
  intros (_ & _ & O3). unfold owned, failed. cbn.
  repeat split; try discriminate. exact O3.
Qed.

Lemma after_courses_owned r w :
  pc w = AwaitCourses -> owned w -> owned (after_courses env programme r w).
Proof.
  intros Hpc O. pose proof O as (O1 & _ & _). specialize (O1 Hpc).
  unfold after_courses.
  destruct r as [courses|]; [|now apply failed_owned].
  destruct (decodeURIComponent env programme) as [decoded|];
    [|now apply failed_owned].
  destruct (find_course env (toLowerCase env decoded) courses) as [[found|]|];
    [ | | now apply failed_owned].
  - unfold owned. cbn. rewrite O1. cbn.
    repeat split; try discriminate.
    + intros _ x [<-|[]]. reflexivity.
    + intros x [<-|[]]. now left.
  - unfold owned. cbn. rewrite O1.
    repeat split; try discriminate; intros; contradiction.
Qed.

Lemma after_location_owned r w :
  pc w = AwaitLocation -> owned w -> owned (after_location env r w).
Proof.
  intros Hpc O. pose proof O as (_ & O2 & _). specialize (O2 Hpc).
  unfold after_location.
  destruct r as [latest|]; [|now apply failed_owned].
  assert (K : forall w1, subscriptions w1 = subscriptions w ->
                         unsubscribeCourse w1 = unsubscribeCourse w ->
    owned (let '(handle, w2) := subscribe (location_channel env) onLocation w1 in
           {| ui := setLoading false (ui w2); pc := Finished;
              unsubscribeCourse := unsubscribeCourse w2;
              unsubscribeLocation := Some handle;
              timeInterval := timeInterval w2; subscriptions := subscriptions w2;
              next_sub := next_sub w2; requeries := requeries w2;
              store := store w2 |})).
  { intros w1 E1 E2. unfold owned. cbn. rewrite E1, E2.
    repeat split; try discriminate.
    intros x Hx. apply in_app_or in Hx as [Hx|[<-|[]]];
      [left; now apply O2 | now right]. }
  destruct latest as [d|]; apply K; reflexivity.
Qed.

Lemma cleanup_subset w x :
  In x (subscriptions (cleanup w)) -> In x (subscriptions w).
Proof.
  cbn [cleanup subscriptions]. intros Hx.
  destruct (unsubscribeLocation w), (unsubscribeCourse w); cbn [unsubscribe] in Hx;
    repeat (apply in_filter_sub in Hx); exact Hx.
Qed.

Lemma step_owned w e : owned w -> owned (step env programme w e).
Proof.
  intros O. pose proof O as (O1 & O2 & O3).
  destruct e as [r|r|m|i|i|d|clock|]; cbn [step].
  - destruct (pc w) eqn:Epc; [now apply after_courses_owned | exact O | exact O].
  - destruct (pc w) eqn:Epc; [exact O | now apply after_location_owned | exact O].
  - destruct (fold_call_keeps m (receivers m (subscriptions w)) w)
      as (E1 & E2 & E3 & E4 & E5).
    unfold deliver, owned. cbn zeta in *. rewrite E1, E2, E3, E4. exact O.
  - unfold requery_settled.
    destruct (nth_error (requeries w) i) as [[d|]|]; exact O.
  - exact O.
  - exact O.
  - destruct (timeInterval w); exact O.
  - unfold owned. repeat split.
    + intros Hpc. cbn [cleanup subscriptions]. rewrite (O1 Hpc).
      destruct (unsubscribeCourse w), (unsubscribeLocation w); reflexivity.
    + intros Hpc x Hx. apply (O2 Hpc). now apply cleanup_subset.
    + intros x Hx. apply O3. now apply cleanup_subset.
Qed.

Lemma run_owned t : forall w, owned w -> owned (run env programme w t).
Proof.
  induction t as [|e t IH]; intros w H; [exact H|].
  rewrite run_cons. apply IH. now apply step_owned.
Qed.

Lemma mount_owned clock locs : owned (mount clock locs).
Proof. unfold owned. cbn. repeat split; try discriminate; intros s []. Qed.

Lemma cleanup_releases w :
  owned w -> subscriptions (cleanup w) = [] /\ timeInterval (cleanup w) = false.
Proof.
  intros (_ & _ & O3). split; [|reflexivity].
  cbn [cleanup subscriptions].
  destruct (unsubscribe (unsubscribeLocation w)
              (unsubscribe (unsubscribeCourse w) (subscriptions w)))
    as [|s rest] eqn:E; [reflexivity|exfalso].
  assert (Hs : In s (unsubscribe (unsubscribeLocation w)
                       (unsubscribe (unsubscribeCourse w) (subscriptions w))))
    by (rewrite E; now left).
  clear E.
  assert (Hin : In s (subscriptions w)) by (now apply cleanup_subset).
  destruct (O3 s Hin) as [Hc|Hl].
  - rewrite Hc in Hs. cbn [unsubscribe] in Hs.
    assert (Hf : In s (filter (fun s0 => negb (Nat.eqb (sub_id s0) (sub_id s)))
                              (subscriptions w))).
    { destruct (unsubscribeLocation w); cbn [unsubscribe] in Hs;
        [now apply in_filter_sub in Hs | exact Hs]. }
    apply filter_In in Hf as [_ Hf]. now rewrite Nat.eqb_refl in Hf.
  - rewrite Hl in Hs. cbn [unsubscribe] in Hs.
    apply filter_In in Hs as [_ Hf]. now rewrite Nat.eqb_refl in Hf.
Qed.

Lemma released_step w e :
  released w ->
  released (step env programme w e) /\ ui (step env programme w e) = ui w.
Proof.
  intros (R1 & R2 & R3 & R4). unfold released.
  destruct e as [r|r|m|i|i|d|clock|]; cbn [step]; rewrite ?R4, ?R2.
  - now repeat split.
  - now repeat split.
  - unfold deliver, receivers. rewrite R1. now repeat split.
  - unfold requery_settled. rewrite R3. destruct i; now repeat split.
  - rewrite R3. destruct i; now repeat split.
  - now repeat split.
  - now repeat split.
  - cbn. rewrite R1, R3, R4.
    destruct (unsubscribeLocation w), (unsubscribeCourse w); now repeat split.
Qed.

Lemma released_run t : forall w,
  released w -> ui (run env programme w t) = ui w.
Proof.
  induction t as [|e t IH]; intros w H; [reflexivity|].
  rewrite run_cons. destruct (released_step w e H) as [H' E].
  now rewrite (IH _ H'), E.
Qed.

(** Teardown after initializeData has returned, with no re-query in
    flight, releases the two subscriptions and the timer, and no later
    event changes the page. *)
Theorem teardown_after_initialisation clock locs trace later :
  pc (run env programme (mount clock locs) trace) = Finished ->
  requeries (run env programme (mount clock locs) trace) = [] ->
  subscriptions (cleanup (run env programme (mount clock locs) trace)) = []
  /\ timeInterval (cleanup (run env programme (mount clock locs) trace)) = false
  /\ ui (run env programme (cleanup (run env programme (mount clock locs) trace)) later)
     = ui (run env programme (mount clock locs) trace).
Proof.
  intros Hpc Hr.
  set (w := run env programme (mount clock locs) trace) in *.
  destruct (cleanup_releases w (run_owned trace _ (mount_owned clock locs)))
    as [Hs Hi].
  split; [exact Hs|]. split; [exact Hi|].
  rewrite released_run; [reflexivity|].
  unfold released. now repeat split.
Qed.

End Teardown.

(** C4, at the failing input. When the teardown runs while the course
    fetch is pending, initializeData goes on afterwards: both
    subscriptions are made and never released, a later course-update
    event changes the course of the page, and a later creation event
    sends a re-query. *)
Theorem early_teardown_leaks_subscriptions :
  map sub_handler (subscriptions after_early_teardown)
  = [onCourse (doc_id example_course); onLocation]
  /\ course (ui after_early_teardown) = Some example_course
  /\ course (ui (step example_env "B.Sc%20IT" after_early_teardown
                      (Realtime (course_updated example_env inactive_course))))
     = Some inactive_course
  /\ requeries (step example_env "B.Sc%20IT" after_early_teardown
                     (Realtime (location_created example_env older_sample)))
     = [None].
Proof. vm_compute. repeat split; reflexivity. Qed.

(** ** The location manager *)

(** C8 fails as stated: submitting the form while a sample is edited
    sends an update that overwrites the sample, and the delete action
    sends a delete that removes it. *)
Lemma manager_updates_and_deletes :
  only_adds (fst (handleSubmit editing_manager (Fulfilled moved_sample))) = false
  /\ fst (handleSubmit editing_manager (Fulfilled moved_sample))
     = [updateLocation "loc-1" [ ("Latitude", VNum (Dec false "2615" 2));
                                 ("Longitude", VNum (Dec false "917362" 2)) ]]
  /\ locations (snd (handleSubmit editing_manager (Fulfilled moved_sample)))
     = [moved_sample]
  /\ only_adds (fst (handleDelete "loc-1" true (Fulfilled tt) listing_manager)) = false
  /\ locations (snd (handleDelete "loc-1" true (Fulfilled tt) listing_manager)) = [].
Proof. vm_compute. repeat split; reflexivity. Qed.

(** C8, amended. Submitting the form while no sample is being edited
    sends one addLocation call, puts the new sample in front of the
    list and leaves the existing samples as they were; when the service
    rejects the call nothing changes. *)
Theorem submit_without_edit_appends m newLocation :
  editingLocationId m = None ->
  fst (handleSubmit m (Fulfilled newLocation))
  = [addLocation (locationData (formData m))]
  /\ only_adds (fst (handleSubmit m (Fulfilled newLocation))) = true
  /\ locations (snd (handleSubmit m (Fulfilled newLocation)))
     = newLocation :: locations m
  /\ snd (handleSubmit m Rejected) = m.
Proof.
  intros H. unfold handleSubmit. rewrite H. repeat split; reflexivity.
Qed.

Lemma submit_without_edit_appends_witness :
  fst (handleSubmit listing_manager (Fulfilled newer_sample))
  = [addLocation (locationData (formData listing_manager))]
  /\ only_adds (fst (handleSubmit listing_manager (Fulfilled newer_sample))) = true
  /\ locations (snd (handleSubmit listing_manager (Fulfilled newer_sample)))
     = newer_sample :: locations listing_manager
  /\ snd (handleSubmit listing_manager Rejected) = listing_manager.
Proof.
  apply (submit_without_edit_appends listing_manager newer_sample). reflexivity.
Defined.

(** ** The payload is a JSON text *)

Lemma wf_token c l semester now :
  wf_value (latitude l) = true -> wf_value (longitude l) = true ->
  wf_value (token c l semester now) = true.
Proof.
  intros Hlat Hlon. unfold token.
  destruct (ToBoolean (js_and (latitude l) (longitude l)));
    cbn; rewrite parseInt_wf; [rewrite Hlat, Hlon|]; reflexivity.
Qed.

Lemma truthy_defined v : ToBoolean v = true -> v <> VUndefined.
Proof. intros H E. subst v. discriminate. Qed.

Lemma as_json_pair k1 v1 k2 v2 :
  v1 <> VUndefined -> v2 <> VUndefined ->
  as_json (VObj [(k1, v1); (k2, v2)]) = VObj [(k1, as_json v1); (k2, as_json v2)].
Proof.
  intros H1 H2. destruct v1; try congruence; destruct v2; try congruence; reflexivity.
Qed.

Lemma as_json_semester x :
  wf_number x = true -> x = NaN \/ is_integer x = true ->
  as_json (VNum x) = VNull
  \/ exists n, as_json (VNum x) = VNum n /\ is_integer n = true.
Proof.
  intros _ [E | Hi].
  - subst x. now left.
  - destruct x; try discriminate; right; cbn; eauto.
Qed.

(** X1. For every Active course, whatever the characters of its
    identifier, the semester parameter and the clock, the payload is a
    JSON text: it decodes to an object with exactly the members
    courseId, semester, dateTime and location, in this order; courseId
    is the identifier of the course, semester is null or an integer,
    dateTime is the instant printed by toISOString, and location is null
    or an object with exactly latitude and longitude. *)
Theorem active_payload_is_json st semester now c :
  course st = Some c -> is_Active (attr c "LinkStatus") = true ->
  wf_value (latitude (location st)) = true ->
  wf_value (longitude (location st)) = true ->
  exists j sem loc,
    decode (qrValue st semester now) = Some j
    /\ keys j = ["courseId"; "semester"; "dateTime"; "location"]
    /\ member "courseId" j = Some (VStr (doc_id c))
    /\ member "semester" j = Some sem
    /\ (sem = VNull \/ exists n, sem = VNum n /\ is_integer n = true)
    /\ member "dateTime" j = Some (VStr (toISOString now))
    /\ member "location" j = Some loc
    /\ (loc = VNull \/ keys loc = ["latitude"; "longitude"]).
Proof.
  intros Hc Ha Hlat Hlon.
  pose proof (decode_stringify _ _ (qrValue_active st semester now c Hc Ha)
                (wf_token c (location st) semester now Hlat Hlon)) as Hd.
  rewrite Hd. clear Hd.
  pose proof (as_json_semester (parseInt semester) (parseInt_wf semester)
                (parseInt_integer semester)) as Hsem.
  destruct (ToBoolean (latitude (location st))) eqn:Tlat;
    [destruct (ToBoolean (longitude (location st))) eqn:Tlon|].
  - rewrite (token_location c (location st) semester now Tlat Tlon).
    exists (VObj [ ("courseId", VStr (doc_id c));
                   ("semester", as_json (VNum (parseInt semester)));
                   ("dateTime", VStr (toISOString now));
                   ("location", VObj [ ("latitude", as_json (latitude (location st)));
                                       ("longitude", as_json (longitude (location st))) ]) ]),
      (as_json (VNum (parseInt semester))),
      (VObj [ ("latitude", as_json (latitude (location st)));
              ("longitude", as_json (longitude (location st))) ]).
    split.
    { f_equal.
      pose proof (as_json_pair "latitude" (latitude (location st))
                    "longitude" (longitude (location st))
                    (truthy_defined _ Tlat) (truthy_defined _ Tlon)) as Hp.
      cbn [as_json] in Hp |- *. now rewrite Hp. }
    repeat split; try reflexivity; [exact Hsem | now right].
  - rewrite (token_null_location c (location st) semester now (or_intror Tlon)).
    exists (VObj [ ("courseId", VStr (doc_id c));
                   ("semester", as_json (VNum (parseInt semester)));
                   ("dateTime", VStr (toISOString now));
                   ("location", VNull) ]),
      (as_json (VNum (parseInt semester))), VNull.
    repeat split; try reflexivity; [exact Hsem | now left].
  - rewrite (token_null_location c (location st) semester now (or_introl Tlat)).
    exists (VObj [ ("courseId", VStr (doc_id c));
                   ("semester", as_json (VNum (parseInt semester)));
                   ("dateTime", VStr (toISOString now));
                   ("location", VNull) ]),
      (as_json (VNum (parseInt semester))), VNull.
    repeat split; try reflexivity; [exact Hsem | now left].
Qed.

Lemma active_payload_is_json_witness :
  exists j sem loc,
    decode (qrValue zero_latitude_page "third" example_now) = Some j
    /\ keys j = ["courseId"; "semester"; "dateTime"; "location"]
    /\ member "courseId" j = Some (VStr (doc_id example_course))
    /\ member "semester" j = Some sem
    /\ (sem = VNull \/ exists n, sem = VNum n /\ is_integer n = true)
    /\ member "dateTime" j = Some (VStr (toISOString example_now))
    /\ member "location" j = Some loc
    /\ (loc = VNull \/ keys loc = ["latitude"; "longitude"]).
Proof.
  apply (active_payload_is_json zero_latitude_page "third" example_now example_course);
    reflexivity.
Defined.

(** ** Sessions: the course that is shown *)

Section LiveCourse.

Variable env : environment.
Variable programme : string.

(** The session once both fetches have been answered and a course has
    been found. *)
Lemma initialised_world clock locs courses decoded c l0 :
  decodeURIComponent env programme = Some decoded ->
  find_course env (toLowerCase env decoded) courses = Some (Some c) ->
  run env programme (mount clock locs)
      [CoursesSettled (Fulfilled courses); LocationSettled (Fulfilled l0)]
  = {| ui := {| course := Some c;
                location := match l0 with
                            | Some d => location_of d
                            | None => {| latitude := VNull; longitude := VNull |}
                            end;
                loading := false; error := None; currentTime := clock |};
       pc := Finished;
       unsubscribeCourse := Some 0%nat;
       unsubscribeLocation := Some 1%nat;
       timeInterval := true;
       subscriptions :=
         [ {| sub_id := 0; sub_channel := course_channel env (doc_id c);
              sub_handler := onCourse (doc_id c) |};
           {| sub_id := 1; sub_channel := location_channel env;
              sub_handler := onLocation |} ];
       next_sub := 2;
       requeries := [];
       store := locs |}.
Proof.
  intros Hd Hf. unfold run. cbn [fold_left step mount pc].
  unfold after_courses. rewrite Hd, Hf. cbn.
  destruct l0; reflexivity.
Qed.

(** The callback of the course stream, on the two subscriptions of an
    initialised session. *)
Lemma deliver_initialised m st id locs rq :
  let w := {| ui := st; pc := Finished;
              unsubscribeCourse := Some 0%nat;
              unsubscribeLocation := Some 1%nat;
              timeInterval := true;
              subscriptions :=
                [ {| sub_id := 0; sub_channel := course_channel env id;
                     sub_handler := onCourse id |};
                  {| sub_id := 1; sub_channel := location_channel env;
                     sub_handler := onLocation |} ];
              next_sub := 2; requeries := rq; store := locs |} in
  ui (deliver env m w)
  = if includes (msg_channels m) (course_channel env id)
       && includes (msg_events m) (course_update_event env id)
    then setCourse (msg_payload m) st else st.
Proof.
  intros w. unfold deliver, receivers. cbn [subscriptions w filter sub_channel].
  destruct (includes (msg_channels m) (course_channel env id));
    destruct (includes (msg_channels m) (location_channel env));
    cbn [fold_left sub_handler call andb];
    destruct (includes (msg_events m) (course_update_event env id));
    try destruct (includes (msg_events m) (location_create_event env));
    reflexivity.
Qed.


Lemma append_cancel_l (a x y : string) : (a ++ x = a ++ y)%string -> x = y.
Proof.
  induction a as [|ch a IH]; cbn; intros H; [exact H|].
  injection H as H. auto.
Qed.

Lemma append_cancel_r (b : string) : forall x y : string,
  (x ++ b = y ++ b)%string -> x = y.
Proof.
  induction x as [|ch x IH]; intros [|ch' y] H; cbn in H.
  - reflexivity.
  - exfalso. apply (f_equal length) in H. cbn in H. rewrite length_append in H. lia.
  - exfalso. apply (f_equal length) in H. cbn in H. rewrite length_append in H. lia.
  - injection H as Hc H. subst ch'. f_equal. now apply IH.
Qed.

Lemma course_update_event_inj id id' :
  course_update_event env id = course_update_event env id' -> id = id'.
Proof.
  unfold course_update_event, course_channel. intros H.
  apply append_cancel_r in H.
  repeat (apply append_cancel_l in H). exact H.
Qed.

(** X3. The subscription is keyed to the course that was found: the
    message that announces the update of a course with another
    identifier leaves the page as it is. *)
Theorem other_course_update_is_ignored clock locs courses decoded c l0 c' :
  decodeURIComponent env programme = Some decoded ->
  find_course env (toLowerCase env decoded) courses = Some (Some c) ->
  doc_id c' <> doc_id c ->
  let w := run env programme (mount clock locs)
             [CoursesSettled (Fulfilled courses); LocationSettled (Fulfilled l0)] in
  ui (step env programme w (Realtime (course_updated env c'))) = ui w.
Proof.
  intros Hd Hf Hne w. subst w.
  rewrite (initialised_world clock locs courses decoded c l0 Hd Hf).
  cbn [step]. rewrite deliver_initialised.
  replace (includes (msg_events (course_updated env c'))
                    (course_update_event env (doc_id c))) with false.
  - now rewrite andb_false_r.
  - symmetry. unfold course_updated, includes. cbn [msg_events existsb].
    rewrite orb_false_r. apply String.eqb_neq. intros E.
    apply course_update_event_inj in E. contradiction.
Qed.

(** *** The spinner *)

Lemma step_loading w e :
  loading_matches_stage w -> loading_matches_stage (step env programme w e).
Proof.
  unfold loading_matches_stage. intros H.
  destruct e as [r | r | m | i | i | d | clock |]; cbn [step].
  - destruct (pc w) eqn:P; try (rewrite P; exact H).
    unfold after_courses. destruct r as [courses|]; [|reflexivity].
    destruct (decodeURIComponent env programme); [|reflexivity].
    destruct (find_course env (toLowerCase env s) courses) as [[found|]|];
      try reflexivity; cbn; rewrite ?P in H; exact H.
  - destruct (pc w) eqn:P; try (rewrite P; exact H).
    destruct r as [[d|]|]; reflexivity.
  - destruct (deliver_keeps env m w) as [_ Hl].
    destruct (fold_call_keeps env m (receivers m (subscriptions w)) w) as [Hp _].
    unfold deliver. cbn zeta in Hp. unfold deliver in Hl. now rewrite Hl, Hp.
  - unfold requery_settled.
    destruct (nth_error (requeries w) i) as [[d|]|]; exact H.
  - exact H.
  - exact H.
  - destruct (timeInterval w); exact H.
  - exact H.
Qed.

Lemma run_loading t : forall w,
  loading_matches_stage w -> loading_matches_stage (run env programme w t).
Proof.
  induction t as [|e t IH]; intros w H; [exact H|].
  rewrite run_cons. apply IH, step_loading, H.
Qed.

(** X4. The page shows its spinner exactly as long as initializeData
    has not returned, in every state a session can reach; and
    initializeData has returned once the two fetches have been answered,
    whatever the answers and whatever comes later. *)
Theorem loading_until_initialised clock locs :
  (forall trace,
      let w := run env programme (mount clock locs) trace in
      loading (ui w) = match pc w with Finished => false | _ => true end)
  /\ (forall r1 r2 later,
        let w := run env programme (mount clock locs)
                   (CoursesSettled r1 :: LocationSettled r2 :: later) in
        pc w = Finished /\ loading (ui w) = false).
Proof.
  split.
  - intros trace. apply run_loading. reflexivity.
  - intros r1 r2 later. rewrite !run_cons.
    apply run_keeps_loaded.
    + cbn [step mount pc]. unfold after_courses.
      destruct r1 as [courses|]; [|destruct r2 as [[d|]|]; reflexivity].
      destruct (decodeURIComponent env programme);
        [|destruct r2 as [[d|]|]; reflexivity].
      destruct (find_course env (toLowerCase env s) courses) as [[found|]|];
        destruct r2 as [[d|]|]; reflexivity.
    + cbn [step mount pc]. unfold after_courses.
      destruct r1 as [courses|]; [|destruct r2 as [[d|]|]; reflexivity].
      destruct (decodeURIComponent env programme);
        [|destruct r2 as [[d|]|]; reflexivity].
      destruct (find_course env (toLowerCase env s) courses) as [[found|]|];
        destruct r2 as [[d|]|]; reflexivity.
Qed.

End LiveCourse.


Lemma other_course_update_is_ignored_witness :
  ui (step example_env "B.Sc%20IT" inactive_session
           (Realtime (course_updated example_env other_course)))
  = ui inactive_session.
Proof.
  apply (other_course_update_is_ignored example_env "B.Sc%20IT" "10:15 am" []
           [inactive_course] "B.Sc IT" inactive_course (Some older_sample)
           other_course); [reflexivity | reflexivity | discriminate].
Defined.

(** ** Sessions: where the coordinates come from *)

Section Coordinates.

Variable env : environment.
Variable programme : string.

Lemma fetchLatestLocation_in collection d :
  fetchLatestLocation collection = Some d -> In d collection.
Proof.
  unfold fetchLatestLocation, listDocuments. cbn [fold_left apply_query].
  destruct (fold_right insert_desc [] collection) as [|x l] eqn:E;
    cbn [firstn]; [discriminate|].
  intros H. injection H as H. subst x.
  apply in_orderDesc. rewrite E. now left.
Qed.

Lemma in_remove_nth {A : Type} (x : A) : forall i l,
  In x (remove_nth i l) -> In x l.
Proof.
  induction i as [|i IH]; intros [|y l] H; cbn in *; auto.
  destruct H as [H | H]; auto.
Qed.

Lemma fed_by_more known more w : fed_by known w -> fed_by (known ++ more) w.
Proof.
  intros [[H1 | [d [Hd H1]]] [H2 H3]]; repeat split.
  - now left.
  - intros d Hd. apply in_or_app. left. auto.
  - intros d Hd. apply in_or_app. left. auto.
  - right. exists d. split; [apply in_or_app; now left | exact H1].
  - intros d' Hd'. apply in_or_app. left. auto.
  - intros d' Hd'. apply in_or_app. left. auto.
Qed.

Lemma call_fed known h m w : fed_by known w -> fed_by known (call env h m w).
Proof.
  intros [H1 [H2 H3]]. destruct h as [id|]; cbn [call].
  - destruct (includes (msg_events m) (course_update_event env id));
      repeat split; auto.
  - destruct (includes (msg_events m) (location_create_event env));
      repeat split; auto.
    cbn [with_requeries requeries]. intros d Hd.
    apply in_app_or in Hd. destruct Hd as [Hd | [Hd | []]]; [auto|].
    apply H3. now apply fetchLatestLocation_in.
Qed.

Lemma calls_fed known m l : forall w,
  fed_by known w ->
  fed_by known (fold_left (fun w' s => call env (sub_handler s) m w') l w).
Proof.
  induction l as [|s l IH]; intros w H; cbn [fold_left]; [exact H|].
  apply IH, call_fed, H.
Qed.

Lemma step_fed known w e :
  fed_by known w -> fed_by (known ++ samples_of e) (step env programme w e).
Proof.
  intros H.
  destruct e as [r | r | m | i | i | d | clock |]; cbn [step samples_of].
  - rewrite app_nil_r. destruct (pc w); try exact H.
    destruct H as [H1 [H2 H3]].
    unfold after_courses. destruct r as [courses|]; [|repeat split; auto].
    destruct (decodeURIComponent env programme); [|repeat split; auto].
    destruct (find_course env (toLowerCase env s) courses) as [[found|]|];
      repeat split; auto.
  - destruct (pc w);
      try (destruct r as [[d|]|]; rewrite ?app_nil_r; try exact H;
           now apply fed_by_more).
    destruct r as [[d|]|]; rewrite ?app_nil_r.
    + destruct H as [H1 [H2 H3]]. repeat split.
      * right. exists d. split; [apply in_or_app; right; now left | reflexivity].
      * intros d' Hd'. apply in_or_app. left. now apply H2.
      * intros d' Hd'. apply in_or_app. left. now apply H3.
    + destruct H as [H1 [H2 H3]]. repeat split; auto.
    + destruct H as [H1 [H2 H3]]. repeat split; auto.
  - rewrite app_nil_r. apply calls_fed, H.
  - rewrite app_nil_r. unfold requery_settled.
    destruct (nth_error (requeries w) i) as [r|] eqn:E; [|exact H].
    destruct H as [H1 [H2 H3]].
    assert (Hr : forall d, In (Some d) (remove_nth i (requeries w)) -> In d known).
    { intros d Hd. apply H2. now apply in_remove_nth in Hd. }
    destruct r as [d|]; repeat split; auto.
    right. exists d. split; [|reflexivity].
    apply H2. now apply nth_error_In in E.
  - rewrite app_nil_r. destruct H as [H1 [H2 H3]]. repeat split; auto.
    intros d Hd. apply H2. cbn in Hd. now apply in_remove_nth in Hd.
  - destruct H as [H1 [H2 H3]]. repeat split.
    + destruct H1 as [H1 | [d' [Hd' H1]]]; [now left|].
      right. exists d'. split; [apply in_or_app; now left | exact H1].
    + intros d' Hd'. apply in_or_app. left. now apply H2.
    + intros d' Hd'. cbn in Hd'. apply in_app_or in Hd'.
      apply in_or_app. destruct Hd' as [Hd' | Hd']; [left; now apply H3 | now right].
  - rewrite app_nil_r. destruct (timeInterval w); [|exact H].
    destruct H as [H1 [H2 H3]]. repeat split; auto.
  - rewrite app_nil_r. destruct H as [H1 [H2 H3]]. repeat split; auto.
Qed.

Lemma run_fed trace : forall known w,
  fed_by known w ->
  fed_by (known ++ flat_map samples_of trace) (run env programme w trace).
Proof.
  induction trace as [|e t IH]; intros known w H.
  - cbn. now rewrite app_nil_r.
  - rewrite run_cons. cbn [flat_map]. rewrite app_assoc.
    apply IH, step_fed, H.
Qed.

(** X5. In every state a session can reach, the coordinates on the page
    are the null pair it starts with or the coordinates of a sample that
    the first fetch returned or that is in the store: a realtime message
    never supplies them, whatever document it carries. *)
Theorem coordinates_come_from_the_store clock locs trace :
  shows_sample_of (locs ++ flat_map samples_of trace)
                  (ui (run env programme (mount clock locs) trace)).
Proof.
  apply (run_fed trace locs (mount clock locs)).
  repeat split.
  - now left.
  - intros d [].
  - intros d Hd. exact Hd.
Qed.

(** *** Teardown with re-queries in flight *)

Lemma length_remove_nth {A : Type} (i : nat) : forall l : list A,
  (List.length (remove_nth i l) <= List.length l)%nat.
Proof.
  induction i as [|i IH]; intros [|x l]; cbn; try lia.
  specialize (IH l). lia.
Qed.

Lemma torn_down_step w e :
  torn_down w ->
  torn_down (step env programme w e)
  /\ same_but_location (ui w) (ui (step env programme w e))
  /\ (List.length (requeries (step env programme w e)) <= List.length (requeries w))%nat.
Proof.
  intros [Hs [Ht Hp]].
  destruct e as [r | r | m | i | i | d | clock |]; cbn [step].
  - rewrite Hp. repeat split; auto.
  - rewrite Hp. repeat split; auto.
  - unfold deliver, receivers. rewrite Hs. cbn. repeat split; auto.
  - unfold requery_settled.
    destruct (nth_error (requeries w) i) as [r|] eqn:E; [|repeat split; auto].
    pose proof (length_remove_nth i (requeries w)) as Hl.
    destruct r as [d|]; repeat split; auto.
  - repeat split; auto. apply length_remove_nth.
  - repeat split; auto.
  - rewrite Ht. repeat split; auto.
  - repeat split; auto. cbn. rewrite Hs.
    now destruct (unsubscribeCourse w), (unsubscribeLocation w).
Qed.

Lemma torn_down_run t : forall w,
  torn_down w ->
  torn_down (run env programme w t)
  /\ same_but_location (ui w) (ui (run env programme w t))
  /\ (List.length (requeries (run env programme w t)) <= List.length (requeries w))%nat.
Proof.
  induction t as [|e t IH]; intros w H.
  - repeat split; auto; apply H.
  - rewrite run_cons.
    destruct (torn_down_step w e H) as [H1 [[Ha [Hb [Hc Hd]]] H3]].
    destruct (IH _ H1) as [H4 [[Ha' [Hb' [Hc' Hd']]] H6]].
    split; [exact H4|]. split; [|lia].
    repeat split; congruence.
Qed.

(** X6. Teardown after initializeData has returned, with re-queries
    still in flight: both subscriptions and the timer are released, and
    whatever arrives afterwards, no callback of a subscription and no
    tick runs any more: the course, the error, the spinner and the clock
    of the page stay as they were, and no new re-query is sent.  Only
    the answers that were in flight can still set the location. *)
Theorem teardown_with_requeries_in_flight clock locs trace later :
  pc (run env programme (mount clock locs) trace) = Finished ->
  let w := run env programme (mount clock locs) trace in
  let w' := run env programme (cleanup w) later in
  subscriptions w' = [] /\ timeInterval w' = false
  /\ same_but_location (ui w) (ui w')
  /\ (List.length (requeries w') <= List.length (requeries w))%nat.
Proof.
  intros Hpc w w'.
  destruct (cleanup_releases w (run_owned env programme trace _ (mount_owned clock locs)))
    as [Hs Hi].
  assert (Ht : torn_down (cleanup w)) by (repeat split; assumption).
  destruct (torn_down_run later _ Ht) as [[H1 [H2 _]] [H3 H4]].
  repeat split; try assumption; apply H3.
Qed.

(** *** The course that is found *)

Lemma find_course_first decoded courses : forall c,
  find_course env decoded courses = Some (Some c) ->
  exists before after p,
    courses = before ++ c :: after
    /\ attr c "Programme" = VStr p /\ toLowerCase env p = decoded
    /\ Forall (fun c' => exists q, attr c' "Programme" = VStr q
                                   /\ toLowerCase env q <> decoded) before.
Proof.
  induction courses as [|x cs IH]; intros c H; cbn in H; [discriminate|].
  destruct (attr x "Programme") as [| | | |p|] eqn:E; try discriminate.
  destruct (toLowerCase env p =? decoded)%string eqn:M.
  - injection H as H. subst x. exists [], cs, p.
    apply String.eqb_eq in M. repeat split; auto.
  - destruct (IH c H) as [before [after [q [H1 [H2 [H3 H4]]]]]].
    exists (x :: before), after, q. subst cs. repeat split; auto.
    constructor; [|exact H4]. exists p. split; [exact E|].
    now apply String.eqb_neq.
Qed.

Lemma find_course_exists decoded courses c p :
  In c courses -> attr c "Programme" = VStr p -> toLowerCase env p = decoded ->
  Forall (fun c' => exists q, attr c' "Programme" = VStr q) courses ->
  exists found, find_course env decoded courses = Some (Some found).
Proof.
  intros Hin Hp Hm Hall. induction courses as [|x cs IH]; [destruct Hin|].
  inversion Hall as [|? ? [q Hq] Hall']; subst. cbn. rewrite Hq.
  destruct (toLowerCase env q =? toLowerCase env p)%string eqn:M; [eauto|].
  destruct Hin as [Hin | Hin].
  - subst x. rewrite Hp in Hq. injection Hq as Hq. subst q.
    now rewrite String.eqb_refl in M.
  - now apply IH.
Qed.

Lemma course_after_fetch clock locs courses decoded found :
  decodeURIComponent env programme = Some decoded ->
  find_course env (toLowerCase env decoded) courses = Some found ->
  let w := run env programme (mount clock locs) [CoursesSettled (Fulfilled courses)] in
  course (ui w) = found
  /\ error (ui w) = match found with Some _ => None | None => Some not_found_message end.
Proof.
  intros Hd Hf. unfold run. cbn [fold_left step mount pc].
  unfold after_courses. rewrite Hd, Hf. destruct found; now split.
Qed.

(** X7. The course a page shows after the list of courses has arrived
    is the first course of the list whose [Programme], in lower case, is
    the decoded parameter in lower case; every course before it has a
    [Programme] that is a string and differs. *)
Theorem shown_course_is_first_match clock locs courses decoded c :
  decodeURIComponent env programme = Some decoded ->
  course (ui (run env programme (mount clock locs)
                  [CoursesSettled (Fulfilled courses)])) = Some c ->
  exists before after p,
    courses = before ++ c :: after
    /\ attr c "Programme" = VStr p
    /\ toLowerCase env p = toLowerCase env decoded
    /\ Forall (fun c' => exists q, attr c' "Programme" = VStr q
                  /\ toLowerCase env q <> toLowerCase env decoded) before.
Proof.
  intros Hd Hc.
  destruct (find_course env (toLowerCase env decoded) courses) as [found|] eqn:Hf.
  - destruct (course_after_fetch clock locs courses decoded found Hd Hf) as [H _].
    cbn zeta in H. rewrite H in Hc. subst found.
    now apply find_course_first.
  - exfalso. revert Hc. unfold run. cbn [fold_left step mount pc].
    unfold after_courses. rewrite Hd, Hf. discriminate.
Qed.

End Coordinates.

Lemma teardown_with_requeries_in_flight_witness :
  subscriptions after_late_teardown = []
  /\ timeInterval after_late_teardown = false
  /\ same_but_location (ui before_late_teardown) (ui after_late_teardown)
  /\ (List.length (requeries after_late_teardown)
      <= List.length (requeries before_late_teardown))%nat.
Proof.
  apply (teardown_with_requeries_in_flight example_env "B.Sc%20IT" "10:15 am" []
           requery_in_flight events_after_teardown).
  reflexivity.
Defined.

Lemma shown_course_is_first_match_witness :
  exists before after p,
    [other_course; inactive_course; example_course] = before ++ inactive_course :: after
    /\ attr inactive_course "Programme" = VStr p
    /\ toLowerCase example_env p = toLowerCase example_env "B.Sc IT"
    /\ Forall (fun c' => exists q, attr c' "Programme" = VStr q
                  /\ toLowerCase example_env q <> toLowerCase example_env "B.Sc IT")
              before.
Proof.
  apply (shown_course_is_first_match example_env "B.Sc%20IT" "10:15 am" []
           [other_course; inactive_course; example_course] "B.Sc IT" inactive_course);
    reflexivity.
Defined.

(** ** The attendance links page *)

Lemma lookup_set_prop k v k' props :
  lookup k' (set_prop k v props)
  = if (k' =? k)%string then Some v else lookup k' props.
Proof.
  induction props as [|[k0 v0] props IH]; cbn.
  - now destruct (k' =? k)%string.
  - destruct (k =? k0)%string eqn:E; cbn.
    + apply String.eqb_eq in E. subst k0. now destruct (k' =? k)%string.
    + destruct (k' =? k0)%string eqn:E'; [|exact IH].
      apply String.eqb_eq in E'. subst k0.
      rewrite String.eqb_sym in E. now rewrite E.
Qed.

Lemma lookup_app k a b :
  lookup k (a ++ b) = match lookup k a with Some v => Some v | None => lookup k b end.
Proof.
  induction a as [|[k0 v0] a IH]; cbn; [reflexivity|].
  now destruct (k =? k0)%string.
Qed.

(** Reading a property of [{ ...a, ...b }]: the last value [b] gives to
    it, or else the value it has in [a]. *)
Lemma lookup_spread k : forall b a,
  lookup k (spread a b)
  = match lookup k (rev b) with Some v => Some v | None => lookup k a end.
Proof.
  unfold spread. induction b as [|[k0 v0] b IH]; intros a; cbn [fold_left rev];
    [reflexivity|].
  rewrite IH, lookup_app, lookup_set_prop. cbn [fst snd lookup].
  destruct (lookup k (rev b)); [reflexivity|].
  now destruct (k =? k0)%string.
Qed.

Lemma attr_fullCourseData course k :
  attr (fullCourseData course) k
  = if (k =? "LinkStatus")%string then VStr (newStatus course) else attr course k.
Proof.
  unfold attr, fullCourseData. cbn [doc_attrs]. rewrite lookup_spread.
  cbn [rev app lookup]. now destruct (k =? "LinkStatus")%string.
Qed.

(** X8. The request of the toggle: one updateCourse call for the
    course, whose data carry the opposite link flag (Active exactly when
    the course was not Active, the action the button of the card
    announces) and every other attribute of the course unchanged. *)
Theorem toggle_sends_the_flipped_flag course response courses :
  fst (handleToggleLinkStatus course response courses)
  = [updateCourse (doc_id course) (fullCourseData course)]
  /\ doc_id (fullCourseData course) = doc_id course
  /\ is_Active (attr (fullCourseData course) "LinkStatus")
     = negb (is_Active (attr course "LinkStatus"))
  /\ (toggle_label course = "Activate"
      <-> is_Active (attr (fullCourseData course) "LinkStatus") = true)
  /\ forall k, (k =? "LinkStatus")%string = false ->
               attr (fullCourseData course) k = attr course k.
Proof.
  split; [reflexivity|]. split; [reflexivity|].
  assert (H : is_Active (attr (fullCourseData course) "LinkStatus")
              = negb (is_Active (attr course "LinkStatus"))).
  { rewrite attr_fullCourseData. cbn. unfold newStatus.
    now destruct (is_Active (attr course "LinkStatus")). }
  split; [exact H|]. split.
  - rewrite H. unfold toggle_label.
    destruct (is_Active (attr course "LinkStatus")); cbn; split; intros E;
      try reflexivity; discriminate.
  - intros k Hk. now rewrite attr_fullCourseData, Hk.
Qed.

Lemma toggle_sends_the_flipped_flag_witness :
  fst (handleToggleLinkStatus inactive_course Rejected [inactive_course])
  = [updateCourse (doc_id inactive_course) (fullCourseData inactive_course)]
  /\ doc_id (fullCourseData inactive_course) = doc_id inactive_course
  /\ is_Active (attr (fullCourseData inactive_course) "LinkStatus")
     = negb (is_Active (attr inactive_course "LinkStatus"))
  /\ (toggle_label inactive_course = "Activate"
      <-> is_Active (attr (fullCourseData inactive_course) "LinkStatus") = true)
  /\ forall k, (k =? "LinkStatus")%string = false ->
               attr (fullCourseData inactive_course) k = attr inactive_course k.
Proof.
  apply (toggle_sends_the_flipped_flag inactive_course Rejected [inactive_course]).
Defined.

(** X9. The answer to the toggle: the list keeps its length and its
    order, every course with another identifier is left as it is, and a
    course with the identifier of the toggled one takes the properties
    of the answer and keeps those the answer does not have; when the
    service rejects the call the list is unchanged. *)
Theorem toggle_updates_only_that_course course updated courses i c :
  nth_error courses i = Some c ->
  let courses' := snd (handleToggleLinkStatus course (Fulfilled updated) courses) in
  List.length courses' = List.length courses
  /\ (doc_id c <> doc_id course -> nth_error courses' i = Some c)
  /\ (doc_id c = doc_id course ->
      exists c', nth_error courses' i = Some c'
                 /\ doc_id c' = doc_id updated
                 /\ forall k, attr c' k
                              = match lookup k (rev (doc_attrs updated)) with
                                | Some v => v
                                | None => attr c k
                                end)
  /\ snd (handleToggleLinkStatus course Rejected courses) = courses.
Proof.
  intros Hn courses'. subst courses'. cbn [handleToggleLinkStatus snd].
  split; [apply length_map|].
  rewrite nth_error_map, Hn. cbn [option_map].
  split; [|split; [|reflexivity]].
  - intros Hne. apply String.eqb_neq in Hne. now rewrite Hne.
  - intros He. apply String.eqb_eq in He. rewrite He.
    eexists. split; [reflexivity|]. split; [reflexivity|].
    intros k. unfold attr, spread_document. cbn [doc_attrs].
    rewrite lookup_spread. now destruct (lookup k (rev (doc_attrs updated))).
Qed.

Lemma toggle_updates_only_that_course_witness :
  List.length (snd (handleToggleLinkStatus inactive_course (Fulfilled example_course)
                      [other_course; inactive_course]))
  = List.length [other_course; inactive_course]
  /\ (doc_id inactive_course <> doc_id inactive_course ->
      nth_error (snd (handleToggleLinkStatus inactive_course (Fulfilled example_course)
                        [other_course; inactive_course])) 1
      = Some inactive_course)
  /\ (doc_id inactive_course = doc_id inactive_course ->
      exists c', nth_error (snd (handleToggleLinkStatus inactive_course
                                   (Fulfilled example_course)
                                   [other_course; inactive_course])) 1 = Some c'
                 /\ doc_id c' = doc_id example_course
                 /\ forall k, attr c' k
                              = match lookup k (rev (doc_attrs example_course)) with
                                | Some v => v
                                | None => attr inactive_course k
                                end)
  /\ snd (handleToggleLinkStatus inactive_course Rejected
            [other_course; inactive_course])
     = [other_course; inactive_course].
Proof.
  apply (toggle_updates_only_that_course inactive_course example_course
           [other_course; inactive_course] 1 inactive_course).
  reflexivity.
Defined.

Section ToggleReachesLink.

Variable env : environment.
Variable programme : string.


End ToggleReachesLink.


(** *** Searching the cards *)

Lemma after_prefix_app t b : after_prefix t (t ++ b)%string = Some b.
Proof.
  induction t as [|c t IH]; cbn; [reflexivity|].
  now rewrite Ascii.eqb_refl.
Qed.

Lemma after_prefix_inv t : forall s r, after_prefix t s = Some r -> s = (t ++ r)%string.
Proof.
  induction t as [|c t IH]; intros s r H; cbn in H.
  - now injection H as ->.
  - destruct s as [|c' s]; [discriminate|].
    destruct (Ascii.eqb c c') eqn:E; [|discriminate].
    apply Ascii.eqb_eq in E. subst c'. cbn. f_equal. now apply IH.
Qed.

Lemma String_includes_intro t b : forall a,
  String_includes (a ++ t ++ b)%string t = true.
Proof.
  induction a as [|c a IH].
  - cbn [append]. destruct (t ++ b)%string eqn:E; cbn [String_includes];
      rewrite <- E, after_prefix_app; reflexivity.
  - cbn [append String_includes]. rewrite IH.
    now destruct (after_prefix t (String c (a ++ t ++ b))).
Qed.

Lemma String_includes_elim t : forall s,
  String_includes s t = true -> exists a b, s = (a ++ t ++ b)%string.
Proof.
  induction s as [|c s IH]; cbn [String_includes]; intros H.
  - destruct (after_prefix t EmptyString) as [r|] eqn:E; [|discriminate].
    exists EmptyString, r. now apply (after_prefix_inv t).
  - destruct (after_prefix t (String c s)) as [r|] eqn:E.
    + exists EmptyString, r. now apply (after_prefix_inv t).
    + destruct (IH H) as [a [b Hs]]. exists (String c a), b. cbn. now f_equal.
Qed.

Lemma String_includes_iff s t :
  String_includes s t = true <-> exists a b, s = (a ++ t ++ b)%string.
Proof.
  split; [apply String_includes_elim|].
  intros [a [b ->]]. apply String_includes_intro.
Qed.

Lemma filter_by_programme_throws env term courses :
  filter_by_programme env term courses = None
  <-> Exists (fun c => forall p, attr c "Programme" <> VStr p) courses.
Proof.
  induction courses as [|c cs IH]; cbn [filter_by_programme].
  - split; [discriminate | intros H; inversion H].
  - destruct (attr c "Programme") as [| | | |p|] eqn:E;
      try (split; [intros _; left; intros p; rewrite E; discriminate | reflexivity]).
    destruct (filter_by_programme env term cs) as [rest|].
    + split; [discriminate|]. intros H. inversion H as [? ? H1|? ? H1]; subst.
      * exfalso. apply (H1 p), E.
      * apply IH in H1. discriminate.
    + split; [|reflexivity]. intros _. right. now apply IH.
Qed.

Lemma filter_by_programme_shown env term courses : forall shown,
  filter_by_programme env term courses = Some shown ->
  forall c, In c shown <-> In c courses /\ programme_contains env c term.
Proof.
  induction courses as [|x cs IH]; cbn [filter_by_programme]; intros shown H c.
  - injection H as <-. cbn. tauto.
  - destruct (attr x "Programme") as [| | | |p|] eqn:E; try discriminate.
    destruct (filter_by_programme env term cs) as [rest|]; [|discriminate].
    specialize (IH rest eq_refl c). injection H as <-.
    destruct (String_includes (toLowerCase env p) (toLowerCase env term)) eqn:M.
    + cbn [In]. rewrite IH. split.
      * intros [-> | [H1 H2]]; [|tauto].
        split; [now left|]. apply String_includes_iff in M.
        destruct M as [a [b M]]. now exists p, a, b.
      * intros [[-> | H1] H2]; [now left | right; tauto].
    + rewrite IH. cbn [In]. split; [tauto|].
      intros [[-> | H1] H2]; [|tauto]. exfalso.
      destruct H2 as [q [a [b [H2 H3]]]]. rewrite E in H2. injection H2 as <-.
      assert (String_includes (toLowerCase env p) (toLowerCase env term) = true)
        by (apply String_includes_iff; eauto).
      congruence.
Qed.

(** X11. The search of the attendance page.  With an empty term every
    course is listed.  With a term that is not empty the filter throws
    exactly when the [Programme] of some course is not a string;
    otherwise it lists exactly the courses whose [Programme], in lower
    case, contains the term in lower case: in particular a course is
    found under its own name, in any case. *)
Theorem search_lists_the_matching_courses env courses term :
  term <> EmptyString ->
  filteredCourses env courses EmptyString = Some courses
  /\ (filteredCourses env courses term = None
      <-> Exists (fun c => forall p, attr c "Programme" <> VStr p) courses)
  /\ (forall shown, filteredCourses env courses term = Some shown ->
        (forall c, In c shown <-> In c courses /\ programme_contains env c term)
        /\ forall c p, In c courses -> attr c "Programme" = VStr p ->
                       toLowerCase env p = toLowerCase env term -> In c shown).
Proof.
  intros Hne. split; [reflexivity|].
  unfold filteredCourses. apply String.eqb_neq in Hne. rewrite Hne.
  split; [apply filter_by_programme_throws|].
  intros shown H.
  pose proof (filter_by_programme_shown env term courses shown H) as Hs.
  split; [exact Hs|].
  intros c p Hin Hp Hm. apply Hs. split; [exact Hin|].
  exists p, EmptyString, EmptyString. split; [exact Hp|].
  rewrite Hm. cbn [append]. now rewrite app_string_nil.
Qed.

Lemma search_lists_the_matching_courses_witness :
  filteredCourses example_env [other_course; example_course] EmptyString
  = Some [other_course; example_course]
  /\ (filteredCourses example_env [other_course; example_course] "sc" = None
      <-> Exists (fun c => forall p, attr c "Programme" <> VStr p)
                 [other_course; example_course])
  /\ (forall shown,
        filteredCourses example_env [other_course; example_course] "sc" = Some shown ->
        (forall c, In c shown
                   <-> In c [other_course; example_course]
                       /\ programme_contains example_env c "sc")
        /\ forall c p, In c [other_course; example_course] ->
                       attr c "Programme" = VStr p ->
                       toLowerCase example_env p = toLowerCase example_env "sc" ->
                       In c shown).
Proof.
  apply (search_lists_the_matching_courses example_env
           [other_course; example_course] "sc").
  discriminate.
Defined.

(** *** The link to the page of a course *)

Lemma all_chars_app f a : forall b,
  all_chars f (a ++ b)%string = all_chars f a && all_chars f b.
Proof.
  induction a as [|c a IH]; intros b; cbn; [reflexivity|].
  now rewrite IH, andb_assoc.
Qed.

Lemma encode_unit_chars c : all_chars is_uri_component_char (encode_unit c) = true.
Proof. destruct c as [[] [] [] [] [] [] [] []]; reflexivity. Qed.

Lemma encodeURIComponent_chars s :
  all_chars is_uri_component_char (encodeURIComponent s) = true.
Proof.
  induction s as [|c s IH]; cbn; [reflexivity|].
  now rewrite all_chars_app, encode_unit_chars, IH.
Qed.

Lemma all_chars_excludes f c : forall s,
  all_chars f s = true -> f c = false ->
  String_includes s (String c EmptyString) = false.
Proof.
  induction s as [|x s IH]; cbn; intros H Hc; [reflexivity|].
  apply andb_true_iff in H. destruct H as [Hx Hs].
  destruct (Ascii.eqb c x) eqn:E.
  - apply Ascii.eqb_eq in E. subst x. congruence.
  - now apply IH.
Qed.

(** X12. The semester dialog.  Opening it for a course forgets the
    semester chosen before, so that confirming without a choice only
    shows a message: nothing is navigated to and the dialog stays open.
    With a semester chosen, confirming navigates to
    [/link/<programme>/<semester>] and closes the dialog; the programme
    segment consists of unescaped characters and escapes only, so a
    slash, a question mark or a hash in the name of a course does not
    end the segment. *)
Theorem confirm_navigates_to_the_link m c :
  selectedCourse m = Some c -> selectedSemester m <> EmptyString ->
  (forall course m0,
      handleConfirmSemester (handleOpenSemesterModal course m0)
      = (toast_error "Please select a semester.", handleOpenSemesterModal course m0)
      /\ isModalOpen (handleOpenSemesterModal course m0) = true)
  /\ fst (handleConfirmSemester m)
     = navigate ("/link/" ++ programme_segment c ++ "/" ++ selectedSemester m)%string
  /\ isModalOpen (snd (handleConfirmSemester m)) = false
  /\ all_chars is_uri_component_char (programme_segment c) = true
  /\ String_includes (programme_segment c) "/" = false
  /\ String_includes (programme_segment c) "?" = false
  /\ String_includes (programme_segment c) "#" = false.
Proof.
  intros Hc Hs. split; [intros course m0; now split|].
  unfold handleConfirmSemester. apply String.eqb_neq in Hs. rewrite Hs, Hc.
  pose proof (encodeURIComponent_chars (ToString (attr c "Programme"))) as H.
  repeat split; try exact H;
    apply (all_chars_excludes is_uri_component_char); try exact H; reflexivity.
Qed.

Lemma confirm_navigates_to_the_link_witness :
  (forall course m0,
      handleConfirmSemester (handleOpenSemesterModal course m0)
      = (toast_error "Please select a semester.", handleOpenSemesterModal course m0)
      /\ isModalOpen (handleOpenSemesterModal course m0) = true)
  /\ fst (handleConfirmSemester semester_dialog)
     = navigate ("/link/" ++ programme_segment example_course ++ "/"
                   ++ selectedSemester semester_dialog)%string
  /\ isModalOpen (snd (handleConfirmSemester semester_dialog)) = false
  /\ all_chars is_uri_component_char (programme_segment example_course) = true
  /\ String_includes (programme_segment example_course) "/" = false
  /\ String_includes (programme_segment example_course) "?" = false
  /\ String_includes (programme_segment example_course) "#" = false.
Proof.
  apply (confirm_navigates_to_the_link semester_dialog example_course);
    [reflexivity | discriminate].
Defined.

(** X13. The link leads to the course.  The attendance page navigates
    to the segment it builds for a course of the list, the router
    decodes the segment, here to the name it was made from, and the page
    decodes the parameter once more.  When this second decoding throws,
    as on a name with a percent sign that starts no escape, the load
    fails with the failure message and no course.  When it gives the
    name again, up to case, and every course of the list has a name,
    the page finds a course with that name up to case and shows no
    error; it is the course itself when no other course has the same
    name up to case. *)
Theorem confirmed_link_opens_the_course env courses c p clock locs :
  In c courses -> attr c "Programme" = VStr p ->
  Forall (fun c' => exists q, attr c' "Programme" = VStr q) courses ->
  decodeURIComponent env (programme_segment c) = Some p ->
  let w := run env (useParams_programme env (programme_segment c))
             (mount clock locs) [CoursesSettled (Fulfilled courses)] in
  match decodeURIComponent env p with
  | None =>
      course (ui w) = None /\ error (ui w) = Some failure_message
      /\ pc w = Finished /\ loading (ui w) = false
  | Some again =>
      toLowerCase env again = toLowerCase env p ->
      error (ui w) = None
      /\ (exists found q,
             course (ui w) = Some found /\ In found courses
             /\ attr found "Programme" = VStr q
             /\ toLowerCase env q = toLowerCase env p)
      /\ ((forall c' q, In c' courses -> attr c' "Programme" = VStr q ->
                        toLowerCase env q = toLowerCase env p -> c' = c) ->
          course (ui w) = Some c)
  end.
Proof.
  intros Hin Hp Hall Hd w. subst w.
  unfold useParams_programme. rewrite Hd.
  destruct (decodeURIComponent env p) as [again|] eqn:Hd2.
  - intros Hsame.
    destruct (find_course_exists env (toLowerCase env p) courses c p Hin Hp eq_refl Hall)
      as [found Hf].
    rewrite <- Hsame in Hf.
    destruct (course_after_fetch env p clock locs courses again (Some found) Hd2 Hf)
      as [Hcourse Herr].
    cbn zeta in Hcourse, Herr.
    destruct (find_course_first env _ _ _ Hf) as [before [after [q [H1 [H2 [H3 _]]]]]].
    rewrite Hsame in H3.
    assert (Hfound : In found courses).
    { rewrite H1. apply in_or_app. right. now left. }
    split; [exact Herr|]. split.
    + exists found, q. now repeat split.
    + intros Huniq. rewrite Hcourse. f_equal. now apply (Huniq found q).
  - unfold run. cbn [fold_left step mount pc]. unfold after_courses.
    rewrite Hd2. now repeat split.
Qed.

Lemma confirmed_link_opens_the_course_witness :
  error (ui (run example_env
                 (useParams_programme example_env (programme_segment example_course))
                 (mount "10:15 am" [])
                 [CoursesSettled (Fulfilled [other_course; example_course])])) = None
  /\ (exists found q,
         course (ui (run example_env
                         (useParams_programme example_env
                            (programme_segment example_course))
                         (mount "10:15 am" [])
                         [CoursesSettled (Fulfilled [other_course; example_course])]))
         = Some found
         /\ In found [other_course; example_course]
         /\ attr found "Programme" = VStr q
         /\ toLowerCase example_env q = toLowerCase example_env "B.Sc IT")
  /\ ((forall c' q, In c' [other_course; example_course] ->
                    attr c' "Programme" = VStr q ->
                    toLowerCase example_env q = toLowerCase example_env "B.Sc IT" ->
                    c' = example_course) ->
      course (ui (run example_env
                      (useParams_programme example_env
                         (programme_segment example_course))
                      (mount "10:15 am" [])
                      [CoursesSettled (Fulfilled [other_course; example_course])]))
      = Some example_course).
Proof.
  refine (confirmed_link_opens_the_course example_env [other_course; example_course]
            example_course "B.Sc IT" "10:15 am" [] _ _ _ _ _).
  - right. now left.
  - reflexivity.
  - repeat constructor; eexists; reflexivity.
  - reflexivity.
  - reflexivity.
Defined.

(** The link of a course named [100% Online]: the router hands the name
    over, the page cannot decode it, and the load fails. *)
Example percent_in_the_name_fails_the_link :
  programme_segment percent_course = "100%25%20Online"
  /\ useParams_programme example_env (programme_segment percent_course) = "100% Online"
  /\ render (ui (run example_env
                     (useParams_programme example_env (programme_segment percent_course))
                     (mount "10:15 am" [])
                     [ CoursesSettled (Fulfilled [percent_course]);
                       LocationSettled (Fulfilled None) ]))
            "3" example_now
     = ErrorView failure_message.
Proof. repeat split. Qed.

(** ** More of the location manager *)

Lemma digit_head d :
  is_digit d = true ->
  is_whitespace d = false /\ (code d =? 45) = false /\ (code d =? 43) = false
  /\ Ascii.eqb "I"%char d = false.
Proof.
  destruct d as [[] [] [] [] [] [] [] []]; vm_compute; intros H;
    try discriminate H; repeat split.
Qed.

(** parseFloat on the text of a decimal that the reader of numbers
    accepts. *)
Lemma parseFloat_decimal neg d tl x rest :
  is_digit d = true ->
  parse_unsigned neg (String d tl) = Some (x, rest) ->
  parseFloat ((if neg then "-" else EmptyString) ++ String d tl)%string = x.
Proof.
  intros Hd H.
  destruct (digit_head d Hd) as [Hw [Hm [Hp HI]]].
  assert (E : parseFloat ((if neg then "-" else EmptyString) ++ String d tl)%string
              = match after_prefix "Infinity" (String d tl) with
                | Some _ => Infinity neg
                | None =>
                    let '(int, s1) := span_digits (String d tl) in
                    let '(frac, s2) :=
                      match s1 with
                      | String c s' =>
                          if code c =? 46 then span_digits s' else (EmptyString, s1)
                      | EmptyString => (EmptyString, s1)
                      end in
                    match (int ++ frac)%string with
                    | EmptyString => NaN
                    | _ =>
                        let exp := match parse_exponent s2 with
                                   | Some (e, _) => e
                                   | None => 0
                                   end in
                        number_of_decimal neg int frac exp
                    end
                end).
  { unfold parseFloat. destruct neg; cbn [append trim_start].
    - reflexivity.
    - rewrite Hw, Hm, Hp. reflexivity. }
  rewrite E. clear E. cbn [after_prefix]. rewrite HI.
  unfold parse_unsigned in H.
  destruct (span_digits (String d tl)) as [int s1].
  destruct int as [|d0 ds]; [discriminate|].
  destruct (is_zero_char d0 && negb (ds =? EmptyString)%string); [discriminate|].
  unfold parse_fraction in H.
  destruct s1 as [|c s'].
  - cbn [append]. destruct (parse_exponent EmptyString) as [[e r]|]; [|discriminate].
    now injection H as H _.
  - destruct (code c =? 46).
    + destruct (span_digits s') as [frac s2].
      destruct frac as [|f fs]; [discriminate|].
      destruct (parse_exponent s2) as [[e r]|]; [|discriminate].
      now injection H as H _.
    + destruct (parse_exponent (String c s')) as [[e r]|]; [|discriminate].
      now injection H as H _.
Qed.

(** Reading back the text that [toString] gives for a number. *)
Lemma parseFloat_Number_toString x :
  wf_number x = true -> parseFloat (Number_toString x) = unsigned_zero x.
Proof.
  destruct x as [|neg|neg|neg s n]; intros H.
  - reflexivity.
  - now destruct neg.
  - reflexivity.
  - cbn [wf_number] in H. cbn [Number_toString unsigned_zero].
    destruct (digits_toString_head s n H) as [d [tl [E Hd]]].
    rewrite E. apply (parseFloat_decimal neg d tl _ EmptyString Hd).
    rewrite <- E, <- (app_string_nil (digits_toString s n)).
    now apply parse_unsigned_digits.
Qed.

(** X14. Editing a sample and submitting the form as it was filled in
    sends one updateLocation call for that sample with the coordinates
    it has: the text that [toString] writes for a number is read back by
    parseFloat as the same number (a negative zero as zero).  The
    identifier of the sample is not empty, as the identifiers of the
    service are: [if (editingLocationId)] takes an empty one for none. *)
Theorem unchanged_edit_resends_the_coordinates loc m x y response :
  doc_id loc <> EmptyString ->
  attr loc "Latitude" = VNum x -> attr loc "Longitude" = VNum y ->
  wf_number x = true -> wf_number y = true ->
  fst (handleSubmit (handleEdit loc m) response)
  = [updateLocation (doc_id loc)
       [ ("Latitude", VNum (unsigned_zero x));
         ("Longitude", VNum (unsigned_zero y)) ]].
Proof.
  intros _ Hx Hy Wx Wy. unfold handleEdit. rewrite Hx, Hy. cbn [toString].
  unfold handleSubmit. cbn [editingLocationId formData fst].
  unfold locationData. cbn [Latitude Longitude].
  now rewrite !parseFloat_Number_toString.
Qed.

Lemma unchanged_edit_resends_the_coordinates_witness :
  fst (handleSubmit (handleEdit older_sample listing_manager) Rejected)
  = [updateLocation (doc_id older_sample)
       [ ("Latitude", VNum (unsigned_zero (Dec false "261445" 2)));
         ("Longitude", VNum (unsigned_zero (Dec false "917362" 2))) ]].
Proof.
  apply (unchanged_edit_resends_the_coordinates older_sample listing_manager
           (Dec false "261445" 2) (Dec false "917362" 2) Rejected);
    [discriminate | reflexivity | reflexivity | reflexivity | reflexivity].
Defined.

Lemma typed_keeps inputs : forall m,
  locations (typed inputs m) = locations m
  /\ editingLocationId (typed inputs m) = editingLocationId m.
Proof.
  unfold typed. induction inputs as [|[name value] inputs IH]; intros m;
    cbn [fold_left fst snd]; [now split|].
  destruct (IH (handleInputChange name value m)) as [H1 H2].
  now rewrite H1, H2.
Qed.

(** X15. Cancelling an edit brings the manager back to the state in
    which it adds: the list is as it was, the form is empty, and
    whatever is typed afterwards, the next submit sends one addLocation
    call with what the form holds and puts the answer in front of the
    list. *)
Theorem cancelled_edit_adds loc m inputs newLocation :
  formData (handleCancelEdit (handleEdit loc m)) = empty_form
  /\ locations (typed inputs (handleCancelEdit (handleEdit loc m))) = locations m
  /\ fst (handleSubmit (typed inputs (handleCancelEdit (handleEdit loc m)))
                       (Fulfilled newLocation))
     = [addLocation
          (locationData (formData (typed inputs (handleCancelEdit (handleEdit loc m)))))]
  /\ locations (snd (handleSubmit (typed inputs (handleCancelEdit (handleEdit loc m)))
                                  (Fulfilled newLocation)))
     = newLocation :: locations m.
Proof.
  destruct (typed_keeps inputs (handleCancelEdit (handleEdit loc m))) as [Hl He].
  cbn [handleCancelEdit editingLocationId locations] in Hl, He.
  assert (Hloc : locations (handleEdit loc m) = locations m).
  { unfold handleEdit.
    now destruct (toString (attr loc "Latitude")), (toString (attr loc "Longitude")). }
  rewrite Hloc in Hl.
  split; [reflexivity|]. split; [exact Hl|].
  unfold handleSubmit. rewrite He. cbn [fst snd locations].
  split; [reflexivity|]. now rewrite Hl.
Qed.

(** X16. A submit in edit mode that the service answers replaces in
    place: the list keeps its length, every entry with the identifier
    that is edited becomes the answer and every other entry stays; the
    manager then leaves the edit mode with an empty form, so that the
    next submit adds.  When the service rejects the call the manager,
    with what was typed, stays as it was.  The identifier is not empty
    (see X14). *)
Theorem edit_submit_replaces_in_place m id updated i loc response :
  id <> EmptyString ->
  editingLocationId m = Some id -> nth_error (locations m) i = Some loc ->
  fst (handleSubmit m response) = [updateLocation id (locationData (formData m))]
  /\ List.length (locations (snd (handleSubmit m (Fulfilled updated))))
     = List.length (locations m)
  /\ nth_error (locations (snd (handleSubmit m (Fulfilled updated)))) i
     = Some (if (doc_id loc =? id)%string then updated else loc)
  /\ formData (snd (handleSubmit m (Fulfilled updated))) = empty_form
  /\ only_adds (fst (handleSubmit (snd (handleSubmit m (Fulfilled updated))) response))
     = true
  /\ snd (handleSubmit m Rejected) = m.
Proof.
  intros _ He Hn. unfold handleSubmit. rewrite He.
  cbn [fst snd locations formData editingLocationId only_adds forallb].
  repeat split.
  - apply length_map.
  - now rewrite nth_error_map, Hn.
Qed.

Lemma edit_submit_replaces_in_place_witness :
  fst (handleSubmit editing_manager Rejected)
  = [updateLocation "loc-1" (locationData (formData editing_manager))]
  /\ List.length (locations (snd (handleSubmit editing_manager (Fulfilled moved_sample))))
     = List.length (locations editing_manager)
  /\ nth_error (locations (snd (handleSubmit editing_manager (Fulfilled moved_sample)))) 0
     = Some (if (doc_id older_sample =? "loc-1")%string then moved_sample
             else older_sample)
  /\ formData (snd (handleSubmit editing_manager (Fulfilled moved_sample))) = empty_form
  /\ only_adds (fst (handleSubmit (snd (handleSubmit editing_manager
                                          (Fulfilled moved_sample))) Rejected))
     = true
  /\ snd (handleSubmit editing_manager Rejected) = editing_manager.
Proof.
  apply (edit_submit_replaces_in_place editing_manager "loc-1" moved_sample 0
           older_sample Rejected); [discriminate | reflexivity | reflexivity].
Defined.

Lemma map_replace_absent id (updated : document) l :
  (forall x, In x l -> (doc_id x =? id)%string = false) ->
  map (fun loc => if (doc_id loc =? id)%string then updated else loc) l = l.
Proof.
  induction l as [|x l IH]; intros H; cbn; [reflexivity|].
  rewrite (H x (or_introl eq_refl)). f_equal. apply IH.
  intros y Hy. apply H. now right.
Qed.

(** X17. Deleting.  Without the confirmation nothing is called and
    nothing changes; when the service rejects the call the list is
    unchanged; otherwise exactly the entries with that identifier leave
    the list.  The edit mode is not touched: after the sample that is
    being edited has been deleted, the next submit still sends
    updateLocation for its identifier, and the answer changes nothing in
    the list.  The identifier is not empty (see X14). *)
Theorem delete_keeps_the_edit_mode loc m response updated :
  doc_id loc <> EmptyString ->
  let deleted := snd (handleDelete (doc_id loc) true (Fulfilled tt) (handleEdit loc m)) in
  handleDelete (doc_id loc) false response m = ([], m)
  /\ snd (handleDelete (doc_id loc) true Rejected m) = m
  /\ (forall x, In x (locations deleted)
                <-> In x (locations m) /\ doc_id x <> doc_id loc)
  /\ editingLocationId deleted = Some (doc_id loc)
  /\ fst (handleSubmit deleted (Fulfilled updated))
     = [updateLocation (doc_id loc) (locationData (formData deleted))]
  /\ locations (snd (handleSubmit deleted (Fulfilled updated))) = locations deleted.
Proof.
  intros _ deleted.
  assert (Hloc : locations (handleEdit loc m) = locations m).
  { unfold handleEdit.
    now destruct (toString (attr loc "Latitude")), (toString (attr loc "Longitude")). }
  assert (Hed : editingLocationId (handleEdit loc m) = Some (doc_id loc)).
  { unfold handleEdit.
    now destruct (toString (attr loc "Latitude")), (toString (attr loc "Longitude")). }
  assert (Hin : forall x, In x (locations deleted)
                          <-> In x (locations m) /\ doc_id x <> doc_id loc).
  { intros x. subst deleted. cbn [handleDelete snd locations].
    rewrite filter_In, Hloc, negb_true_iff. now rewrite String.eqb_neq. }
  split; [reflexivity|]. split; [reflexivity|]. split; [exact Hin|].
  assert (He : editingLocationId deleted = Some (doc_id loc)) by exact Hed.
  split; [exact He|].
  unfold handleSubmit. rewrite He. cbn [fst snd locations].
  split; [reflexivity|].
  apply map_replace_absent. intros x Hx. apply Hin in Hx.
  now apply String.eqb_neq.
Qed.

Lemma delete_keeps_the_edit_mode_witness :
  handleDelete (doc_id older_sample) false Rejected listing_manager
  = ([], listing_manager)
  /\ snd (handleDelete (doc_id older_sample) true Rejected listing_manager)
     = listing_manager
  /\ (forall x, In x (locations deleted_while_editing)
                <-> In x (locations listing_manager)
                    /\ doc_id x <> doc_id older_sample)
  /\ editingLocationId deleted_while_editing = Some (doc_id older_sample)
  /\ fst (handleSubmit deleted_while_editing (Fulfilled moved_sample))
     = [updateLocation (doc_id older_sample)
          (locationData (formData deleted_while_editing))]
  /\ locations (snd (handleSubmit deleted_while_editing (Fulfilled moved_sample)))
     = locations deleted_while_editing.
Proof.
  apply (delete_keeps_the_edit_mode older_sample listing_manager Rejected moved_sample).
  discriminate.
Defined.

(** ** The theme *)

Lemma includes_In l x : includes l x = true <-> In x l.
Proof.
  unfold includes. rewrite existsb_exists. split.
  - intros [y [H1 H2]]. apply String.eqb_eq in H2. now subst y.
  - intros H. exists x. split; [exact H | apply String.eqb_refl].
Qed.

Lemma in_classList_add token l x :
  In x (classList_add token l) <-> x = token \/ In x l.
Proof.
  unfold classList_add. destruct (includes l token) eqn:E.
  - apply includes_In in E. split; [now right|]. intros [-> | H]; assumption.
  - rewrite in_app_iff. cbn. split; [intros [H | [H | []]] | intros [H | H]]; auto.
Qed.

Lemma in_classList_remove token l x :
  In x (classList_remove token l) <-> In x l /\ x <> token.
Proof.
  unfold classList_remove. rewrite filter_In, negb_true_iff.
  now rewrite String.eqb_neq.
Qed.

Lemma in_classList_toggle token force l x :
  In x (classList_toggle token force l)
  <-> (x = token /\ force = true) \/ (In x l /\ x <> token).
Proof.
  unfold classList_toggle. destruct force.
  - rewrite in_classList_add. split.
    + intros [-> | H]; [now left|].
      destruct (string_dec x token) as [-> | Hn]; [now left | now right].
    + intros [[-> _] | [H _]]; [now left | now right].
  - rewrite in_classList_remove. split; [now right|].
    intros [[_ H] | H]; [discriminate | exact H].
Qed.

(** X18. Choosing a theme.  Afterwards the root element has the class
    [dark] exactly when the theme is [dark], or is [system] while the
    system prefers a dark scheme; no other class of the root element is
    added or removed; and the choice is kept in the storage, except
    [system], which removes the item. *)
Theorem theme_sets_the_dark_class newTheme b :
  (In "dark" (classList (snd (handleThemeChange newTheme b)))
   <-> newTheme = "dark" \/ (newTheme = "system" /\ prefers_dark b = true))
  /\ (forall c, c <> "dark" ->
        (In c (classList (snd (handleThemeChange newTheme b))) <-> In c (classList b)))
  /\ theme_item (snd (handleThemeChange newTheme b))
     = (if (newTheme =? "system")%string then None else Some newTheme)
  /\ fst (handleThemeChange newTheme b) = newTheme.
Proof.
  unfold handleThemeChange. cbn [fst snd].
  destruct (newTheme =? "system")%string eqn:Es; cbn [classList theme_item].
  - apply String.eqb_eq in Es. subst newTheme.
    split; [|split; [|split; reflexivity]].
    + rewrite in_classList_toggle. split.
      * intros [[_ H] | [_ H]]; [right; now split | congruence].
      * intros [H | [_ H]]; [discriminate | left; now split].
    + intros c Hc. rewrite in_classList_toggle. split.
      * intros [[H _] | [H _]]; [contradiction | exact H].
      * intros H. right. now split.
  - apply String.eqb_neq in Es.
    split; [|split; [|split; reflexivity]].
    + rewrite in_classList_toggle. split.
      * intros [[_ H] | [_ H]]; [left; now apply String.eqb_eq | congruence].
      * intros [H | [H _]]; [|contradiction].
        left. split; [reflexivity | subst; reflexivity].
    + intros c Hc. rewrite in_classList_toggle. split.
      * intros [[H _] | [H _]]; [contradiction | exact H].
      * intros H. right. now split.
Qed.

Lemma theme_sets_the_dark_class_witness :
  (In "dark" (classList (snd (handleThemeChange "system" fresh_browser)))
   <-> "system" = "dark" \/ ("system" = "system" /\ prefers_dark fresh_browser = true))
  /\ (forall c, c <> "dark" ->
        (In c (classList (snd (handleThemeChange "system" fresh_browser)))
         <-> In c (classList fresh_browser)))
  /\ theme_item (snd (handleThemeChange "system" fresh_browser))
     = (if ("system" =? "system")%string then None else Some "system")
  /\ fst (handleThemeChange "system" fresh_browser) = "system".
Proof.
  apply (theme_sets_the_dark_class "system" fresh_browser).
Defined.

Lemma dark_after_theme_change newTheme b :
  (In "dark" (classList (snd (handleThemeChange newTheme b)))
   <-> newTheme = "dark" \/ (newTheme = "system" /\ prefers_dark b = true))
  /\ (forall c, c <> "dark" ->
        (In c (classList (snd (handleThemeChange newTheme b))) <-> In c (classList b))).
Proof.
  unfold handleThemeChange. cbn [fst snd].
  destruct (newTheme =? "system")%string eqn:Es; cbn [classList theme_item].
  - apply String.eqb_eq in Es. subst newTheme. split.
    + rewrite in_classList_toggle. split.
      * intros [[_ H] | [_ H]]; [right; now split | congruence].
      * intros [H | [_ H]]; [discriminate | left; now split].
    + intros c Hc. rewrite in_classList_toggle. split.
      * intros [[H _] | [H _]]; [contradiction | exact H].
      * intros H. right. now split.
  - apply String.eqb_neq in Es. split.
    + rewrite in_classList_toggle. split.
      * intros [[_ H] | [_ H]]; [left; now apply String.eqb_eq | congruence].
      * intros [H | [H _]]; [|contradiction].
        left. split; [reflexivity | subst; reflexivity].
    + intros c Hc. rewrite in_classList_toggle. split.
      * intros [[H _] | [H _]]; [contradiction | exact H].
      * intros H. right. now split.
Qed.

(** X19. The chosen theme survives a reload.  A theme that is a class
    token (not empty, without white space) is chosen, and the document
    is loaded anew: the storage is kept, the root element has the
    classes [markup] of the markup, and the system prefers any scheme.
    The effect of App adds the class of that name, or [light] when the
    theme is [system], whatever the system prefers.  The settings page
    that mounts then starts with the chosen theme, and its effect
    leaves the storage as it is and sets the class [dark] exactly when
    the theme is [dark], or is [system] while the system prefers a dark
    scheme; it touches no other class.  So with [system] and a dark
    preference the application starts light, and turns dark when the
    settings page is opened. *)
Theorem theme_survives_reload newTheme b markup prefers :
  newTheme <> EmptyString -> has_whitespace newTheme = false ->
  let stored := theme_item (snd (handleThemeChange newTheme b)) in
  initial_theme (reloaded stored markup prefers) = newTheme
  /\ exists started,
       App_effect (reloaded stored markup prefers) = Some started
       /\ theme_item started = stored
       /\ classList started
          = classList_add (if (newTheme =? "system")%string then "light" else newTheme)
                          markup
       /\ fst (mount_appearance started) = newTheme
       /\ theme_item (snd (mount_appearance started)) = stored
       /\ (In "dark" (classList (snd (mount_appearance started)))
           <-> newTheme = "dark" \/ (newTheme = "system" /\ prefers = true))
       /\ (forall c, c <> "dark" ->
             (In c (classList (snd (mount_appearance started)))
              <-> In c (classList started))).
Proof.
  intros Hne Hws stored. apply String.eqb_neq in Hne.
  assert (Hst : stored = if (newTheme =? "system")%string then None else Some newTheme).
  { subst stored. unfold handleThemeChange. cbn [snd].
    now destruct (newTheme =? "system")%string. }
  assert (Hi : forall l pr, initial_theme (reloaded stored l pr) = newTheme).
  { intros l pr. unfold initial_theme, reloaded. cbn [theme_item]. rewrite Hst.
    destruct (newTheme =? "system")%string eqn:Es.
    - apply String.eqb_eq in Es. now subst.
    - now rewrite Hne. }
  split; [apply Hi|].
  exists (reloaded stored
            (classList_add (if (newTheme =? "system")%string then "light" else newTheme)
                           markup) prefers).
  split.
  { unfold App_effect, reloaded. cbn [theme_item classList prefers_dark].
    rewrite Hst. destruct (newTheme =? "system")%string; [reflexivity|].
    now rewrite Hne, Hws. }
  split; [reflexivity|]. split; [reflexivity|].
  unfold mount_appearance. rewrite Hi.
  destruct (dark_after_theme_change newTheme
              (reloaded stored
                 (classList_add (if (newTheme =? "system")%string then "light"
                                 else newTheme) markup) prefers)) as [Hdark Hother].
  split; [reflexivity|]. split.
  { unfold handleThemeChange. cbn [snd]. rewrite Hst.
    now destruct (newTheme =? "system")%string. }
  split; [exact Hdark | exact Hother].
Qed.

Lemma theme_survives_reload_witness :
  initial_theme
    (reloaded (theme_item (snd (handleThemeChange "system" fresh_browser))) [] true)
  = "system"
  /\ exists started,
       App_effect
         (reloaded (theme_item (snd (handleThemeChange "system" fresh_browser))) [] true)
       = Some started
       /\ theme_item started = theme_item (snd (handleThemeChange "system" fresh_browser))
       /\ classList started
          = classList_add (if ("system" =? "system")%string then "light" else "system") []
       /\ fst (mount_appearance started) = "system"
       /\ theme_item (snd (mount_appearance started))
          = theme_item (snd (handleThemeChange "system" fresh_browser))
       /\ (In "dark" (classList (snd (mount_appearance started)))
           <-> "system" = "dark" \/ ("system" = "system" /\ true = true))
       /\ (forall c, c <> "dark" ->
             (In c (classList (snd (mount_appearance started)))
              <-> In c (classList started))).
Proof.
  apply (theme_survives_reload "system" fresh_browser [] true);
    [discriminate | reflexivity].
Defined.

(** After a reload with the theme [system] and a dark preference, App
    leaves the class [light] alone, and the settings page that mounts
    adds [dark]. *)
Example system_theme_starts_light :
  option_map classList (App_effect (reloaded None [] true)) = Some ["light"]
  /\ option_map (fun started => classList (snd (mount_appearance started)))
                (App_effect (reloaded None [] true))
     = Some ["light"; "dark"].
Proof. split; reflexivity. Qed.

(** X20. The colour scheme of the system.  After a theme other than
    [system] has been chosen (and stored), a change of the scheme the
    system prefers leaves the classes of the root element as they are;
    after [system] has been chosen, the root element has the class
    [dark] exactly when the system now prefers a dark scheme. *)
Theorem system_theme_follows_the_scheme newTheme b matches :
  newTheme <> EmptyString ->
  let chosen := snd (handleThemeChange newTheme b) in
  (newTheme <> "system" ->
   classList (handleChange matches chosen) = classList chosen)
  /\ (newTheme = "system" ->
      (In "dark" (classList (handleChange matches chosen)) <-> matches = true))
  /\ theme_item (handleChange matches chosen) = theme_item chosen.
Proof.
  intros Hne chosen. subst chosen. apply String.eqb_neq in Hne.
  unfold handleThemeChange, handleChange. cbn [snd].
  split; [|split].
  - intros Hs. apply String.eqb_neq in Hs. rewrite Hs. cbn [theme_item classList].
    now rewrite Hs, Hne.
  - intros ->. cbn [String.eqb Ascii.eqb Bool.eqb andb theme_item classList].
    rewrite in_classList_toggle. split.
    + intros [[_ H] | [_ H]]; [exact H | congruence].
    + intros H. left. now split.
  - now destruct (newTheme =? "system")%string.
Qed.

Lemma system_theme_follows_the_scheme_witness :
  ("system" <> "system" ->
   classList (handleChange false (snd (handleThemeChange "system" fresh_browser)))
   = classList (snd (handleThemeChange "system" fresh_browser)))
  /\ ("system" = "system" ->
      (In "dark" (classList (handleChange false
                               (snd (handleThemeChange "system" fresh_browser))))
       <-> false = true))
  /\ theme_item (handleChange false (snd (handleThemeChange "system" fresh_browser)))
     = theme_item (snd (handleThemeChange "system" fresh_browser)).
Proof.
  apply (system_theme_follows_the_scheme "system" fresh_browser false).
  discriminate.
Defined.

(** ** Sessions: a course without a name *)

Section NamelessCourse.

Variable env : environment.
Variable programme : string.

Lemma find_course_throws decoded before bad after :
  Forall (fun c' => exists q, attr c' "Programme" = VStr q
                              /\ toLowerCase env q <> decoded) before ->
  (forall p, attr bad "Programme" <> VStr p) ->
  find_course env decoded (before ++ bad :: after) = None.
Proof.
  intros Hb Hbad. induction Hb as [|x before [q [Hq Hne]] _ IH]; cbn.
  - destruct (attr bad "Programme") as [| | | |p|] eqn:E; try reflexivity.
    exfalso. now apply (Hbad p).
  - rewrite Hq. apply String.eqb_neq in Hne. now rewrite Hne.
Qed.

(** X21. A course of the list whose [Programme] is not a string, met
    before any course that matches the link, makes the search throw:
    the load ends at once with the failure message (not with the message
    of a course that is not found), even when the course of the link
    comes later in the list, and whatever arrives afterwards the page
    shows that error card. *)
Theorem nameless_course_fails_the_load clock locs before bad after decoded
    later semester now :
  decodeURIComponent env programme = Some decoded ->
  Forall (fun c' => exists q, attr c' "Programme" = VStr q
               /\ toLowerCase env q <> toLowerCase env decoded) before ->
  (forall p, attr bad "Programme" <> VStr p) ->
  let w := step env programme (mount clock locs)
             (CoursesSettled (Fulfilled (before ++ bad :: after))) in
  pc w = Finished /\ course (ui w) = None /\ subscriptions w = []
  /\ render (ui (run env programme w later)) semester now = ErrorView failure_message.
Proof.
  intros Hd Hb Hbad w.
  assert (Hw : w = failed (mount clock locs)).
  { subst w. cbn [step mount pc]. unfold after_courses.
    now rewrite Hd, (find_course_throws _ before bad after Hb Hbad). }
  rewrite Hw. repeat split.
  now apply failed_view.
Qed.

End NamelessCourse.

Lemma nameless_course_fails_the_load_witness :
  pc (step example_env "B.Sc%20IT" (mount "10:15 am" [])
        (CoursesSettled (Fulfilled ([other_course] ++ nameless_course :: [example_course]))))
  = Finished
  /\ course (ui (step example_env "B.Sc%20IT" (mount "10:15 am" [])
        (CoursesSettled (Fulfilled ([other_course] ++ nameless_course :: [example_course])))))
     = None
  /\ subscriptions (step example_env "B.Sc%20IT" (mount "10:15 am" [])
        (CoursesSettled (Fulfilled ([other_course] ++ nameless_course :: [example_course]))))
     = []
  /\ render (ui (run example_env "B.Sc%20IT"
                   (step example_env "B.Sc%20IT" (mount "10:15 am" [])
                      (CoursesSettled
                         (Fulfilled ([other_course] ++ nameless_course :: [example_course]))))
                   [LocationSettled (Fulfilled None)]))
            "3" example_now
     = ErrorView failure_message.
Proof.
  apply (nameless_course_fails_the_load example_env "B.Sc%20IT" "10:15 am" []
           [other_course] nameless_course [example_course] "B.Sc IT"
           [LocationSettled (Fulfilled None)] "3" example_now).
  - reflexivity.
  - repeat constructor. exists "B.Com". split; [reflexivity | discriminate].
  - intros p. discriminate.
Defined.
